(** * linkedin-automation: humanised interaction simulator and action pipeline

    A shallow embedding of the Go sources

      - internal/stealth/stealth.go        (module [stealth])
      - internal/storage (storage.go)      (module [storage])
      - internal/connection/connection.go  (module [connection])
      - the revised connection package     (module [connection_rev])
      - internal/messaging                 (module [messaging])
      - cmd main                           (module [main])

    Conventions of the embedding.

    - Go's [int], [int64] and [time.Duration] are 64-bit two's complement
      integers: they are values of [Z], and every arithmetic result is passed
      through [wrap64].
    - Go's [float64] is idealised: a finite value is an exact rational
      ([Some q]); [None] stands for a value that is not a finite number (the
      result of a division by zero).  Rounding is not modelled.
    - A Go [string] is a sequence of bytes ([String.string]); [len] and
      slicing count bytes, [range] decodes UTF-8 into runes.
    - Everything outside the program (the browser driven through rod, the
      random generator's raw output, the SQL engine's failures, the clock) is
      an environment: an oracle that answers each external call from the
      history of the calls made so far.  The history is kept, so that the
      calls a function performs can be inspected.
    - Calls to the logger have no effect on control flow and are left out. *)

From Stdlib Require Import ZArith QArith Qabs List String Ascii Bool Lia Lqa.
From Stdlib Require Import Permutation Sorted.
From Stdlib Require DecimalString.
From Stdlib Require Import Floats.
Import ListNotations.

Open Scope string_scope.
Open Scope Z_scope.

(* ------------------------------------------------------------------ *)
(** ** Machine integers and durations *)

Definition min_int64 : Z := - 2 ^ 63.
Definition max_int64 : Z := 2 ^ 63 - 1.

Definition int64 (z : Z) : Prop := min_int64 <= z <= max_int64.

(** Two's complement wrap-around of a 64-bit result. *)
Definition wrap64 (z : Z) : Z := (z + 2 ^ 63) mod 2 ^ 64 - 2 ^ 63.

Definition Duration := Z.

Definition Nanosecond  : Duration := 1.
Definition Microsecond : Duration := 1000 * Nanosecond.
Definition Millisecond : Duration := 1000 * Microsecond.
Definition Second      : Duration := 1000 * Millisecond.
Definition Minute      : Duration := 60 * Second.
Definition Hour        : Duration := 60 * Minute.

(** [d.Milliseconds()] *)
Definition Milliseconds (d : Duration) : Z := Z.quot d 1000000.

(* ------------------------------------------------------------------ *)
(** ** Idealised float64 *)

Definition float64 := option Q.

Definition fconst (q : Q) : float64 := Some q.
Definition fofZ (z : Z) : float64 := Some (inject_Z z).

Definition flift2 (op : Q -> Q -> Q) (a b : float64) : float64 :=
  match a, b with
  | Some x, Some y => Some (op x y)
  | _, _ => None
  end.

Definition fadd := flift2 Qplus.
Definition fsub := flift2 Qminus.
Definition fmul := flift2 Qmult.

(** Division: a zero divisor gives a value that is not a finite number
    (NaN for 0/0, an infinity otherwise). *)
Definition fdiv (a b : float64) : float64 :=
  match a, b with
  | Some x, Some y => if Qeq_bool y 0 then None else Some (x / y)%Q
  | _, _ => None
  end.

Definition fabs (a : float64) : float64 := option_map Qabs a.

(** [math.Pow(x, n)] for a small natural exponent. *)
Definition fpow (a : float64) (n : Z) : float64 :=
  option_map (fun x => Qpower x n) a.

(** [a < b] on floats; a comparison with a non-number is false. *)
Definition fltb (a b : float64) : bool :=
  match a, b with
  | Some x, Some y => negb (Qle_bool y x)
  | _, _ => false
  end.

(** Equality of floats as Go's [==]: never true of a non-number. *)
Definition feq (a b : float64) : Prop :=
  match a, b with
  | Some x, Some y => (x == y)%Q
  | _, _ => False
  end.

(** Conversion [time.Duration(f)] / [int64(f)]: truncation toward zero.  For
    a non-number Go leaves the result to the implementation; amd64 yields the
    smallest int64. *)
Definition int64_of_float (a : float64) : Z :=
  match a with
  | Some x =>
      let t := Z.quot (Qnum x) (Zpos (Qden x)) in
      if (min_int64 <=? t) && (t <=? max_int64) then t else min_int64
  | None => min_int64
  end.

(* ------------------------------------------------------------------ *)
(** ** Strings and runes *)

Definition rune := Z.

Definition byte_of (a : ascii) : Z := Z.of_N (N_of_ascii a).
Definition ascii_of (z : Z) : ascii := ascii_of_N (Z.to_N z).

Definition len (s : string) : Z := Z.of_nat (String.length s).

(** [s[:n]] for [0 <= n <= len(s)]. *)
Definition slice_to (s : string) (n : Z) : string := substring 0 (Z.to_nat n) s.

Definition RuneError : rune := 65533.

Definition is_cont (b : Z) : bool := (128 <=? b) && (b <=? 191).

(** The runes [for _, r := range s] yields, each with the byte index at which
    it starts.  Bytes that do not start a well-formed UTF-8 sequence yield
    [RuneError] and advance by one byte. *)
Fixpoint range_from (i : Z) (s : string) : list (Z * rune) :=
  match s with
  | EmptyString => []
  | String a0 s0 =>
    let b0 := byte_of a0 in
    let bad := (i, RuneError) :: range_from (i + 1) s0 in
    if b0 <? 128 then (i, b0) :: range_from (i + 1) s0
    else if (194 <=? b0) && (b0 <=? 223) then
      match s0 with
      | String a1 s1 =>
        let b1 := byte_of a1 in
        if is_cont b1
        then (i, (b0 - 192) * 64 + (b1 - 128)) :: range_from (i + 2) s1
        else bad
      | EmptyString => bad
      end
    else if (224 <=? b0) && (b0 <=? 239) then
      match s0 with
      | String a1 (String a2 s2) =>
        let b1 := byte_of a1 in
        let b2 := byte_of a2 in
        let lo := if b0 =? 224 then 160 else 128 in
        let hi := if b0 =? 237 then 159 else 191 in
        if (lo <=? b1) && (b1 <=? hi) && is_cont b2
        then (i, (b0 - 224) * 4096 + (b1 - 128) * 64 + (b2 - 128))
               :: range_from (i + 3) s2
        else bad
      | _ => bad
      end
    else if (240 <=? b0) && (b0 <=? 244) then
      match s0 with
      | String a1 (String a2 (String a3 s3)) =>
        let b1 := byte_of a1 in
        let b2 := byte_of a2 in
        let b3 := byte_of a3 in
        let lo := if b0 =? 240 then 144 else 128 in
        let hi := if b0 =? 244 then 143 else 191 in
        if (lo <=? b1) && (b1 <=? hi) && is_cont b2 && is_cont b3
        then (i, (b0 - 240) * 262144 + (b1 - 128) * 4096
                   + (b2 - 128) * 64 + (b3 - 128))
               :: range_from (i + 4) s3
        else bad
      | _ => bad
      end
    else bad
  end.

Definition range (s : string) : list (Z * rune) := range_from 0 s.

Definition runes (s : string) : list rune := map snd (range s).

Definition bytes_string (l : list Z) : string :=
  fold_right (fun b s => String (ascii_of b) s) EmptyString l.

(** [string(r)]: the UTF-8 encoding of a rune; an invalid rune encodes as
    U+FFFD. *)
Definition string_of_rune (r : rune) : string :=
  if (0 <=? r) && (r <? 128) then bytes_string [r]
  else if (128 <=? r) && (r <? 2048) then
    bytes_string [192 + r / 64; 128 + r mod 64]
  else if ((2048 <=? r) && (r <? 55296)) || ((57344 <=? r) && (r <? 65536)) then
    bytes_string [224 + r / 4096; 128 + (r / 64) mod 64; 128 + r mod 64]
  else if (65536 <=? r) && (r <=? 1114111) then
    bytes_string [240 + r / 262144; 128 + (r / 4096) mod 64;
                  128 + (r / 64) mod 64; 128 + r mod 64]
  else bytes_string [239; 191; 189].

(* ------------------------------------------------------------------ *)
(** ** The environment *)

(** Keys of rod's [input] package that the sources use. *)
Inductive Key := Backspace.

(** [input.Key] is a rune type; rod numbers a named key
    [keyCode + (location + 1) * 256]. *)
Definition rune_of_key (k : Key) : rune :=
  match k with
  | Backspace => 8 + 256
  end.

(** An element handle is identified by the selector that resolved it. *)
Definition Elem := string.

(** The scripts handed to [page.Eval] / [element.Eval]. *)
Inductive Script :=
| JsScrollBy (dy : Z)         (* window.scrollBy(0, dy) *)
| JsScrollTo (top : Z)        (* window.scrollTo({top, behavior: 'smooth'}) *)
| JsRemoveOverlays            (* the body of removeOverlayBlockers *)
| JsClick (el : Elem)         (* (el) => { el.click(); } *)
| JsSetValue (el : Elem) (text : string)  (* el.value = text; dispatch events *)
| JsValue (el : Elem).        (* el => el.value *)

(** External calls.  [Timeout] wrappers only bound how long the browser may
    take to answer and are not recorded. *)
Inductive Call :=
(* math/rand, time *)
| RngInt63                               (* one raw draw of the generator *)
| Sleep (d : Duration)                   (* time.Sleep *)
| Now                                    (* time.Now *)
(* rod page *)
| Navigate (url : string)
| WaitLoad
| WaitIdle
| PageEval (js : Script)
| Element (sel : string)                 (* page.Element *)
| Has (sel : string)                     (* page.Has *)
| KeyPress (k : Key)                     (* page.Keyboard.Press *)
| MouseMoved (x y : float64)             (* proto.InputDispatchMouseEvent *)
| MouseMoveLinear (x y : float64)        (* page.Mouse.MoveLinear *)
| MouseClick                             (* page.Mouse.Click *)
(* rod element *)
| Click (el : Elem)
| Input (el : Elem) (text : string)
| Shape (el : Elem)
| ScrollIntoView (el : Elem)
| WaitVisible (el : Elem)
| Attribute (el : Elem) (name : string)
(* database/sql: whether the statement of a storage function succeeds *)
| Sql (fn : string)
(* the search package, which is not part of the sources at hand *)
| SearchAndCollect.

(** A box as [shape.Box()] returns it; the answer to [Shape] carries the quads
    of the element and their bounding box (nil when there is no quad). *)
Record Box := { box_X : float64; box_Y : float64;
                box_Width : float64; box_Height : float64 }.

(** Answers of the environment. *)
Inductive Resp :=
| ROk
| RErr (e : string)
| RInt (z : Z)
| RBool (b : bool)
| RStr (s : string)
| RShape (quads : list (list float64)) (box : option Box)
| RProfiles (l : list (string * string)).   (* (Name, URL) *)

Definition Event := (Call * Resp)%type.

Definition Oracle := list Event -> Call -> Resp.

(* ------------------------------------------------------------------ *)
(** ** Errors *)

(** A Go [error] value.  [Wrap msg cause] is
    [fmt.Errorf("msg: %w", cause)]; a nil [error] is [None]. *)
Inductive err :=
| Err (msg : string)
| Wrap (msg : string) (cause : err)
| WrapNil (msg : string).      (* [%w] applied to a nil error *)

Definition error := option err.

(** [fmt.Errorf("msg: %w", cause)] *)
Definition Errorf_w (msg : string) (cause : error) : error :=
  match cause with
  | Some c => Some (Wrap msg c)
  | None => Some (WrapNil msg)
  end.

(** [e.Error()] *)
Fixpoint Error (e : err) : string :=
  match e with
  | Err msg => msg
  | Wrap msg c => msg ++ ": " ++ Error c
  | WrapNil msg => msg ++ ": %!w(<nil>)"
  end.

(** [errors.Unwrap] *)
Definition Unwrap (e : error) : error :=
  match e with
  | Some (Wrap _ c) => Some c
  | _ => None
  end.

(** [fmt.Sprintf("%v", e)] *)
Definition show_error (e : error) : string :=
  match e with
  | Some x => Error x
  | None => "<nil>"
  end.

Definition is_nil (e : error) : bool :=
  match e with
  | None => true
  | Some _ => false
  end.

(** [fmt.Sprintf("%d", z)] *)
Definition itoa (z : Z) : string := DecimalString.NilZero.string_of_int (Z.to_int z).

(* ------------------------------------------------------------------ *)
(** ** The store behind the storage package *)

Record ConnectionRequest := {
  cr_ProfileURL : string;
  cr_Note : string;
  cr_SentAt : Z;              (* seconds since the epoch *)
  cr_Accepted : bool
}.

Record Message := {
  m_ProfileURL : string;
  m_Message : string;
  m_SentAt : Z
}.

Record Action := {
  a_ActionType : string;
  a_Timestamp : Z
}.

(** The tables of the schema that the functions below read or write. *)
Record DB := {
  connection_requests : list ConnectionRequest;
  messages : list Message;
  actions : list Action
}.

(* ------------------------------------------------------------------ *)
(** ** The monad of the embedding: state, history and panics *)

(** The functions of package [math] that the sources use.  They are exact
    functions of the reals, so they are kept as parameters of the world;
    [Cos], [Sin] and [Atan2] are finite on finite arguments. *)
Record Math := {
  Sqrt : Q -> float64;
  Atan2 : Q -> Q -> Q;
  Cos : Q -> Q;
  Sin : Q -> Q;
  Pi : Q
}.

Record World := {
  env : Oracle;               (* the environment *)
  math : Math;                (* package math *)
  trace : list Event;         (* the calls made so far, oldest first *)
  db : DB                     (* the content of the database *)
}.

Inductive Res (A : Type) :=
| Val (a : A)
| Panic (msg : string).

Arguments Val {A} a.
Arguments Panic {A} msg.

Definition M (A : Type) := World -> Res A * World.

Definition ret {A} (a : A) : M A := fun w => (Val a, w).

Definition bind {A B} (c : M A) (k : A -> M B) : M B :=
  fun w =>
    match c w with
    | (Val a, w') => k a w'
    | (Panic msg, w') => (Panic msg, w')
    end.

Definition panic {A} (msg : string) : M A := fun w => (Panic msg, w).

Declare Scope go_scope.
Delimit Scope go_scope with go.
Notation "x <- c ;; k" := (bind c (fun x => k))
  (at level 61, c at next level, right associativity) : go_scope.
Notation "' p <- c ;; k" := (bind c (fun x => let 'p := x in k))
  (at level 61, p pattern, c at next level, right associativity) : go_scope.
Notation "c ;; k" := (bind c (fun _ => k))
  (at level 61, right associativity) : go_scope.
Open Scope go_scope.

(** Perform an external call: ask the environment and record the event. *)
Definition call (c : Call) : M Resp :=
  fun w =>
    let r := env w (trace w) c in
    (Val r, {| env := env w; math := math w;
               trace := trace w ++ [(c, r)]; db := db w |}).

Definition get_db : M DB := fun w => (Val (db w), w).

Definition put_db (d : DB) : M unit :=
  fun w => (Val tt, {| env := env w; math := math w;
                       trace := trace w; db := d |}).

Definition get_math : M Math := fun w => (Val (math w), w).

(** A call whose answer is success or an error. *)
Definition call_err (c : Call) : M error :=
  r <- call c ;;
  ret match r with
      | ROk => None
      | RErr e => Some (Err e)
      | _ => Some (Err "unexpected answer")
      end.

Definition sleep (d : Duration) : M unit := _ <- call (Sleep d) ;; ret tt.

(** [for _, x := range l { body }] *)
Fixpoint forM {A} (l : list A) (body : A -> M unit) : M unit :=
  match l with
  | [] => ret tt
  | x :: l' => body x ;; forM l' body
  end.

(** A loop whose body may [return err]: it stops at the first error. *)
Fixpoint forE {A} (l : list A) (body : A -> M error) : M error :=
  match l with
  | [] => ret None
  | x :: l' =>
      e <- body x ;;
      match e with
      | Some _ => ret e
      | None => forE l' body
      end
  end.

(** The indices [0, 1, ..., n-1] of [for i := 0; i < n; i++]. *)
Definition upto (n : Z) : list Z := map Z.of_nat (seq 0 (Z.to_nat n)).

(* ------------------------------------------------------------------ *)
(** ** math/rand *)

Module rand.

(** One raw draw: a non-negative 63-bit integer. *)
Definition Int63 : M Z :=
  r <- call RngInt63 ;;
  ret match r with
      | RInt z => z mod 2 ^ 63
      | _ => 0
      end.

(** [rng.Int63n(n)]: a value in [0, n); panics for [n <= 0].  (The library
    redraws to remove the modulo bias; the values it can return are the same.) *)
Definition Int63n (n : Z) : M Z :=
  if n <=? 0 then panic "invalid argument to Int63n"
  else r <- Int63 ;; ret (r mod n).

(** [rng.Intn(n)] *)
Definition Intn (n : Z) : M Z :=
  if n <=? 0 then panic "invalid argument to Intn"
  else r <- Int63 ;; ret (r mod n).

(** [rng.Float64()]: a value in [0, 1). *)
Definition Float64 : M float64 :=
  r <- Int63 ;;
  ret (Some (Qmake (r mod 2 ^ 53) (Z.to_pos (2 ^ 53)))).

End rand.

(* ------------------------------------------------------------------ *)
(** ** time *)

(** [time.Now()], in seconds since the epoch. *)
Definition time_Now : M Z :=
  r <- call Now ;;
  ret match r with
      | RInt t => t
      | _ => 0
      end.

(** [time.Since(t)], saturating as [Time.Sub] does. *)
Definition time_Since (t : Z) : M Duration :=
  now <- time_Now ;;
  let d := (now - t) * Second in
  ret (if d <? min_int64 then min_int64
       else if max_int64 <? d then max_int64 else d).

(** [a.Sub(b)] for two instants given in seconds, saturating. *)
Definition time_Sub (a b : Z) : Duration :=
  let d := (a - b) * Second in
  if d <? min_int64 then min_int64
  else if max_int64 <? d then max_int64 else d.

(** The calendar of an instant [t], in seconds since the epoch.  The local
    time zone of the process is taken to be UTC. *)

(** [t.Weekday()]: 0 is Sunday; the epoch fell on a Thursday. *)
Definition Weekday (t : Z) : Z := (t / 86400 + 4) mod 7.

(** [d.String()] for a [time.Weekday]. *)
Definition weekdayString (d : Z) : string :=
  nth (Z.to_nat d)
      ["Sunday"; "Monday"; "Tuesday"; "Wednesday"; "Thursday"; "Friday";
       "Saturday"]
      EmptyString.

(** [t.Hour()] *)
Definition HourOf (t : Z) : Z := (t mod 86400) / 3600.

(** [time.Date(t.Year(), t.Month(), t.Day(), hour, 0, 0, 0, t.Location())]:
    the given hour of the day of [t]; an hour outside [0, 23] is normalised
    into the neighbouring days. *)
Definition dateAtHour (t hour : Z) : Z := t / 86400 * 86400 + hour * 3600.

(* ------------------------------------------------------------------ *)
(** ** internal/stealth/stealth.go *)

Module stealth.

Record Point := { X : float64; Y : float64 }.

(* --- Technique B: randomized timing patterns --- *)

(** func RandomDelay(min, max time.Duration) time.Duration *)
Definition RandomDelay (min max : Duration) : M Duration :=
  if min >=? max then ret min
  else
    let delta := wrap64 (max - min) in
    r <- rand.Int63n delta ;;
    ret (wrap64 (min + r)).

(** func ActionDelay() time.Duration *)
Definition ActionDelay : M Duration := RandomDelay (1 * Second) (5 * Second).

(** func ShortDelay() time.Duration *)
Definition ShortDelay : M Duration :=
  RandomDelay (100 * Millisecond) (500 * Millisecond).

(* --- Technique A: mouse movement along Bezier curves --- *)

(** One coordinate of the cubic Bezier formula
    B(t) = (1-t)^3 P0 + 3 (1-t)^2 t P1 + 3 (1-t) t^2 P2 + t^3 P3,
    with the association of the Go expression. *)
Definition bezier (t p0 p1 p2 p3 : float64) : float64 :=
  let oneMinusT := fsub (fconst 1) t in
  fadd (fadd (fadd (fmul (fpow oneMinusT 3) p0)
                   (fmul (fmul (fmul (fconst 3) (fpow oneMinusT 2)) t) p1))
             (fmul (fmul (fmul (fconst 3) oneMinusT) (fpow t 2)) p2))
       (fmul (fpow t 3) p3).

(** The point stored at index [i] by the loop of CubicBezierCurve. *)
Definition bezierPoint (start end_ control1 control2 : Point) (steps i : Z)
  : Point :=
  let t := fdiv (fofZ i) (fofZ (wrap64 (steps - 1))) in
  {| X := bezier t (X start) (X control1) (X control2) (X end_);
     Y := bezier t (Y start) (Y control1) (Y control2) (Y end_) |}.

(** func CubicBezierCurve(start, end, control1, control2 Point, steps int) []Point
    [make] panics on a negative length, and on a length whose slice would
    exceed the largest allocation of the runtime: 2^48 bytes, a [Point]
    taking 16. *)
Definition CubicBezierCurve (start end_ control1 control2 : Point) (steps : Z)
  : M (list Point) :=
  if (steps <? 0) || (2 ^ 48 <? 16 * steps)
  then panic "makeslice: len out of range"
  else ret (map (bezierPoint start end_ control1 control2 steps) (upto steps)).

(** func generateControlPoints(start, end Point) []Point
    The two control points are returned as a pair. *)
Definition generateControlPoints (start end_ : Point) : M (Point * Point) :=
  m <- get_math ;;
  let dx := fsub (X end_) (X start) in
  let dy := fsub (Y end_) (Y start) in
  let distance :=
    match fadd (fmul dx dx) (fmul dy dy) with
    | Some q => Sqrt m q
    | None => None
    end in
  let angle := flift2 (Atan2 m) dy dx in
  let perpAngle := fadd angle (fdiv (fconst (Pi m)) (fconst 2)) in
  r1 <- rand.Float64 ;;
  let offset1 := fmul (fmul (fsub r1 (fconst 0.5)) distance) (fconst 0.3) in
  let cp1 :=
    {| X := fadd (fadd (X start) (fdiv dx (fconst 3)))
                 (fmul (option_map (Cos m) perpAngle) offset1);
       Y := fadd (fadd (Y start) (fdiv dy (fconst 3)))
                 (fmul (option_map (Sin m) perpAngle) offset1) |} in
  r2 <- rand.Float64 ;;
  let offset2 := fmul (fmul (fsub r2 (fconst 0.5)) distance) (fconst 0.3) in
  let cp2 :=
    {| X := fadd (fadd (X start) (fdiv (fmul (fconst 2) dx) (fconst 3)))
                 (fmul (option_map (Cos m) perpAngle) offset2);
       Y := fadd (fadd (Y start) (fdiv (fmul (fconst 2) dy) (fconst 3)))
                 (fmul (option_map (Sin m) perpAngle) offset2) |} in
  ret (cp1, cp2).

(** func calculateMouseDelay(progress float64) time.Duration *)
Definition calculateMouseDelay (progress : float64) : Duration :=
  let speed :=
    fsub (fconst 1)
         (fabs (fsub (fmul (fconst 2) progress) (fconst 1))) in
  let baseDelay := 10 * Millisecond in
  int64_of_float (fdiv (fofZ baseDelay) (fadd speed (fconst 0.5))).

(** The body of the loop of MoveMouse over the path points. *)
Definition moveAlong (n : Z) (ip : Z * Point) : M unit :=
  let '(i, point) := ip in
  let progress := fdiv (fofZ i) (fofZ n) in
  let delay := calculateMouseDelay progress in
  _ <- call (MouseMoved (X point) (Y point)) ;;
  sleep delay.

(** func MoveMouse(page *rod.Page, targetX, targetY float64) error *)
Definition MoveMouse (targetX targetY : float64) : M error :=
  rx <- rand.Float64 ;;
  let currentX := fmul rx (fconst 100) in
  ry <- rand.Float64 ;;
  let currentY := fmul ry (fconst 100) in
  let start := {| X := currentX; Y := currentY |} in
  let end_ := {| X := targetX; Y := targetY |} in
  controlPoints <- generateControlPoints start end_ ;;
  pathPoints <- CubicBezierCurve start end_ (fst controlPoints)
                                 (snd controlPoints) 50 ;;
  forM (combine (upto (Z.of_nat (List.length pathPoints))) pathPoints)
       (moveAlong (Z.of_nat (List.length pathPoints))) ;;
  o <- rand.Float64 ;;
  (if fltb o (fconst 0.3) then
     ox <- rand.Float64 ;;
     let overshootX := fadd targetX (fmul (fsub ox (fconst 0.5)) (fconst 5)) in
     oy <- rand.Float64 ;;
     let overshootY := fadd targetY (fmul (fsub oy (fconst 0.5)) (fconst 5)) in
     _ <- call (MouseMoved overshootX overshootY) ;;
     d <- RandomDelay (10 * Millisecond) (30 * Millisecond) ;;
     sleep d ;;
     _ <- call (MouseMoved targetX targetY) ;;
     ret tt
   else ret tt) ;;
  ret None.

(* --- Technique D: scrolling --- *)

(** func ScrollPage(page *rod.Page, direction string) error *)
Definition ScrollPage (direction : string) : M error :=
  a <- rand.Intn 150 ;;
  let scrollAmount := 50 + a in
  let scrollAmount :=
    if String.eqb direction "up" then - scrollAmount else scrollAmount in
  s <- rand.Intn 3 ;;
  let steps := 1 + s in
  let stepAmount := Z.quot scrollAmount steps in
  e <- forE (upto steps) (fun _ =>
         e <- call_err (PageEval (JsScrollBy stepAmount)) ;;
         match e with
         | Some _ => ret (Errorf_w "failed to scroll" e)
         | None =>
             d <- RandomDelay (50 * Millisecond) (150 * Millisecond) ;;
             sleep d ;;
             ret None
         end) ;;
  match e with
  | Some _ => ret e
  | None =>
      f <- rand.Float64 ;;
      (if fltb f (fconst 0.15) then
         correction <- rand.Intn 30 ;;
         _ <- call (PageEval (JsScrollBy (- correction))) ;;
         d <- ShortDelay ;;
         sleep d
       else ret tt) ;;
      ret None
  end.

(** func ScrollFeed(page *rod.Page, scrollCount int) error *)
Definition ScrollFeed (scrollCount : Z) : M error :=
  forE (upto scrollCount) (fun _ =>
    e <- ScrollPage "down" ;;
    match e with
    | Some _ => ret e
    | None =>
        readDelay <- RandomDelay (1 * Second) (4 * Second) ;;
        sleep readDelay ;;
        f <- rand.Float64 ;;
        (if fltb f (fconst 0.2) then
           _ <- ScrollPage "up" ;;
           d <- ShortDelay ;;
           sleep d
         else ret tt) ;;
        ret None
    end).

(* --- Technique E: typing simulation --- *)

Definition ch (a : ascii) : rune := byte_of a.

Definition typoMap : list (rune * list rune) :=
  let c := ch in
  [ (c "a", [c "s"; c "q"; c "w"; c "z"]);
    (c "b", [c "v"; c "g"; c "h"; c "n"]);
    (c "c", [c "x"; c "d"; c "f"; c "v"]);
    (c "d", [c "s"; c "e"; c "r"; c "f"; c "c"; c "x"]);
    (c "e", [c "w"; c "r"; c "d"; c "s"]);
    (c "f", [c "d"; c "r"; c "t"; c "g"; c "v"; c "c"]);
    (c "g", [c "f"; c "t"; c "y"; c "h"; c "b"; c "v"]);
    (c "h", [c "g"; c "y"; c "u"; c "j"; c "n"; c "b"]);
    (c "i", [c "u"; c "o"; c "k"; c "j"]);
    (c "j", [c "h"; c "u"; c "i"; c "k"; c "m"; c "n"]);
    (c "k", [c "j"; c "i"; c "o"; c "l"; c "m"]);
    (c "l", [c "k"; c "o"; c "p"]);
    (c "m", [c "n"; c "j"; c "k"]);
    (c "n", [c "b"; c "h"; c "j"; c "m"]);
    (c "o", [c "i"; c "p"; c "l"; c "k"]);
    (c "p", [c "o"; c "l"]);
    (c "q", [c "w"; c "a"]);
    (c "r", [c "e"; c "t"; c "f"; c "d"]);
    (c "s", [c "a"; c "w"; c "e"; c "d"; c "x"; c "z"]);
    (c "t", [c "r"; c "y"; c "g"; c "f"]);
    (c "u", [c "y"; c "i"; c "j"; c "h"]);
    (c "v", [c "c"; c "f"; c "g"; c "b"]);
    (c "w", [c "q"; c "e"; c "s"; c "a"]);
    (c "x", [c "z"; c "s"; c "d"; c "c"]);
    (c "y", [c "t"; c "u"; c "h"; c "g"]);
    (c "z", [c "a"; c "s"; c "x"]) ]%char.

(** Lookup in a Go map given as its list of entries. *)
Fixpoint lookup (m : list (rune * list rune)) (k : rune) : option (list rune) :=
  match m with
  | [] => None
  | (k', v) :: m' => if k' =? k then Some v else lookup m' k
  end.

(** [rune(strings.ToLower(string(char))[0])]: the first byte of the
    lower-cased rune.  Two runes outside ASCII have an ASCII lower-case form
    (U+0130 and the Kelvin sign U+212A); for every other rune outside ASCII
    the byte is a UTF-8 lead byte, of which only the fact that it is no
    ASCII letter matters. *)
Definition lowerChar (char : rune) : rune :=
  if (65 <=? char) && (char <=? 90) then char + 32
  else if (0 <=? char) && (char <? 128) then char
  else if char =? 304 then 105
  else if char =? 8490 then 107
  else match string_of_rune char with
       | String a _ => byte_of a
       | EmptyString => 0
       end.

(** func randomTypo(char rune) rune *)
Definition randomTypo (char : rune) : M rune :=
  match lookup typoMap (lowerChar char) with
  | Some typos =>
      if 0 <? Z.of_nat (List.length typos) then
        i <- rand.Intn (Z.of_nat (List.length typos)) ;;
        ret (nth (Z.to_nat i) typos 0)
      else ret char
  | None => ret char
  end.

(** func calculateKeystrokeDelay(position, totalLength int) time.Duration *)
Definition calculateKeystrokeDelay (position totalLength : Z) : M Duration :=
  let baseDelay := 150 * Millisecond in
  let baseDelay := if position <? 5 then 200 * Millisecond else baseDelay in
  f <- rand.Float64 ;;
  baseDelay <- (if fltb f (fconst 0.1)
                then RandomDelay (300 * Millisecond) (800 * Millisecond)
                else ret baseDelay) ;;
  let variation := fconst 0.4 in
  g <- rand.Float64 ;;
  let randomFactor :=
    fadd (fconst 1)
         (fmul (fsub (fmul g (fconst 2)) (fconst 1)) variation) in
  ret (int64_of_float (fmul (fofZ baseDelay) randomFactor)).

(** The body of the loop of TypeText for one rune of the text. *)
Definition typeChar (element : Elem) (totalLength : Z) (ic : Z * rune)
  : M unit :=
  let '(i, char) := ic in
  f <- rand.Float64 ;;
  (if fltb f (fconst 0.02) then
     wrongChar <- randomTypo char ;;
     _ <- call (Input element (string_of_rune wrongChar)) ;;
     d <- RandomDelay (100 * Millisecond) (200 * Millisecond) ;;
     sleep d ;;
     _ <- call (KeyPress Backspace) ;;
     d <- RandomDelay (100 * Millisecond) (200 * Millisecond) ;;
     sleep d
   else ret tt) ;;
  _ <- call (Input element (string_of_rune char)) ;;
  delay <- calculateKeystrokeDelay i totalLength ;;
  sleep delay.

(** func TypeText(page *rod.Page, selector, text string) error *)
Definition TypeText (selector text : string) : M error :=
  e <- call_err (Element selector) ;;
  match e with
  | Some _ => ret (Errorf_w "element not found" e)
  | None =>
      let element := selector in
      e <- call_err (Click element) ;;
      match e with
      | Some _ => ret (Errorf_w "failed to click element" e)
      | None =>
          d <- ShortDelay ;;
          sleep d ;;
          forM (range text) (typeChar element (len text)) ;;
          ret None
      end
  end.

(* --- Technique H: rate limiting and throttling --- *)

(** func CheckDailyLimit(currentCount, limit int) (allowed bool, remaining int) *)
Definition CheckDailyLimit (currentCount limit : Z) : bool * Z :=
  if currentCount >=? limit then (false, 0)
  else (true, wrap64 (limit - currentCount)).

(** func CheckHourlyLimit(currentCount, limit int) (allowed bool, remaining int) *)
Definition CheckHourlyLimit (currentCount limit : Z) : bool * Z :=
  if currentCount >=? limit then (false, 0)
  else (true, wrap64 (limit - currentCount)).

(** The base cooldown chosen by GetCooldownDuration. *)
Definition baseCooldown (actionsThisHour : Z) : Duration :=
  if actionsThisHour >? 15 then 5 * Minute
  else if actionsThisHour >? 10 then 3 * Minute
  else 2 * Minute.

(** func GetCooldownDuration(actionsThisHour int) time.Duration *)
Definition GetCooldownDuration (actionsThisHour : Z) : M Duration :=
  let baseCooldown := baseCooldown actionsThisHour in
  RandomDelay baseCooldown (wrap64 (baseCooldown * 2)).

(** func ShouldTakeBreak(actionCount int) bool *)
Definition ShouldTakeBreak (actionCount : Z) : M bool :=
  if (actionCount >? 0) && (Z.rem actionCount 25 =? 0) then
    f <- rand.Float64 ;;
    ret (fltb f (fconst 0.7))
  else ret false.

(** func GetBreakDuration() time.Duration *)
Definition GetBreakDuration : M Duration :=
  RandomDelay (10 * Minute) (30 * Minute).

(* --- Further timing helpers --- *)

(** func ThinkPause() *)
Definition ThinkPause : M unit :=
  delay <- RandomDelay (2 * Second) (8 * Second) ;;
  sleep delay.

(** func ReadingDelay(contentLength int) time.Duration *)
Definition ReadingDelay (contentLength : Z) : M Duration :=
  let words := Z.quot contentLength 5 in
  let readingTimeMs :=
    fmul (fofZ words) (fdiv (fconst 60000) (fconst 225)) in
  let variation := fconst 0.3 in
  r <- rand.Float64 ;;
  let randomFactor :=
    fadd (fconst 1)
         (fmul (fsub (fmul r (fconst 2)) (fconst 1)) variation) in
  ret (wrap64 (int64_of_float (fmul readingTimeMs randomFactor) * Millisecond)).

(* --- Technique F: hovering --- *)

(** [element.Shape()] followed by [shape.Box()] *)
Definition shapeBox (el : Elem) : M (option Box * error) :=
  r <- call (Shape el) ;;
  ret match r with
      | RShape _ b => (b, None)
      | RErr e => (None, Some (Err e))
      | _ => (None, Some (Err "unexpected answer"))
      end.

(** func HoverElement(page *rod.Page, selector string) error *)
Definition HoverElement (selector : string) : M error :=
  e <- call_err (Element selector) ;;
  match e with
  | Some _ => ret (Errorf_w "element not found" e)
  | None =>
      let element := selector in
      '(box, e) <- shapeBox element ;;
      match e with
      | Some _ => ret (Errorf_w "failed to get element shape" e)
      | None =>
          match box with
          | None => panic "invalid memory address or nil pointer dereference"
          | Some box =>
              rx <- rand.Float64 ;;
              let targetX :=
                fadd (fadd (box_X box) (fdiv (box_Width box) (fconst 2)))
                     (fmul (fsub rx (fconst 0.5)) (fconst 10)) in
              ry <- rand.Float64 ;;
              let targetY :=
                fadd (fadd (box_Y box) (fdiv (box_Height box) (fconst 2)))
                     (fmul (fsub ry (fconst 0.5)) (fconst 10)) in
              MoveMouse targetX targetY
          end
      end
  end.

(* --- Technique G: activity scheduling --- *)

(** The loop [for _, day := range workDays] that looks for [dayName]. *)
Definition isWorkDay (workDays : list string) (dayName : string) : bool :=
  existsb (fun day => String.eqb day dayName) workDays.

(** func IsBusinessHours(startHour, endHour int, workDays []string) bool *)
Definition IsBusinessHours (startHour endHour : Z) (workDays : list string)
  : M bool :=
  now <- time_Now ;;
  let currentDay := weekdayString (Weekday now) in
  if negb (isWorkDay workDays currentDay) then ret false
  else
    let currentHour := HourOf now in
    ret ((currentHour >=? startHour) && (currentHour <? endHour)).

(** func IsLunchTime() bool *)
Definition IsLunchTime : M bool :=
  now <- time_Now ;;
  ret (HourOf now =? 12).

(** The loop [for i := 0; i < 7; i++] of TimeUntilBusinessHours, entered
    with [fuel] iterations left and the current value of [next]; after the
    loop comes the fallback of one hour. *)
Fixpoint nextWorkDay (fuel : nat) (startHour : Z) (workDays : list string)
                     (now next : Z) : Duration :=
  match fuel with
  | O => 1 * Hour
  | S fuel' =>
      let dayName := weekdayString (Weekday next) in
      if isWorkDay workDays dayName then
        let next := dateAtHour next startHour in
        if next >? now then time_Sub next now
        else nextWorkDay fuel' startHour workDays now (next + 86400)
      else nextWorkDay fuel' startHour workDays now (next + 86400)
  end.

(** func TimeUntilBusinessHours(startHour, endHour int, workDays []string)
      time.Duration *)
Definition TimeUntilBusinessHours (startHour endHour : Z)
                                  (workDays : list string) : M Duration :=
  now <- time_Now ;;
  inHours <- IsBusinessHours startHour endHour workDays ;;
  if inHours then ret 0
  else
    let next := now in
    let next := if HourOf now >=? endHour then next + 86400 else next in
    ret (nextWorkDay 7 startHour workDays now next).

End stealth.

(* ------------------------------------------------------------------ *)
(** ** Early returns and selector loops *)

(** [if err := c; err != nil { return fmt.Errorf("msg: %w", err) }; k] *)
Definition orWrap (msg : string) (c : M error) (k : M error) : M error :=
  e <- c ;;
  match e with
  | Some _ => ret (Errorf_w msg e)
  | None => k
  end.

(** [if err := c; err != nil { return fmt.Errorf("msg") }; k] *)
Definition orFail (msg : string) (c : M error) (k : M error) : M error :=
  e <- c ;;
  match e with
  | Some _ => ret (Some (Err msg))
  | None => k
  end.

(** [if err := c; err != nil { return err }; k] *)
Definition orReturn (c : M error) (k : M error) : M error :=
  e <- c ;;
  match e with
  | Some _ => ret e
  | None => k
  end.

Notation "'guard' c 'wrap' msg ;; k" := (orWrap msg c k)
  (at level 61, c at next level, msg at next level, right associativity)
  : go_scope.
Notation "'guard' c 'fail' msg ;; k" := (orFail msg c k)
  (at level 61, c at next level, msg at next level, right associativity)
  : go_scope.
Notation "'guard' c ;; k" := (orReturn c k)
  (at level 61, c at next level, right associativity) : go_scope.

(** The loop
      for _, selector := range selectors {
        el, err = page.Element(selector); if err == nil { break } }
    started with the values [init] of [el] and [err]. *)
Fixpoint firstElement (init : option Elem * error) (selectors : list string)
  : M (option Elem * error) :=
  match selectors with
  | [] => ret init
  | selector :: rest =>
      e <- call_err (Element selector) ;;
      match e with
      | None => ret (Some selector, None)
      | Some _ => firstElement (None, e) rest
      end
  end.

(** The loop
      for _, selector := range selectors {
        el, err := page.Element(selector); if err == nil { return el, ... } } *)
Fixpoint findElement (selectors : list string) : M (option Elem) :=
  match selectors with
  | [] => ret None
  | selector :: rest =>
      e <- call_err (Element selector) ;;
      match e with
      | None => ret (Some selector)
      | Some _ => findElement rest
      end
  end.

(** [page.Has(selector)] *)
Definition pageHas (selector : string) : M (bool * error) :=
  r <- call (Has selector) ;;
  ret match r with
      | RBool b => (b, None)
      | RErr e => (false, Some (Err e))
      | _ => (false, Some (Err "unexpected answer"))
      end.

(** The loop
      for _, selector := range selectors {
        has, _, err := page.Has(selector); if err == nil && has { ... ; stop } } *)
Fixpoint anyHas (selectors : list string) : M bool :=
  match selectors with
  | [] => ret false
  | selector :: rest =>
      '(has, e) <- pageHas selector ;;
      if is_nil e && has then ret true else anyHas rest
  end.

(** Using a [*rod.Element] that may be nil. *)
Definition deref (el : option Elem) : M Elem :=
  match el with
  | Some e => ret e
  | None => panic "invalid memory address or nil pointer dereference"
  end.

(** [strings.Split(s, " ")] *)
Fixpoint split_space (s : string) : list string :=
  match s with
  | EmptyString => [EmptyString]
  | String a s' =>
      if Ascii.eqb a " "%char then EmptyString :: split_space s'
      else match split_space s' with
           | w :: ws => String a w :: ws
           | [] => [String a EmptyString]
           end
  end.

(** [strings.ReplaceAll(s, old, new)] for a non-empty [old]; [skip] counts
    the bytes of a match that remain to be dropped. *)
Fixpoint replace_from (skip : nat) (old new s : string) : string :=
  match s with
  | EmptyString => EmptyString
  | String a s' =>
      match skip with
      | S k => replace_from k old new s'
      | O =>
          if String.prefix old s
          then new ++ replace_from (String.length old - 1) old new s'
          else String a (replace_from 0 old new s')
      end
  end.

Definition ReplaceAll (s old new : string) : string := replace_from 0 old new s.

(* ------------------------------------------------------------------ *)
(** ** internal/config/config.go *)

Module config.

Record ConnectionConfig := {
  DailyLimit : Z;
  NoteTemplate : string;
  MinDelaySeconds : Z;
  MaxDelaySeconds : Z;
  PersonalizationRate : Q
}.

Record MessagingConfig := {
  FollowUpTemplate : string;
  DelayAfterAcceptanceHours : Z;
  MsgMinDelaySeconds : Z;
  MsgMaxDelaySeconds : Z
}.

(** The sections of [Config] that the modelled functions read. *)
Record Config := {
  Connection : ConnectionConfig;
  Messaging : MessagingConfig
}.

(** func (c *Config) GetMinDelay() time.Duration *)
Definition GetMinDelay (c : Config) : Duration :=
  wrap64 (MinDelaySeconds (Connection c) * Second).

(** func (c *Config) GetMaxDelay() time.Duration *)
Definition GetMaxDelay (c : Config) : Duration :=
  wrap64 (MaxDelaySeconds (Connection c) * Second).

(** The sections of [Config] that only Validate and IsBusinessHours read.
    They are kept apart from the record above: the receiver of these two
    methods is the pair of a [Settings] and a [Config]. *)
Record LinkedInConfig := { Email : string; Password : string }.

Record SearchConfig := { MaxResults : Z; MaxPages : Z }.

Record BusinessHours := { Start : Z; End_ : Z }.

Record StealthConfig := {
  TypingSpeedMs : Z;
  BusinessHoursOnly : bool;
  StealthBusinessHours : BusinessHours;
  WorkDays : list string
}.

Record LoggingConfig := { Level : string }.

Record Settings := {
  LinkedIn : LinkedInConfig;
  Search : SearchConfig;
  Stealth : StealthConfig;
  Logging : LoggingConfig
}.

(** The map [validLevels] of Validate. *)
Definition validLevels (level : string) : bool :=
  existsb (String.eqb level) ["debug"; "info"; "warn"; "error"].

(** func (c *Config) Validate() error *)
Definition Validate (s : Settings) (c : Config) : error :=
  if String.eqb (Email (LinkedIn s)) EmptyString then
    Some (Err "LinkedIn email is required")
  else if String.eqb (Password (LinkedIn s)) EmptyString then
    Some (Err "LinkedIn password is required")
  else if MaxResults (Search s) <=? 0 then
    Some (Err "max_results must be positive")
  else if MaxPages (Search s) <=? 0 then
    Some (Err "max_pages must be positive")
  else if DailyLimit (Connection c) <=? 0 then
    Some (Err "daily_limit must be positive")
  else if MinDelaySeconds (Connection c) <? 0 then
    Some (Err "min_delay_seconds must be non-negative")
  else if MaxDelaySeconds (Connection c) <? MinDelaySeconds (Connection c) then
    Some (Err "max_delay_seconds must be >= min_delay_seconds")
  else if (Start (StealthBusinessHours (Stealth s)) <? 0)
          || (Start (StealthBusinessHours (Stealth s)) >? 23) then
    Some (Err "business hours start must be between 0 and 23")
  else if (End_ (StealthBusinessHours (Stealth s)) <? 0)
          || (End_ (StealthBusinessHours (Stealth s)) >? 23) then
    Some (Err "business hours end must be between 0 and 23")
  else if negb (validLevels (Level (Logging s))) then
    Some (Err ("invalid log level: " ++ Level (Logging s)
               ++ " (must be debug, info, warn, or error)"))
  else None.

(** func (c *Config) IsBusinessHours() bool *)
Definition IsBusinessHours (s : Settings) : M bool :=
  if negb (BusinessHoursOnly (Stealth s)) then ret true
  else
    now <- time_Now ;;
    let currentDay := weekdayString (Weekday now) in
    if negb (existsb (fun day => String.eqb day currentDay)
                     (WorkDays (Stealth s)))
    then ret false
    else
      let currentHour := HourOf now in
      ret ((currentHour >=? Start (StealthBusinessHours (Stealth s)))
           && (currentHour <? End_ (StealthBusinessHours (Stealth s)))).

(** func (c *Config) GetTypingSpeed() time.Duration *)
Definition GetTypingSpeed (s : Settings) : Duration :=
  wrap64 (TypingSpeedMs (Stealth s) * Millisecond).

End config.

(* ------------------------------------------------------------------ *)
(** ** internal/storage *)

Module storage.

(** [DATE(t)]: the day a time instant falls in. *)
Definition DATE (t : Z) : Z := t / 86400.

Definition countb {A} (p : A -> bool) (l : list A) : Z :=
  Z.of_nat (List.length (filter p l)).

(** func RecordConnectionRequest(req ConnectionRequest) error *)
Definition RecordConnectionRequest (req : ConnectionRequest) : M error :=
  guard call_err (Sql "RecordConnectionRequest")
    wrap "failed to record connection request" ;;
  d <- get_db ;;
  put_db {| connection_requests :=
              connection_requests d ++
                [{| cr_ProfileURL := cr_ProfileURL req; cr_Note := cr_Note req;
                    cr_SentAt := cr_SentAt req; cr_Accepted := false |}];
            messages := messages d; actions := actions d |} ;;
  ret None.

(** func GetConnectionRequestsSentToday() (int, error) *)
Definition GetConnectionRequestsSentToday : M (Z * error) :=
  e <- call_err (Sql "GetConnectionRequestsSentToday") ;;
  match e with
  | Some _ => ret (0, Errorf_w "failed to get today's request count" e)
  | None =>
      now <- time_Now ;;
      d <- get_db ;;
      ret (countb (fun r => DATE (cr_SentAt r) =? DATE now)
                  (connection_requests d), None)
  end.

(** Insertion into a list ordered by descending [sent_at]. *)
Fixpoint insert_desc (r : ConnectionRequest) (l : list ConnectionRequest)
  : list ConnectionRequest :=
  match l with
  | [] => [r]
  | x :: l' =>
      if cr_SentAt x <? cr_SentAt r then r :: l else x :: insert_desc r l'
  end.

(** func GetPendingRequests() ([]ConnectionRequest, error) *)
Definition GetPendingRequests : M (list ConnectionRequest * error) :=
  e <- call_err (Sql "GetPendingRequests") ;;
  match e with
  | Some _ => ret ([], Errorf_w "failed to query pending requests" e)
  | None =>
      d <- get_db ;;
      ret (fold_right insert_desc []
             (filter (fun r => negb (cr_Accepted r)) (connection_requests d)),
           None)
  end.

(** func MarkRequestAccepted(profileURL string) error *)
Definition MarkRequestAccepted (profileURL : string) : M error :=
  guard call_err (Sql "MarkRequestAccepted")
    wrap "failed to mark request accepted" ;;
  d <- get_db ;;
  let hit r := String.eqb (cr_ProfileURL r) profileURL && negb (cr_Accepted r) in
  let rowsAffected := countb hit (connection_requests d) in
  put_db {| connection_requests :=
              map (fun r => if hit r
                            then {| cr_ProfileURL := cr_ProfileURL r;
                                    cr_Note := cr_Note r;
                                    cr_SentAt := cr_SentAt r;
                                    cr_Accepted := true |}
                            else r) (connection_requests d);
            messages := messages d; actions := actions d |} ;;
  if rowsAffected =? 0
  then ret (Some (Err ("no pending request found for profile URL: " ++ profileURL)))
  else ret None.

(** func RecordMessage(msg Message) error *)
Definition RecordMessage (msg : Message) : M error :=
  guard call_err (Sql "RecordMessage") wrap "failed to record message" ;;
  d <- get_db ;;
  put_db {| connection_requests := connection_requests d;
            messages := messages d ++ [msg]; actions := actions d |} ;;
  ret None.

(** func HasSentMessage(profileURL string) (bool, error) *)
Definition HasSentMessage (profileURL : string) : M (bool * error) :=
  e <- call_err (Sql "HasSentMessage") ;;
  match e with
  | Some _ => ret (false, Errorf_w "failed to check message history" e)
  | None =>
      d <- get_db ;;
      ret (countb (fun m => String.eqb (m_ProfileURL m) profileURL)
                  (messages d) >? 0, None)
  end.

(** func RecordAction(actionType string) error *)
Definition RecordAction (actionType : string) : M error :=
  guard call_err (Sql "RecordAction") wrap "failed to record action" ;;
  now <- time_Now ;;
  d <- get_db ;;
  put_db {| connection_requests := connection_requests d;
            messages := messages d;
            actions := actions d ++
                         [{| a_ActionType := actionType; a_Timestamp := now |}] |} ;;
  ret None.

(** func GetActionsInLastHour(actionType string) (int, error) *)
Definition GetActionsInLastHour (actionType : string) : M (Z * error) :=
  e <- call_err (Sql "GetActionsInLastHour") ;;
  match e with
  | Some _ => ret (0, Errorf_w "failed to get action count" e)
  | None =>
      now <- time_Now ;;
      d <- get_db ;;
      ret (countb (fun a => String.eqb (a_ActionType a) actionType
                            && (now - 3600 <=? a_Timestamp a))
                  (actions d), None)
  end.

(** func GetActionsToday(actionType string) (int, error) *)
Definition GetActionsToday (actionType : string) : M (Z * error) :=
  e <- call_err (Sql "GetActionsToday") ;;
  match e with
  | Some _ => ret (0, Errorf_w "failed to get action count" e)
  | None =>
      now <- time_Now ;;
      d <- get_db ;;
      ret (countb (fun a => String.eqb (a_ActionType a) actionType
                            && (DATE (a_Timestamp a) =? DATE now))
                  (actions d), None)
  end.

(** func CleanupOldActions() error *)
Definition CleanupOldActions : M error :=
  guard call_err (Sql "CleanupOldActions")
    wrap "failed to cleanup old actions" ;;
  now <- time_Now ;;
  d <- get_db ;;
  put_db {| connection_requests := connection_requests d;
            messages := messages d;
            actions := filter (fun a => negb (a_Timestamp a <? now - 30 * 86400))
                              (actions d) |} ;;
  ret None.

End storage.

(* ------------------------------------------------------------------ *)
(** ** internal/connection/connection.go *)

Module connection.

Definition MaxNoteLength : Z := 300.

Definition ch (a : ascii) : rune := byte_of a.

Definition typoMap : list (rune * list rune) :=
  let c := ch in
  [ (c "a", [c "s"; c "q"; c "w"]);
    (c "b", [c "v"; c "n"]);
    (c "c", [c "x"; c "v"]);
    (c "d", [c "s"; c "f"]);
    (c "e", [c "w"; c "r"]);
    (c "f", [c "d"; c "g"]);
    (c "g", [c "f"; c "h"]);
    (c "h", [c "g"; c "j"]);
    (c "i", [c "u"; c "o"]);
    (c "j", [c "h"; c "k"]);
    (c "k", [c "j"; c "l"]);
    (c "l", [c "k"; c "o"]);
    (c "m", [c "n"]);
    (c "n", [c "b"; c "m"]);
    (c "o", [c "i"; c "p"]);
    (c "p", [c "o"]);
    (c "r", [c "e"; c "t"]);
    (c "s", [c "a"; c "d"]);
    (c "t", [c "r"; c "y"]);
    (c "u", [c "y"; c "i"]);
    (c "v", [c "c"; c "b"]);
    (c "w", [c "q"; c "e"]);
    (c "x", [c "z"; c "c"]);
    (c "y", [c "t"; c "u"]);
    (c "z", [c "x"]) ]%char.

(** func randomTypo(char rune) rune *)
Definition randomTypo (char : rune) : M rune :=
  match stealth.lookup typoMap (stealth.lowerChar char) with
  | Some typos =>
      let n := Z.of_nat (List.length typos) in
      if 0 <? n then
        d <- stealth.RandomDelay 0 (wrap64 (n * Millisecond)) ;;
        ret (nth (Z.to_nat (Z.rem (Milliseconds d) n)) typos 0)
      else ret char
  | None => ret char
  end.

(** [d.Seconds()] *)
Definition Seconds (d : Duration) : float64 :=
  fadd (fofZ (Z.quot d Second))
       (fdiv (fofZ (Z.rem d Second)) (fconst 1000000000)).

(** func calculateKeystrokeDelay(position, totalLength int) time.Duration *)
Definition calculateKeystrokeDelay (position totalLength : Z) : M Duration :=
  let baseDelay := 150 * Millisecond in
  let baseDelay := if position <? 3 then 200 * Millisecond else baseDelay in
  p <- stealth.RandomDelay 0 (100 * Millisecond) ;;
  baseDelay <- (if p <? 10 * Millisecond
                then stealth.RandomDelay (300 * Millisecond) (800 * Millisecond)
                else ret baseDelay) ;;
  let variation := fconst 0.4 in
  g <- stealth.RandomDelay 0 Second ;;
  let randomFactor :=
    fadd (fconst 1)
         (fmul (fsub (fmul (Seconds g) (fconst 2)) (fconst 1)) variation) in
  ret (int64_of_float (fmul (fofZ baseDelay) randomFactor)).

(** func detectConnectFlow(page *rod.Page): the element found and the flow type *)
Definition detectConnectFlow : M (option Elem * string) :=
  let connectSelectors :=
    [ "button:has-text('Add')";
      "button[aria-label*='Add']";
      "button:has-text('Connect')";
      "button[aria-label='Connect']";
      "button.artdeco-button--primary:has-text('Connect')";
      "button.artdeco-button--primary:has-text('Add')";
      "button.pvs-profile-actions__action:has-text('Connect')";
      "button.pvs-profile-actions__action:has-text('Add')" ] in
  el <- findElement connectSelectors ;;
  match el with
  | Some _ => ret (el, "direct")
  | None =>
      let moreSelectors :=
        [ "button[aria-label='More actions']";
          "button[aria-label*='More']";
          "button:has-text('More')";
          "button.artdeco-dropdown__trigger--placement-bottom" ] in
      el <- findElement moreSelectors ;;
      match el with
      | Some _ => ret (el, "more")
      | None => ret (None, "none")
      end
  end.

(** func clickDirectConnect(connectBtn *rod.Element) error *)
Definition clickDirectConnect (connectBtn : option Elem) : M error :=
  match connectBtn with
  | None => ret (Some (Err "connect button is nil"))
  | Some btn =>
      d <- stealth.RandomDelay (500 * Millisecond) (1000 * Millisecond) ;;
      sleep d ;;
      guard call_err (Click btn) wrap "failed to click connect button" ;;
      d <- stealth.RandomDelay (500 * Millisecond) (1000 * Millisecond) ;;
      sleep d ;;
      ret None
  end.

(** func clickConnectFromMoreMenu(page *rod.Page, moreBtn *rod.Element) error *)
Definition clickConnectFromMoreMenu (moreBtn : option Elem) : M error :=
  match moreBtn with
  | None => ret (Some (Err "more button is nil"))
  | Some btn =>
      d <- stealth.RandomDelay (500 * Millisecond) (1000 * Millisecond) ;;
      sleep d ;;
      guard call_err (Click btn) wrap "failed to click More button" ;;
      d <- stealth.RandomDelay (500 * Millisecond) (1000 * Millisecond) ;;
      sleep d ;;
      let connectSelectors :=
        [ "div[role='menu'] span:has-text('Connect')";
          "div[role='menu'] span:has-text('Add')";
          "li:has-text('Connect')";
          "li:has-text('Add')";
          "div.artdeco-dropdown__item:has-text('Connect')";
          "div.artdeco-dropdown__item:has-text('Add')";
          "button:has-text('Connect')";
          "button:has-text('Add')";
          "span.display-flex:has-text('Connect')";
          "span.display-flex:has-text('Add')" ] in
      '(connectOption, e) <- firstElement (None, None) connectSelectors ;;
      guard ret e fail "Connect/Add option not found in dropdown" ;;
      connectOption <- deref connectOption ;;
      guard call_err (Click connectOption)
        wrap "failed to click Connect/Add option" ;;
      d <- stealth.RandomDelay (500 * Millisecond) (1000 * Millisecond) ;;
      sleep d ;;
      ret None
  end.

(** func ClickConnectButton(page *rod.Page) error *)
Definition ClickConnectButton : M error :=
  '(connectBtn, flowType) <- detectConnectFlow ;;
  if String.eqb flowType "direct" then clickDirectConnect connectBtn
  else if String.eqb flowType "more" then clickConnectFromMoreMenu connectBtn
  else if String.eqb flowType "none" then
    ret (Some (Err "no connect option available (profile may require Follow first or connection locked)"))
  else ret (Some (Err ("unknown connection flow type: " ++ flowType))).

(** func hasAddNoteOption(page *rod.Page) (bool, error) *)
Definition hasAddNoteOption : M (bool * error) :=
  let noteSelectors :=
    [ "button:has-text('Add a note')";
      "button[aria-label='Add a note']";
      "button.artdeco-button--secondary:has-text('Add a note')" ] in
  b <- anyHas noteSelectors ;;
  ret (b, None).

(** func clickAddNoteButton(page *rod.Page) error *)
Definition clickAddNoteButton : M error :=
  let noteSelectors :=
    [ "button:has-text('Add a note')";
      "button[aria-label='Add a note']";
      "button.artdeco-button--secondary:has-text('Add a note')" ] in
  '(noteButton, e) <- firstElement (None, None) noteSelectors ;;
  guard ret e fail "add note button not found" ;;
  noteButton <- deref noteButton ;;
  guard call_err (Click noteButton) wrap "failed to click add note button" ;;
  ret None.

(** The truncation at the head of TypePersonalizedNote. *)
Definition truncateNote (note : string) : string :=
  if len note >? MaxNoteLength
  then slice_to note (MaxNoteLength - 3) ++ "..."
  else note.

(** The body of the inner loop of TypePersonalizedNote for one rune. *)
Definition typeChar (noteField : Elem) (wordLength : Z) (jc : Z * rune)
  : M unit :=
  let '(j, char) := jc in
  p <- stealth.RandomDelay 0 (100 * Millisecond) ;;
  (if p <? 2 * Millisecond then
     wrongChar <- randomTypo char ;;
     _ <- call (Input noteField (string_of_rune wrongChar)) ;;
     d <- stealth.RandomDelay (100 * Millisecond) (200 * Millisecond) ;;
     sleep d ;;
     _ <- call (Input noteField (string_of_rune (rune_of_key Backspace))) ;;
     d <- stealth.RandomDelay (100 * Millisecond) (200 * Millisecond) ;;
     sleep d
   else ret tt) ;;
  _ <- call (Input noteField (string_of_rune char)) ;;
  delay <- calculateKeystrokeDelay j wordLength ;;
  sleep delay.

(** The body of the outer loop of TypePersonalizedNote for one word. *)
Definition typeWord (noteField : Elem) (nwords : Z) (iw : Z * string)
  : M unit :=
  let '(i, word) := iw in
  forM (range word) (typeChar noteField (len word)) ;;
  (if i <? nwords - 1 then
     _ <- call (Input noteField " ") ;;
     d <- stealth.RandomDelay (100 * Millisecond) (300 * Millisecond) ;;
     sleep d
   else ret tt) ;;
  p <- stealth.RandomDelay 0 (100 * Millisecond) ;;
  if p <? 10 * Millisecond then
    d <- stealth.RandomDelay (500 * Millisecond) (1500 * Millisecond) ;;
    sleep d
  else ret tt.

(** The typing loop of TypePersonalizedNote over the words of the note. *)
Definition typeNote (noteField : Elem) (note : string) : M unit :=
  let words := split_space note in
  forM (combine (upto (Z.of_nat (List.length words))) words)
       (typeWord noteField (Z.of_nat (List.length words))).

(** func TypePersonalizedNote(page *rod.Page, note string) error *)
Definition TypePersonalizedNote (note : string) : M error :=
  let note := truncateNote note in
  let noteSelectors :=
    [ "textarea[name='message']";
      "textarea[id*='custom-message']";
      "textarea.send-invite__custom-message";
      "textarea#custom-message";
      "textarea[aria-label*='note']" ] in
  '(noteField, e) <- firstElement (None, None) noteSelectors ;;
  guard ret e fail "note field not found" ;;
  noteField <- deref noteField ;;
  guard call_err (Click noteField) wrap "failed to click note field" ;;
  d <- stealth.ShortDelay ;;
  sleep d ;;
  typeNote noteField note ;;
  ret None.

(** The selectors tried by clickSendButton. *)
Definition sendSelectors : list string :=
  [ "button:has-text('Send without a note')";
    "button.artdeco-button--primary:has-text('Send')";
    "button[aria-label='Send invitation']";
    "button[aria-label='Send now']";
    "button:has-text('Send')";
    "button.ml1[aria-label*='Send']" ].

(** func clickSendButton(page *rod.Page) error *)
Definition clickSendButton : M error :=
  '(sendButton, e) <- firstElement (None, None) sendSelectors ;;
  guard ret e fail "send button not found after trying all selectors" ;;
  sendButton <- deref sendButton ;;
  d <- stealth.RandomDelay (500 * Millisecond) (1500 * Millisecond) ;;
  sleep d ;;
  guard call_err (Click sendButton) wrap "failed to click send button" ;;
  d <- stealth.RandomDelay (2 * Second) (3 * Second) ;;
  sleep d ;;
  ret None.

(** func SendConnectionRequest(page *rod.Page, profileURL, note string,
                               cfg *config.Config) error *)
Definition SendConnectionRequest (profileURL note : string)
                                 (cfg : config.Config) : M error :=
  '(requestsToday, e) <- storage.GetConnectionRequestsSentToday ;;
  guard ret e wrap "failed to check daily limit" ;;
  let limit := config.DailyLimit (config.Connection cfg) in
  if requestsToday >=? limit then
    ret (Some (Err ("daily connection request limit reached: "
                      ++ itoa requestsToday ++ "/" ++ itoa limit)))
  else
  guard call_err (Navigate profileURL) wrap "failed to navigate to profile" ;;
  guard call_err WaitLoad wrap "failed to wait for page load" ;;
  d <- stealth.RandomDelay (2 * Second) (4 * Second) ;;
  sleep d ;;
  _ <- stealth.ScrollFeed 2 ;;
  _ <- call (PageEval (JsScrollTo 0)) ;;
  d <- stealth.RandomDelay (1 * Second) (2 * Second) ;;
  sleep d ;;
  guard ClickConnectButton wrap "failed to click connect button" ;;
  d <- stealth.RandomDelay (1 * Second) (2 * Second) ;;
  sleep d ;;
  '(hasNoteOption, _) <- hasAddNoteOption ;;
  (if hasNoteOption && negb (String.eqb note EmptyString) then
     e <- clickAddNoteButton ;;
     match e with
     | Some _ => ret tt
     | None =>
         d <- stealth.ShortDelay ;;
         sleep d ;;
         _ <- TypePersonalizedNote note ;;
         ret tt
     end
   else ret tt) ;;
  guard clickSendButton wrap "failed to click send button" ;;
  now <- time_Now ;;
  _ <- storage.RecordConnectionRequest
         {| cr_ProfileURL := profileURL; cr_Note := note;
            cr_SentAt := now; cr_Accepted := false |} ;;
  _ <- storage.RecordAction "connection_request" ;;
  ret None.

(** func CheckDailyLimit(cfg *config.Config) (bool, int, error) *)
Definition CheckDailyLimit (cfg : config.Config) : M (bool * Z * error) :=
  '(requestsToday, e) <- storage.GetConnectionRequestsSentToday ;;
  match e with
  | Some _ => ret (false, 0, Errorf_w "failed to check daily limit" e)
  | None =>
      let remaining :=
        wrap64 (config.DailyLimit (config.Connection cfg) - requestsToday) in
      let allowed := remaining >? 0 in
      ret (allowed, remaining, None)
  end.

(** func GeneratePersonalizedNote(template string, name, interest string) string *)
Definition GeneratePersonalizedNote (template name interest : string) : string :=
  let note := ReplaceAll template "{{name}}" name in
  ReplaceAll note "{{interest}}" interest.

(** func ShouldAddNote(cfg *config.Config) bool *)
Definition ShouldAddNote (cfg : config.Config) : M bool :=
  d <- stealth.RandomDelay 0 (100 * Millisecond) ;;
  let randomValue := Milliseconds d in
  let threshold :=
    int64_of_float
      (fmul (fconst (config.PersonalizationRate (config.Connection cfg)))
            (fconst 100)) in
  ret (randomValue <? threshold).

End connection.

(* ------------------------------------------------------------------ *)
(** ** The revised connection package (unnamed source, package connection) *)

Module connection_rev.

Definition MaxNoteLength : Z := 300.

Definition DefaultNote : string :=
  "Hi, I came across your profile and was impressed by your background and experience. I'd love to connect and exchange insights about the industry. I believe we could have valuable discussions and potentially explore collaboration opportunities. Looking forward to connecting with you and learning from your expertise.".

(** func detectConnectFlow(page *rod.Page): the element found and the flow type *)
Definition detectConnectFlow : M (option Elem * string) :=
  let mainProfileSelectors :=
    [ "div.pv-top-card-profile-picture__container ~ div button[aria-label*='Invite']:not(.pvs-sticky-header-profile-actions__action)";
      "div.ph5 button.artdeco-button--primary[aria-label*='Invite']:not(.pvs-sticky-header-profile-actions__action)";
      "section.artdeco-card button.artdeco-button--primary[aria-label*='Invite']:not(.pvs-sticky-header-profile-actions__action)";
      "div.pv-top-card--list button.artdeco-button--primary[aria-label*='Invite']" ] in
  el <- findElement mainProfileSelectors ;;
  match el with
  | Some _ => ret (el, "direct")
  | None =>
  let stickyHeaderSelectors :=
    [ "button.pvs-sticky-header-profile-actions__action[aria-label*='Invite']";
      "button[id^='ember'].pvs-sticky-header-profile-actions__action.artdeco-button--primary[aria-label*='Invite']" ] in
  el <- findElement stickyHeaderSelectors ;;
  match el with
  | Some _ => ret (el, "sticky")
  | None =>
  let connectSelectors :=
    [ "button[id^='ember'].artdeco-button--primary[aria-label*='Invite']";
      "button.artdeco-button--primary[aria-label*='Invite'][aria-label*='connect']";
      "button.artdeco-button--primary:has-text('Add')";
      "button[data-control-name='connect']" ] in
  el <- findElement connectSelectors ;;
  match el with
  | Some _ => ret (el, "direct")
  | None =>
  let moreSelectors :=
    [ "button[aria-label*='More']";
      "button.artdeco-dropdown__trigger";
      "button.artdeco-dropdown__trigger--placement-bottom" ] in
  el <- findElement moreSelectors ;;
  match el with
  | Some _ => ret (el, "more")
  | None => ret (None, "none")
  end end end end.

(** func removeOverlayBlockers(page *rod.Page) error *)
Definition removeOverlayBlockers : M error :=
  call_err (PageEval JsRemoveOverlays).

(** func verifyConnectDialogAppeared(page *rod.Page) error *)
Definition verifyConnectDialogAppeared : M error :=
  guard call_err (Element "div[role='dialog']")
    wrap "connect dialog did not appear after click" ;;
  ret None.

(** [q[i]] on a slice of floats. *)
Definition index (q : list float64) (i : nat) : M float64 :=
  match nth_error q i with
  | Some x => ret x
  | None => panic "index out of range"
  end.

(** [btn.Shape()]: the quads of the element. *)
Definition elementShape (btn : Elem) : M (list (list float64) * error) :=
  r <- call (Shape btn) ;;
  ret match r with
      | RShape q _ => (q, None)
      | RErr e => ([], Some (Err e))
      | _ => ([], Some (Err "unexpected answer"))
      end.

(** The last resort of clickDirectConnect: a click by coordinates.  The
    result tells whether the click went through. *)
Definition clickByCoordinates (btn : Elem) : M bool :=
  '(quads, shapeErr) <- elementShape btn ;;
  match shapeErr, quads with
  | None, quad :: _ =>
      q0 <- index quad 0 ;;
      q2 <- index quad 2 ;;
      let x := fdiv (fadd q0 q2) (fconst 2) in
      q1 <- index quad 1 ;;
      q5 <- index quad 5 ;;
      let y := fdiv (fadd q1 q5) (fconst 2) in
      moveErr <- call_err (MouseMoveLinear x y) ;;
      match moveErr with
      | None =>
          sleep (200 * Millisecond) ;;
          clickErr <- call_err MouseClick ;;
          match clickErr with
          | None =>
              d <- stealth.RandomDelay (500 * Millisecond) (1000 * Millisecond) ;;
              sleep d ;;
              ret true
          | Some _ => ret false
          end
      | Some _ => ret false
      end
  | _, _ => ret false
  end.

(** func clickDirectConnect(btn *rod.Element, page *rod.Page) error *)
Definition clickDirectConnect (btn : option Elem) : M error :=
  match btn with
  | None => ret (Some (Err "connect button is nil"))
  | Some btn =>
      d <- stealth.RandomDelay (500 * Millisecond) (1000 * Millisecond) ;;
      sleep d ;;
      _ <- removeOverlayBlockers ;;
      sleep (800 * Millisecond) ;;
      _ <- call_err (ScrollIntoView btn) ;;
      sleep (500 * Millisecond) ;;
      visErr <- call_err (WaitVisible btn) ;;
      (match visErr with
       | Some _ =>
           _ <- removeOverlayBlockers ;;
           scrollErr <- call_err (ScrollIntoView btn) ;;
           (if is_nil scrollErr then sleep (1 * Second) else ret tt) ;;
           _ <- call_err (WaitVisible btn) ;;
           ret tt
       | None => ret tt
       end) ;;
      sleep (300 * Millisecond) ;;
      e <- call_err (Click btn) ;;
      match e with
      | None =>
          d <- stealth.RandomDelay (500 * Millisecond) (1000 * Millisecond) ;;
          sleep d ;;
          ret None
      | Some _ =>
          jsErr <- call_err (PageEval (JsClick btn)) ;;
          match jsErr with
          | Some _ =>
              clicked <- clickByCoordinates btn ;;
              if clicked then ret None
              else ret (Some (Err ("all click methods failed: normal="
                                     ++ show_error e ++ ", js="
                                     ++ show_error jsErr)))
          | None =>
              d <- stealth.RandomDelay (500 * Millisecond) (1000 * Millisecond) ;;
              sleep d ;;
              ret None
          end
      end
  end.

(** func clickConnectFromMoreMenu(page *rod.Page, moreBtn *rod.Element) error *)
Definition clickConnectFromMoreMenu (moreBtn : option Elem) : M error :=
  match moreBtn with
  | None => ret (Some (Err "more button is nil"))
  | Some btn =>
      d <- stealth.RandomDelay (500 * Millisecond) (1000 * Millisecond) ;;
      sleep d ;;
      guard call_err (Click btn) wrap "failed to click More button" ;;
      d <- stealth.RandomDelay (800 * Millisecond) (1200 * Millisecond) ;;
      sleep d ;;
      let connectSelectors :=
        [ "div[role='menu'] span:has-text('Connect')";
          "div.artdeco-dropdown__content span:has-text('Connect')";
          "div.artdeco-dropdown__item:has-text('Connect')";
          "li[role='menuitem']:has-text('Connect')";
          "button[aria-label*='connect']" ] in
      '(connectOption, e) <- firstElement (None, None) connectSelectors ;;
      guard ret e fail "Connect/Add option not found in dropdown" ;;
      connectOption <- deref connectOption ;;
      guard call_err (Click connectOption)
        wrap "failed to click Connect/Add option" ;;
      d <- stealth.RandomDelay (500 * Millisecond) (1000 * Millisecond) ;;
      sleep d ;;
      ret None
  end.

(** func ClickConnectButton(page *rod.Page) error *)
Definition ClickConnectButton : M error :=
  '(_, flowType) <- detectConnectFlow ;;
  if String.eqb flowType "direct" then
    e0 <- call_err (PageEval (JsScrollTo 0)) ;;
    d <- stealth.RandomDelay (1 * Second) (2 * Second) ;;
    sleep d ;;
    let mainProfileSelectors :=
      [ "div.pv-top-card-profile-picture__container ~ div button[aria-label*='Invite']:not(.pvs-sticky-header-profile-actions__action)";
        "div.ph5 button.artdeco-button--primary[aria-label*='Invite']:not(.pvs-sticky-header-profile-actions__action)";
        "section.artdeco-card button.artdeco-button--primary[aria-label*='Invite']:not(.pvs-sticky-header-profile-actions__action)";
        "div.pv-top-card--list button.artdeco-button--primary[aria-label*='Invite']" ] in
    '(btn, e) <- firstElement (None, e0) mainProfileSelectors ;;
    guard ret e wrap "failed to find main profile connect button" ;;
    guard clickDirectConnect btn ;;
    verifyConnectDialogAppeared
  else if String.eqb flowType "sticky" then
    e0 <- call_err (PageEval (JsScrollTo 400)) ;;
    d <- stealth.RandomDelay (1 * Second) (2 * Second) ;;
    sleep d ;;
    let stickySelectors :=
      [ "button.pvs-sticky-header-profile-actions__action[aria-label*='Invite']";
        "button[id^='ember'].pvs-sticky-header-profile-actions__action.artdeco-button--primary[aria-label*='Invite']" ] in
    '(btn, e) <- firstElement (None, e0) stickySelectors ;;
    guard ret e wrap "failed to find sticky header connect button" ;;
    guard clickDirectConnect btn ;;
    verifyConnectDialogAppeared
  else if String.eqb flowType "more" then
    let moreSelectors :=
      [ "button[aria-label*='More']";
        "button.artdeco-dropdown__trigger";
        "button.artdeco-dropdown__trigger--placement-bottom" ] in
    '(moreBtn, e) <- firstElement (None, None) moreSelectors ;;
    (match e, moreBtn with
     | None, Some b =>
         (* the attributes are read for the log only *)
         _ <- call (Attribute b "aria-label") ;;
         _ <- call (Attribute b "class") ;;
         ret tt
     | _, _ => ret tt
     end) ;;
    guard ret e wrap "failed to re-fetch more button" ;;
    guard clickConnectFromMoreMenu moreBtn ;;
    verifyConnectDialogAppeared
  else if String.eqb flowType "none" then
    ret (Some (Err "no connect option available (profile may require Follow first or connection locked)"))
  else ret (Some (Err ("unknown connection flow type: " ++ flowType))).

(** func hasAddNoteOption(page *rod.Page) (bool, error) *)
Definition hasAddNoteOption : M (bool * error) :=
  let noteSelectors :=
    [ "div[role='dialog'] button[aria-label='Add a note']";
      "div.send-invite button:has-text('Add a note')";
      "button.artdeco-button--secondary:has-text('Add a note')";
      "button:has-text('Add a note')";
      "button[aria-label='Add a note']" ] in
  b <- anyHas noteSelectors ;;
  ret (b, None).

(** func clickAddNoteButton(page *rod.Page) error *)
Definition clickAddNoteButton : M error :=
  e0 <- call_err (Element "div[role='dialog']") ;;
  let noteSelectors :=
    [ "div[role='dialog'] button[aria-label='Add a note']";
      "div.send-invite button[aria-label='Add a note']";
      "button.artdeco-button--secondary[aria-label='Add a note']";
      "button:has-text('Add a note')";
      "button[aria-label='Add a note']" ] in
  '(noteButton, e) <- firstElement (None, e0) noteSelectors ;;
  guard ret e fail "add note button not found" ;;
  noteButton <- deref noteButton ;;
  guard call_err (Click noteButton) wrap "failed to click add note button" ;;
  ret None.

(** The truncation at the head of TypePersonalizedNote. *)
Definition truncateNote (note : string) : string :=
  if len note >? MaxNoteLength
  then slice_to note (MaxNoteLength - 3) ++ "..."
  else note.

(** [noteField.Eval(`el => el.value`)] *)
Definition fieldValue (noteField : Elem) : M (string * error) :=
  r <- call (PageEval (JsValue noteField)) ;;
  ret match r with
      | RStr s => (s, None)
      | RErr e => (EmptyString, Some (Err e))
      | _ => (EmptyString, Some (Err "unexpected answer"))
      end.

(** func TypePersonalizedNote(page *rod.Page, note string) error *)
Definition TypePersonalizedNote (note : string) : M error :=
  let note := truncateNote note in
  let noteSelectors :=
    [ "textarea[name='message']";
      "textarea[id*='custom-message']";
      "textarea.send-invite__custom-message";
      "textarea#custom-message";
      "textarea[aria-label*='note']" ] in
  '(noteField, e) <- firstElement (None, None) noteSelectors ;;
  guard ret e fail "note field not found after trying all selectors" ;;
  noteField <- deref noteField ;;
  _ <- call_err (WaitVisible noteField) ;;
  sleep (500 * Millisecond) ;;
  _ <- call_err (ScrollIntoView noteField) ;;
  sleep (300 * Millisecond) ;;
  guard call_err (Click noteField) wrap "failed to click note field" ;;
  d <- stealth.RandomDelay (800 * Millisecond) (1200 * Millisecond) ;;
  sleep d ;;
  e <- call_err (Input noteField note) ;;
  guard (match e with
         | Some _ =>
             jsErr <- call_err (PageEval (JsSetValue noteField note)) ;;
             match jsErr with
             | Some _ =>
                 ret (Some (Err ("failed to enter note text: input failed="
                                   ++ show_error e ++ ", js failed="
                                   ++ show_error jsErr)))
             | None => ret None
             end
         | None => ret None
         end) ;;
  d <- stealth.RandomDelay (500 * Millisecond) (1000 * Millisecond) ;;
  sleep d ;;
  '(actualValue, e) <- fieldValue noteField ;;
  match e with
  | Some _ => ret None
  | None =>
      if String.eqb actualValue EmptyString
      then ret (Some (Err "note text was not entered successfully"))
      else ret None
  end.

(** The selectors tried by clickSendButton. *)
Definition sendSelectors : list string :=
  [ "div[role='dialog'] button.artdeco-button--primary[aria-label*='Send']";
    "button.artdeco-button--primary:has-text('Send')";
    "button[aria-label='Send invitation']";
    "button[aria-label='Send now']";
    "button:has-text('Send without a note')";
    "button:has-text('Send')";
    "button.ml1[aria-label*='Send']" ].

(** func clickSendButton(page *rod.Page) error *)
Definition clickSendButton : M error :=
  '(sendButton, e) <- firstElement (None, None) sendSelectors ;;
  guard ret e fail "send button not found after trying all selectors" ;;
  sendButton <- deref sendButton ;;
  d <- stealth.RandomDelay (500 * Millisecond) (1500 * Millisecond) ;;
  sleep d ;;
  guard call_err (Click sendButton) wrap "failed to click send button" ;;
  d <- stealth.RandomDelay (2 * Second) (3 * Second) ;;
  sleep d ;;
  ret None.

(** func dismissVerificationPrompt(page *rod.Page) error *)
Definition dismissVerificationPrompt : M error :=
  d <- stealth.RandomDelay (1500 * Millisecond) (2500 * Millisecond) ;;
  sleep d ;;
  let verificationModalSelectors :=
    [ "div[role='dialog']:has-text('Your invitation is sent')";
      "div[role='dialog']:has-text('Verify now')";
      "div.artdeco-modal:has-text('verification')" ] in
  hasModal <- anyHas verificationModalSelectors ;;
  if negb hasModal then ret None
  else
  let notNowSelectors :=
    [ "button:has-text('Not now')";
      "button[aria-label='Not now']";
      "div[role='dialog'] button.artdeco-button--secondary:has-text('Not now')";
      "button.artdeco-button--muted:has-text('Not now')" ] in
  '(notNowButton, e) <- firstElement (None, None) notNowSelectors ;;
  match e with
  | Some _ =>
      closeErr <- call_err (Element "button[aria-label='Dismiss']") ;;
      match closeErr with
      | None =>
          clickErr <- call_err (Click "button[aria-label='Dismiss']") ;;
          match clickErr with
          | None =>
              d <- stealth.RandomDelay (500 * Millisecond) (1000 * Millisecond) ;;
              sleep d ;;
              ret None
          | Some _ =>
              ret (Some (Err "could not find way to dismiss verification prompt"))
          end
      | Some _ =>
          ret (Some (Err "could not find way to dismiss verification prompt"))
      end
  | None =>
      notNowButton <- deref notNowButton ;;
      d <- stealth.RandomDelay (800 * Millisecond) (1500 * Millisecond) ;;
      sleep d ;;
      e <- call_err (Click notNowButton) ;;
      guard (match e with
             | Some _ =>
                 jsErr <- call_err (PageEval (JsClick notNowButton)) ;;
                 match jsErr with
                 | Some _ =>
                     ret (Some (Err ("failed to click Not now button: normal="
                                       ++ show_error e ++ ", js="
                                       ++ show_error jsErr)))
                 | None => ret None
                 end
             | None => ret None
             end) ;;
      d <- stealth.RandomDelay (1000 * Millisecond) (1500 * Millisecond) ;;
      sleep d ;;
      ret None
  end.

(** func SendConnectionRequest(page *rod.Page, profileURL, note string,
                               cfg *config.Config) error *)
Definition SendConnectionRequest (profileURL note : string)
                                 (cfg : config.Config) : M error :=
  '(requestsToday, e) <- storage.GetConnectionRequestsSentToday ;;
  guard ret e wrap "failed to check daily limit" ;;
  let limit := config.DailyLimit (config.Connection cfg) in
  if requestsToday >=? limit then
    ret (Some (Err ("daily connection request limit reached: "
                      ++ itoa requestsToday ++ "/" ++ itoa limit)))
  else
  guard call_err (Navigate profileURL) wrap "failed to navigate to profile" ;;
  guard call_err WaitLoad wrap "failed to wait for page load" ;;
  _ <- call WaitIdle ;;
  d <- stealth.RandomDelay (3 * Second) (5 * Second) ;;
  sleep d ;;
  _ <- stealth.ScrollFeed 2 ;;
  _ <- call (PageEval (JsScrollTo 0)) ;;
  d <- stealth.RandomDelay (2 * Second) (3 * Second) ;;
  sleep d ;;
  _ <- removeOverlayBlockers ;;
  sleep (500 * Millisecond) ;;
  guard ClickConnectButton wrap "failed to click connect button" ;;
  d <- stealth.RandomDelay (1 * Second) (2 * Second) ;;
  sleep d ;;
  let note := if String.eqb note EmptyString then DefaultNote else note in
  '(hasNoteOption, _) <- hasAddNoteOption ;;
  (if hasNoteOption then
     e <- clickAddNoteButton ;;
     match e with
     | Some _ => ret tt
     | None =>
         d <- stealth.RandomDelay (1500 * Millisecond) (2500 * Millisecond) ;;
         sleep d ;;
         e <- TypePersonalizedNote note ;;
         match e with
         | Some _ => ret tt
         | None =>
             d <- stealth.RandomDelay (800 * Millisecond) (1500 * Millisecond) ;;
             sleep d
         end
     end
   else ret tt) ;;
  guard clickSendButton wrap "failed to click send button" ;;
  _ <- dismissVerificationPrompt ;;
  now <- time_Now ;;
  _ <- storage.RecordConnectionRequest
         {| cr_ProfileURL := profileURL; cr_Note := note;
            cr_SentAt := now; cr_Accepted := false |} ;;
  _ <- storage.RecordAction "connection_request" ;;
  ret None.

(** func CheckDailyLimit(cfg *config.Config) (bool, int, error) *)
Definition CheckDailyLimit (cfg : config.Config) : M (bool * Z * error) :=
  '(requestsToday, e) <- storage.GetConnectionRequestsSentToday ;;
  match e with
  | Some _ => ret (false, 0, Errorf_w "failed to check daily limit" e)
  | None =>
      let remaining :=
        wrap64 (config.DailyLimit (config.Connection cfg) - requestsToday) in
      let allowed := remaining >? 0 in
      ret (allowed, remaining, None)
  end.

(** func GeneratePersonalizedNote(template string, name, interest string) string *)
Definition GeneratePersonalizedNote (template name interest : string) : string :=
  let note := ReplaceAll template "{{name}}" name in
  ReplaceAll note "{{interest}}" interest.

(** func ShouldAddNote(cfg *config.Config) bool *)
Definition ShouldAddNote (cfg : config.Config) : M bool :=
  d <- stealth.RandomDelay 0 (100 * Millisecond) ;;
  let randomValue := Milliseconds d in
  let threshold :=
    int64_of_float
      (fmul (fconst (config.PersonalizationRate (config.Connection cfg)))
            (fconst 100)) in
  ret (randomValue <? threshold).

End connection_rev.

(* ------------------------------------------------------------------ *)
(** ** internal/messaging *)

Module messaging.

(** The loop of CheckNewConnections over the pending requests. *)
Fixpoint oldEnough (pendingRequests : list ConnectionRequest)
  : M (list ConnectionRequest) :=
  match pendingRequests with
  | [] => ret []
  | request :: rest =>
      timeSinceSent <- time_Since (cr_SentAt request) ;;
      if timeSinceSent <? 24 * Hour then oldEnough rest
      else
        more <- oldEnough rest ;;
        ret (request :: more)
  end.

(** func CheckNewConnections(page *rod.Page) ([]storage.ConnectionRequest, error) *)
Definition CheckNewConnections : M (list ConnectionRequest * error) :=
  '(pendingRequests, e) <- storage.GetPendingRequests ;;
  match e with
  | Some _ => ret ([], Errorf_w "failed to get pending requests" e)
  | None =>
  if Z.of_nat (List.length pendingRequests) =? 0 then ret ([], None)
  else
  e <- call_err (Navigate "https://www.linkedin.com/mynetwork/") ;;
  match e with
  | Some _ => ret ([], Errorf_w "failed to navigate to My Network" e)
  | None =>
  e <- call_err WaitLoad ;;
  match e with
  | Some _ => ret ([], Errorf_w "failed to wait for page load" e)
  | None =>
  d <- stealth.RandomDelay (2 * Second) (4 * Second) ;;
  sleep d ;;
  newConnections <- oldEnough pendingRequests ;;
  ret (newConnections, None)
  end end end.

(** [messageButton.Shape()] followed by [shape.Box()] *)
Definition elementBox (el : Elem) : M (option Box * error) :=
  r <- call (Shape el) ;;
  ret match r with
      | RShape _ b => (b, None)
      | RErr e => (None, Some (Err e))
      | _ => (None, Some (Err "unexpected answer"))
      end.

(** func clickMessageButton(page *rod.Page) error *)
Definition clickMessageButton : M error :=
  let messageSelectors :=
    [ "button[aria-label*='Message']";
      "button:has-text('Message')";
      ".pvs-profile-actions__action:has-text('Message')" ] in
  '(messageButton, e) <- firstElement (None, None) messageSelectors ;;
  guard ret e fail "message button not found (profile may not be a connection)" ;;
  messageButton <- deref messageButton ;;
  '(box, e) <- elementBox messageButton ;;
  guard ret e wrap "failed to get button shape" ;;
  match box with
  | None => panic "invalid memory address or nil pointer dereference"
  | Some box =>
      _ <- stealth.MoveMouse
             (fadd (box_X box) (fdiv (box_Width box) (fconst 2)))
             (fadd (box_Y box) (fdiv (box_Height box) (fconst 2))) ;;
      d <- stealth.RandomDelay (300 * Millisecond) (800 * Millisecond) ;;
      sleep d ;;
      guard call_err (Click messageButton) wrap "failed to click message button" ;;
      ret None
  end.

(** The body of the inner loop of typeMessage for one rune. *)
Definition typeChar (messageField : Elem) (char : Z * rune) : M unit :=
  _ <- call (Input messageField (string_of_rune (snd char))) ;;
  delay <- stealth.RandomDelay (100 * Millisecond) (250 * Millisecond) ;;
  sleep delay.

(** The body of the outer loop of typeMessage for one word. *)
Definition typeWord (messageField : Elem) (nwords : Z) (iw : Z * string)
  : M unit :=
  let '(i, word) := iw in
  forM (range word) (typeChar messageField) ;;
  (if i <? nwords - 1 then
     _ <- call (Input messageField " ") ;;
     d <- stealth.RandomDelay (100 * Millisecond) (300 * Millisecond) ;;
     sleep d
   else ret tt) ;;
  if (i >? 0) && (Z.rem i 5 =? 0) then
    d <- stealth.RandomDelay (500 * Millisecond) (1500 * Millisecond) ;;
    sleep d
  else ret tt.

(** func typeMessage(page *rod.Page, message string) error *)
Definition typeMessage (message : string) : M error :=
  let messageSelectors :=
    [ "div[role='textbox'][aria-label*='Write a message']";
      "div.msg-form__contenteditable";
      "div[contenteditable='true'][role='textbox']" ] in
  '(messageField, e) <- firstElement (None, None) messageSelectors ;;
  guard ret e fail "message field not found" ;;
  messageField <- deref messageField ;;
  guard call_err (Click messageField) wrap "failed to click message field" ;;
  d <- stealth.ShortDelay ;;
  sleep d ;;
  let words := split_space message in
  forM (combine (upto (Z.of_nat (List.length words))) words)
       (typeWord messageField (Z.of_nat (List.length words))) ;;
  ret None.

Definition sendSelectors : list string :=
  [ "button[type='submit'][aria-label*='Send']";
    "button.msg-form__send-button";
    "button:has-text('Send')" ].

(** func clickSendMessageButton(page *rod.Page) error *)
Definition clickSendMessageButton : M error :=
  '(sendButton, e) <- firstElement (None, None) sendSelectors ;;
  guard ret e fail "send button not found" ;;
  sendButton <- deref sendButton ;;
  d <- stealth.RandomDelay (500 * Millisecond) (1500 * Millisecond) ;;
  sleep d ;;
  guard call_err (Click sendButton) wrap "failed to click send button" ;;
  d <- stealth.RandomDelay (1 * Second) (2 * Second) ;;
  sleep d ;;
  ret None.

(** func SendMessage(page *rod.Page, profileURL, message string,
                     cfg *config.Config) error *)
Definition SendMessage (profileURL message : string) (cfg : config.Config)
  : M error :=
  '(alreadySent, e) <- storage.HasSentMessage profileURL ;;
  guard ret e wrap "failed to check message history" ;;
  if alreadySent then ret None
  else
  guard call_err (Navigate profileURL) wrap "failed to navigate to profile" ;;
  guard call_err WaitLoad wrap "failed to wait for page load" ;;
  d <- stealth.RandomDelay (2 * Second) (4 * Second) ;;
  sleep d ;;
  guard clickMessageButton wrap "failed to click message button" ;;
  d <- stealth.RandomDelay (2 * Second) (3 * Second) ;;
  sleep d ;;
  guard typeMessage message wrap "failed to type message" ;;
  guard clickSendMessageButton wrap "failed to send message" ;;
  now <- time_Now ;;
  _ <- storage.RecordMessage
         {| m_ProfileURL := profileURL; m_Message := message; m_SentAt := now |} ;;
  _ <- storage.RecordAction "message_sent" ;;
  ret None.

(** func RenderTemplate(template string, vars map[string]string) string
    The map is given as the list of its entries. *)
Definition RenderTemplate (template : string) (vars : list (string * string))
  : string :=
  fold_left (fun result kv =>
               let placeholder := "{{" ++ fst kv ++ "}}" in
               ReplaceAll result placeholder (snd kv))
            vars template.

(** The body of the loop of ProcessNewConnections. *)
Definition followUp (cfg : config.Config) (conn : ConnectionRequest) : M unit :=
  timeSinceAcceptance <- time_Since (cr_SentAt conn) ;;
  let minDelay :=
    wrap64 (config.DelayAfterAcceptanceHours (config.Messaging cfg) * Hour) in
  if timeSinceAcceptance <? minDelay then ret tt
  else
    let name := "there" in
    let message :=
      RenderTemplate (config.FollowUpTemplate (config.Messaging cfg))
                     [("name", name)] in
    e <- SendMessage (cr_ProfileURL conn) message cfg ;;
    match e with
    | Some _ => ret tt
    | None =>
        _ <- storage.MarkRequestAccepted (cr_ProfileURL conn) ;;
        delay <- stealth.RandomDelay
                   (wrap64 (config.MsgMinDelaySeconds (config.Messaging cfg) * Second))
                   (wrap64 (config.MsgMaxDelaySeconds (config.Messaging cfg) * Second)) ;;
        sleep delay
    end.

(** func ProcessNewConnections(page *rod.Page, cfg *config.Config) error *)
Definition ProcessNewConnections (cfg : config.Config) : M error :=
  '(newConnections, e) <- CheckNewConnections ;;
  guard ret e wrap "failed to check new connections" ;;
  if Z.of_nat (List.length newConnections) =? 0 then ret None
  else
    forM newConnections (followUp cfg) ;;
    ret None.

End messaging.


(* ------------------------------------------------------------------ *)
(** ** cmd: the orchestrating cycle *)

Module main.

(** The backoff slept after a failed attempt:
    [time.Duration(math.Pow(2, float64(attempt))) * time.Second] *)
Definition backoff (attempt : Z) : Duration :=
  wrap64 (int64_of_float (fpow (fconst 2) attempt) * Second).

(** The loop [for attempt := 1; attempt <= maxRetries; attempt++] of
    retryWithBackoff, entered with the current values of [attempt] and
    [lastErr].  [fuel] bounds the number of iterations; it runs out only if
    the counter wraps around. *)
Fixpoint retryLoop (fuel : nat) (operation : M error) (maxRetries attempt : Z)
                   (lastErr : error) : M error :=
  if attempt <=? maxRetries then
    match fuel with
    | O => panic "retryWithBackoff: the attempt counter wrapped around"
    | S fuel' =>
        e <- operation ;;
        match e with
        | None => ret None
        | Some _ =>
            (if attempt <? maxRetries then sleep (backoff attempt) else ret tt) ;;
            retryLoop fuel' operation maxRetries (wrap64 (attempt + 1)) e
        end
    end
  else
    ret (Errorf_w ("operation failed after " ++ itoa maxRetries ++ " attempts")
                  lastErr).

(** func retryWithBackoff(operation func() error, maxRetries int) error *)
Definition retryWithBackoff (operation : M error) (maxRetries : Z) : M error :=
  retryLoop (Z.to_nat maxRetries) operation maxRetries 1 None.

(** A profile as the search package returns it. *)
Record Profile := { Name : string; URL : string }.

(** [search.SearchAndCollect(page, cfg)]: the search package is not among the
    sources at hand; its result is taken from the environment. *)
Definition SearchAndCollect : M (list Profile * error) :=
  r <- call SearchAndCollect ;;
  ret match r with
      | RProfiles l =>
          (map (fun p => {| Name := fst p; URL := snd p |}) l, None)
      | RErr e => ([], Some (Err e))
      | _ => ([], Some (Err "unexpected answer"))
      end.

Section Cycle.

(** Package connection exists in two versions; the cycle is given over the
    functions of the version it is linked with. *)
Variable SendConnectionRequest : string -> string -> config.Config -> M error.
Variable CheckDailyLimit : config.Config -> M (bool * Z * error).
Variable ShouldAddNote : config.Config -> M bool.
Variable GeneratePersonalizedNote : string -> string -> string -> string.

(** The note of one request: [note] stays empty unless [ShouldAddNote]
    answered true; a profile without a name is greeted as "there". *)
Definition noteFor (cfg : config.Config) (profile : Profile) (add : bool)
  : string :=
  if add then
    let name := Name profile in
    let name := if String.eqb name EmptyString then "there" else name in
    GeneratePersonalizedNote
      (config.NoteTemplate (config.Connection cfg)) name "technology"
  else EmptyString.

(** Phase 2 of runAutomationCycle: the loop over the collected profiles,
    entered with the current value of [requestsSent]. *)
Fixpoint sendRequests (cfg : config.Config) (profiles : list Profile)
                      (requestsSent : Z) : M Z :=
  match profiles with
  | [] => ret requestsSent
  | profile :: rest =>
      '(allowed, remaining, e) <- CheckDailyLimit cfg ;;
      if negb (is_nil e) then ret requestsSent            (* break *)
      else if negb allowed then ret requestsSent          (* break *)
      else
        add <- ShouldAddNote cfg ;;
        let note := noteFor cfg profile add in
        e <- retryWithBackoff
               (SendConnectionRequest (URL profile) note cfg) 3 ;;
        match e with
        | Some _ => sendRequests cfg rest requestsSent    (* continue *)
        | None =>
            let requestsSent := wrap64 (requestsSent + 1) in
            delay <- stealth.RandomDelay (config.GetMinDelay cfg)
                                         (config.GetMaxDelay cfg) ;;
            sleep delay ;;
            brk <- stealth.ShouldTakeBreak requestsSent ;;
            (if brk then
               breakDuration <- stealth.GetBreakDuration ;;
               sleep breakDuration
             else ret tt) ;;
            sendRequests cfg rest requestsSent
        end
  end.

(** func runAutomationCycle(page *rod.Page, cfg *config.Config) error *)
Definition runAutomationCycle (cfg : config.Config) : M error :=
  '(profiles, e) <- SearchAndCollect ;;
  guard ret e wrap "profile search failed" ;;
  d <- stealth.RandomDelay (10 * Second) (30 * Second) ;;
  sleep d ;;
  _ <- sendRequests cfg profiles 0 ;;
  d <- stealth.RandomDelay (20 * Second) (60 * Second) ;;
  sleep d ;;
  _ <- retryWithBackoff (messaging.ProcessNewConnections cfg) 3 ;;
  ret None.

End Cycle.

End main.

(* ------------------------------------------------------------------ *)
(** ** internal/auth: the string helpers *)

Module auth.

(** [s[i:j]] for [0 <= i <= j <= len(s)]. *)
Definition slice (s : string) (i j : Z) : string :=
  substring (Z.to_nat i) (Z.to_nat (j - i)) s.

(** func toLower(s string) string *)
Definition toLower (s : string) : string :=
  fold_left (fun result r =>
               if (65 <=? r) && (r <=? 90)
               then (result ++ string_of_rune (r + 32))%string
               else (result ++ string_of_rune r)%string)
            (runes s) EmptyString.

(** func containsHelper(s, substr string) bool *)
Definition containsHelper (s substr : string) : bool :=
  existsb (fun i => String.eqb (slice s i (i + len substr)) substr)
          (upto (len s - len substr + 1)).

(** func contains(s, substr string) bool *)
Definition contains (s substr : string) : bool :=
  let s := toLower s in
  let substr := toLower substr in
  (len s >=? len substr)
  && (String.eqb s substr
      || ((len s >? len substr)
          && (String.eqb (slice s 0 (len substr)) substr
              || String.eqb (slice s (len s - len substr) (len s)) substr
              || containsHelper s substr))).

End auth.

(* ------------------------------------------------------------------ *)
(** ** internal/stealth/stealth.go: the curve in binary64 arithmetic

    The functions that compute the path of the mouse, with [float64] read as
    IEEE 754 binary64 (the primitive floats: every operation rounds to
    nearest, ties to even, and may overflow to an infinity or give a NaN).
    Products and sums are rounded one by one, as on amd64, where the compiler
    does not fuse them. *)

Module stealth64.

Record Point := { X : float; Y : float }.

(** [float64(i)] for an integer [i]: the nearest binary64 number. *)
Definition ofInt (z : Z) : float := SF2Prim (binary_normalize prec emax z 0 false).

(** [math.Frexp] *)
Definition Frexp (f : float) : float * Z :=
  if is_zero f || is_infinity f || is_nan f then (f, 0) else Z.frexp f.

(** [math.Ldexp] *)
Definition Ldexp (frac : float) (exp : Z) : float := Z.ldexp frac exp.

(** [isOddInt(y)] for a whole number [y]. *)
Definition isOddInt (y : positive) : bool :=
  match y with xO _ => false | _ => true end.

(** The loop of [math.Pow] over the bits of the whole part of the exponent. *)
Fixpoint powLoop (i : positive) (a1 : float) (ae : Z) (x1 : float) (xe : Z)
  : float * Z :=
  if (xe <? - 2 ^ 12) || (2 ^ 12 <? xe) then (a1, ae + xe)
  else
    let '(a1, ae) := if isOddInt i then ((a1 * x1)%float, ae + xe) else (a1, ae) in
    let x1 := (x1 * x1)%float in
    let xe := 2 * xe in
    let '(x1, xe) := if (x1 <? 0.5)%float then ((x1 + x1)%float, xe - 1) else (x1, xe) in
    match i with
    | xH => (a1, ae)
    | xO j | xI j => powLoop j a1 ae x1 xe
    end.

(** [math.Pow(x, y)] for an exponent [y] that is a whole number,
    [1 <= y < 2^53] (the program passes 2 and 3): the special cases in the
    order of the library, then the product by repeated squaring on the
    fraction and the exponent of [x]. *)
Definition Pow (x : float) (y : positive) : float :=
  if (x =? 1)%float then 1%float
  else if (y =? 1)%positive then x
  else if is_nan x then nan
  else if (x =? 0)%float then
    (if get_sign x && isOddInt y then x else 0%float)
  else if is_infinity x then
    (if get_sign x && isOddInt y then neg_infinity else infinity)
  else
    let '(x1, xe) := Frexp x in
    let '(a1, ae) := powLoop y 1%float 0 x1 xe in
    Ldexp a1 ae.

(** One coordinate of the cubic Bezier formula, with the association and the
    roundings of the Go expression. *)
Definition bezier (t p0 p1 p2 p3 : float) : float :=
  let oneMinusT := (1 - t)%float in
  (Pow oneMinusT 3 * p0 +
   3 * Pow oneMinusT 2 * t * p1 +
   3 * oneMinusT * Pow t 2 * p2 +
   Pow t 3 * p3)%float.

(** The point stored at index [i] by the loop of CubicBezierCurve. *)
Definition bezierPoint (start end_ control1 control2 : Point) (steps i : Z)
  : Point :=
  let t := (ofInt i / ofInt (wrap64 (steps - 1)))%float in
  {| X := bezier t (X start) (X control1) (X control2) (X end_);
     Y := bezier t (Y start) (Y control1) (Y control2) (Y end_) |}.

(** What a function that allocates does: it returns, it panics, or the
    process dies for lack of memory (a fatal error, which is no panic). *)
Inductive Outcome (A : Type) : Type :=
| Returns (a : A)
| Panics (msg : string)
| OutOfMemory.
Arguments Returns {A} a.
Arguments Panics {A} msg.
Arguments OutOfMemory {A}.

(** The largest allocation of the runtime (64-bit platforms with 48 address
    bits) and the size of a [Point], in bytes. *)
Definition maxAlloc : Z := 2 ^ 48.
Definition sizeofPoint : Z := 16.

(** func CubicBezierCurve(start, end, control1, control2 Point, steps int) []Point
    [make([]Point, steps)] panics when [steps] is negative or the slice would
    be larger than [maxAlloc]; otherwise it needs [sizeofPoint * steps] bytes,
    of which the system has [avail] left. *)
Definition CubicBezierCurve (avail : Z) (start end_ control1 control2 : Point)
  (steps : Z) : Outcome (list Point) :=
  if (steps <? 0) || (maxAlloc <? sizeofPoint * steps)
  then Panics "makeslice: len out of range"
  else if avail <? sizeofPoint * steps then OutOfMemory
  else Returns (map (bezierPoint start end_ control1 control2 steps) (upto steps)).

(** The functions of the [math] package that are not computed here. *)
Record Math := {
  Atan2 : float -> float -> float;
  Cos : float -> float;
  Sin : float -> float
}.

(** [math.Pi] as a float64; [math.Sqrt] is correctly rounded. *)
Definition Pi : float := 0x1.921fb54442d18p+1%float.
Definition Sqrt (x : float) : float := sqrt x.

(** func generateControlPoints(start, end Point) []Point
    [r1] and [r2] are the two draws of [rng.Float64()], in the order of the
    calls; the constant 0.3 is the float64 nearest to it. *)
Definition generateControlPoints (m : Math) (r1 r2 : float) (start end_ : Point)
  : Point * Point :=
  let dx := (X end_ - X start)%float in
  let dy := (Y end_ - Y start)%float in
  let distance := Sqrt (dx * dx + dy * dy)%float in
  let angle := Atan2 m dy dx in
  let perpAngle := (angle + Pi / 2)%float in
  let offset1 := ((r1 - 0.5) * distance * 0x1.3333333333333p-2)%float in
  let cp1 :=
    {| X := (X start + dx / 3 + Cos m perpAngle * offset1)%float;
       Y := (Y start + dy / 3 + Sin m perpAngle * offset1)%float |} in
  let offset2 := ((r2 - 0.5) * distance * 0x1.3333333333333p-2)%float in
  let cp2 :=
    {| X := (X start + 2 * dx / 3 + Cos m perpAngle * offset2)%float;
       Y := (Y start + 2 * dy / 3 + Sin m perpAngle * offset2)%float |} in
  (cp1, cp2).

End stealth64.

(* ================================================================== *)
(** * Notions used to state the properties *)

Open Scope list_scope.

(** The world after one more recorded call. *)
Definition after (w : World) (c : Call) : World :=
  {| env := env w; math := math w;
     trace := trace w ++ [(c, env w (trace w) c)]; db := db w |}.

(** [steps w evs w']: from [w] to [w'] the events [evs] were recorded, and
    nothing else changed; in particular the database is the same. *)
Definition steps (w : World) (evs : list Event) (w' : World) : Prop :=
  env w' = env w /\ math w' = math w /\ db w' = db w
  /\ trace w' = trace w ++ evs.

(** [grows w evs w']: as [steps], but the database may have changed. *)
Definition grows (w : World) (evs : list Event) (w' : World) : Prop :=
  env w' = env w /\ math w' = math w /\ trace w' = trace w ++ evs.

(** [io c]: whatever its result, [c] only performs external calls; it leaves
    the database alone. *)
Definition io {A} (c : M A) : Prop :=
  forall w, exists evs, steps w evs (snd (c w)).

(** [sat c Q]: every run of [c] satisfies [Q], a relation between the world
    before, the result and the world after. *)
Definition sat {A} (c : M A) (Q : World -> Res A -> World -> Prop) : Prop :=
  forall w, Q w (fst (c w)) (snd (c w)).

(** A postcondition that survives external calls made beforehand, and that
    holds of a panic raised after such calls. *)
Definition stable {A} (Q : World -> Res A -> World -> Prop) : Prop :=
  (forall w evs w1 r w2, steps w evs w1 -> Q w1 r w2 -> Q w r w2)
  /\ (forall w evs w1 msg, steps w evs w1 -> Q w (Panic msg) w1).

(** The failures of SendConnectionRequest, by the text that starts the
    message of the error returned. *)
Definition failure_kinds : list string :=
  [ "failed to check daily limit";
    "daily connection request limit reached";
    "failed to navigate to profile";
    "failed to wait for page load";
    "failed to click connect button";
    "failed to click send button" ].

Definition typed_failure (e : err) : Prop :=
  exists kind, In kind failure_kinds /\ String.prefix kind (Error e) = true.

(** What a run of SendConnectionRequest guarantees, for the send selectors
    [sels] of its package: a result other than nil leaves the database as it
    was; a nil result comes with a successful click on a send button; an
    error is one of the typed failures. *)
Definition send_post (sels : list string) (w : World) (r : Res error)
                     (w' : World) : Prop :=
  (r <> Val None -> db w' = db w)
  /\ (r = Val None ->
      exists evs sel, grows w evs w' /\ In sel sels /\ In (Click sel, ROk) evs)
  /\ (forall e, r = Val (Some e) -> typed_failure e).

(** What a click helper guarantees: it only performs external calls, and a
    nil result comes with a successful click on one of [sels]. *)
Definition click_post (sels : list string) (w : World) (r : Res error)
                      (w' : World) : Prop :=
  exists evs, steps w evs w'
              /\ (r = Val None ->
                  exists sel, In sel sels /\ In (Click sel, ROk) evs).

(** The keyboard events of a history: text insertions and key presses. *)
Definition is_keystroke (e : Event) : bool :=
  match fst e with
  | Input _ _ => true
  | KeyPress _ => true
  | _ => false
  end.

Definition keystrokes (tr : list Event) : list Call :=
  map fst (filter is_keystroke tr).

(** The content of a field after a sequence of keyboard events, as the list
    of the texts inserted: [Input] inserts its text, a press of Backspace
    deletes the last insertion. *)
Fixpoint replay (field : list string) (ks : list Call) : list string :=
  match ks with
  | [] => field
  | Input _ text :: ks' => replay (field ++ [text]) ks'
  | KeyPress Backspace :: ks' => replay (removelast field) ks'
  | _ :: ks' => replay field ks'
  end.

Definition committed (ks : list Call) : list string := replay [] ks.

(** The keyboard events of typing one rune [c]: either the rune alone, or a
    wrong rune [t], a press of Backspace, and the rune. *)
Definition keyBlock (el : Elem) (typo : option rune) (c : rune) : list Call :=
  match typo with
  | Some t => [Input el (string_of_rune t); KeyPress Backspace;
               Input el (string_of_rune c)]
  | None => [Input el (string_of_rune c)]
  end.

Fixpoint keyBlocks (el : Elem) (typos : list (option rune)) (cs : list rune)
  : list Call :=
  match typos, cs with
  | t :: typos', c :: cs' => keyBlock el t c ++ keyBlocks el typos' cs'
  | _, _ => []
  end.

(** The durations slept in a history. *)
Fixpoint sleeps (tr : list Event) : list Duration :=
  match tr with
  | [] => []
  | (Sleep d, _) :: tr' => d :: sleeps tr'
  | _ :: tr' => sleeps tr'
  end.

(** Each element is twice the one before it. *)
Fixpoint doubling (l : list Z) : Prop :=
  match l with
  | a :: ((b :: _) as l') => b = 2 * a /\ doubling l'
  | _ => True
  end.

Fixpoint doublingb (l : list Z) : bool :=
  match l with
  | a :: ((b :: _) as l') => (b =? 2 * a) && doublingb l'
  | _ => true
  end.

(** [Failed op a k w w']: starting in [w] with attempt number [a], the
    operation was run [k] times, failed each time, and after the failure of
    attempt [i] the cycle slept [backoff i]. *)
Inductive Failed (op : M error) (backoff : Z -> Duration)
  : Z -> nat -> error -> World -> error -> World -> Prop :=
| Failed_O : forall a last w, Failed op backoff a 0 last w last w
| Failed_S : forall a k last w e w1 last' w',
    op w = (Val (Some e), w1) ->
    Failed op backoff (a + 1) k (Some e) (after w1 (Sleep (backoff a))) last' w' ->
    Failed op backoff a (S k) last w last' w'.

(** How a run of retryWithBackoff ends, seen from the world [w1] in which the
    last invocation of the operation starts: that invocation succeeds and
    nil is returned; or it is attempt number [maxRetries], it fails, and its
    error is returned wrapped; or it panics. *)
Definition retry_outcome (op : M error) (maxRetries : Z) (attempt : Z)
                         (w1 : World) (result : Res error * World) : Prop :=
  (exists w', op w1 = (Val None, w') /\ result = (Val None, w'))
  \/ (attempt = maxRetries
      /\ exists e w',
           op w1 = (Val (Some e), w')
           /\ result = (Val (Some (Wrap ("operation failed after "
                                          ++ itoa maxRetries ++ " attempts")%string
                                         e)), w'))
  \/ (exists msg w', op w1 = (Panic msg, w') /\ result = (Panic msg, w')).

(** An operation that always fails, and calls nothing. *)
Definition always_fails : M error := ret (Some (Err "unavailable")).

(** The successful clicks on a send button of the messaging dialog. *)
Definition is_send_click (e : Event) : bool :=
  match e with
  | (Click el, ROk) => existsb (String.eqb el) messaging.sendSelectors
  | _ => false
  end.

Definition sent_count (tr : list Event) : nat :=
  List.length (filter is_send_click tr).

(** A message for [url] is recorded in the store. *)
Definition recorded (url : string) (d : DB) : Prop :=
  exists m, In m (messages d) /\ m_ProfileURL m = url.

(** [quiet c]: [c] always returns, only performs external calls, and none of
    them is a keyboard event. *)
Definition quiet {A} (c : M A) : Prop :=
  forall w, exists a evs,
    c w = (Val a, snd (c w)) /\ steps w evs (snd (c w)) /\ keystrokes evs = [].


(** A store keeps what it has: the messages recorded in [w] are recorded in
    [w'] as well. *)
Definition keeps_messages (w : World) (r : Res error) (w' : World) : Prop :=
  forall url, recorded url (db w) -> recorded url (db w').

(** *** Mouse and scroll events *)

(** The points to which the mouse was moved in a history. *)
Fixpoint moves (tr : list Event) : list stealth.Point :=
  match tr with
  | [] => []
  | (MouseMoved x y, _) :: tr' => {| stealth.X := x; stealth.Y := y |} :: moves tr'
  | _ :: tr' => moves tr'
  end.

(** The vertical amounts by which the page was scrolled in a history. *)
Fixpoint scrolls (tr : list Event) : list Z :=
  match tr with
  | [] => []
  | (PageEval (JsScrollBy dy), _) :: tr' => dy :: scrolls tr'
  | _ :: tr' => scrolls tr'
  end.

(** *** Business hours *)

(** The instant [t] falls on one of the work days, at an hour of
    [[startHour, endHour)]. *)
Definition inBusinessHours (startHour endHour : Z) (workDays : list string)
                           (t : Z) : bool :=
  stealth.isWorkDay workDays (weekdayString (Weekday t))
  && (HourOf t >=? startHour) && (HourOf t <? endHour).

(** Some entry of [workDays] is the name of a day of the week. *)
Definition hasWorkDay (workDays : list string) : bool :=
  existsb (fun k => stealth.isWorkDay workDays (weekdayString k)) (upto 7).

(** *** Text typed into a field *)

(** The text inserted by a sequence of keyboard events. *)
Fixpoint inserted (ks : list Call) : string :=
  match ks with
  | [] => EmptyString
  | Input _ text :: ks' => text ++ inserted ks'
  | _ :: ks' => inserted ks'
  end.

(** Every keyboard event is an insertion into the field [el]. *)
Definition typed_into (el : Elem) (ks : list Call) : Prop :=
  Forall (fun c => exists text, c = Input el text) ks.

(** All bytes of [s] are ASCII characters. *)
Fixpoint ascii_only (s : string) : bool :=
  match s with
  | EmptyString => true
  | String a s' => (byte_of a <? 128) && ascii_only s'
  end.

(** *** The store, read at a given time *)

(** The time that the next call of [time.Now] returns in [w]. *)
Definition reading (w : World) : Z :=
  match env w (trace w) Now with
  | RInt t => t
  | _ => 0
  end.

(** The times that the clock returned in a history. *)
Fixpoint readings (tr : list Event) : list Z :=
  match tr with
  | [] => []
  | (Now, RInt t) :: tr' => t :: readings tr'
  | (Now, _) :: tr' => 0 :: readings tr'
  | _ :: tr' => readings tr'
  end.


(** The connection requests that are not accepted. *)
Definition pending (d : DB) : list ConnectionRequest :=
  filter (fun r => negb (cr_Accepted r)) (connection_requests d).

(** The actions of a type with a timestamp from [t] on, and those of a day. *)
Definition actions_since (ty : string) (t : Z) (d : DB) : Z :=
  storage.countb (fun a => String.eqb (a_ActionType a) ty && (t <=? a_Timestamp a))
                 (actions d).

Definition actions_on (ty : string) (day : Z) (d : DB) : Z :=
  storage.countb (fun a => String.eqb (a_ActionType a) ty
                           && (storage.DATE (a_Timestamp a) =? day))
                 (actions d).


(** *** Worlds for examples *)

(** Rational stand-ins for the functions of package math. *)
Definition math0 : Math :=
  {| Sqrt := fun q => if Qle_bool 0 q
                      then Some (Z.sqrt (Qnum q) # Pos.sqrt (Qden q))
                      else None;
     Atan2 := fun _ _ => 0%Q;
     Cos := fun _ => 1%Q;
     Sin := fun _ => 0%Q;
     Pi := (355 # 113)%Q |}.

Definition emptyDB : DB :=
  {| connection_requests := []; messages := []; actions := [] |}.

Definition box0 : Box :=
  {| box_X := Some 100%Q; box_Y := Some 200%Q;
     box_Width := Some 80%Q; box_Height := Some 30%Q |}.

(** An environment in which every call succeeds and every draw is [z]. *)
Definition answers (z : Z) : Oracle :=
  fun _ c =>
    match c with
    | RngInt63 => RInt z
    | Now => RInt 1700000000
    | Has _ => RBool true
    | Shape _ => RShape [] (Some box0)
    | PageEval (JsValue _) => RStr "text"
    | SearchAndCollect => RProfiles []
    | _ => ROk
    end.

Definition world0 : World :=
  {| env := answers 0; math := math0; trace := []; db := emptyDB |}.

(** The same environment, with the statements of the storage functions named
    in [failing] failing. *)
Definition sql_fails (failing : list string) (o : Oracle) : Oracle :=
  fun tr c =>
    match c with
    | Sql fn => if existsb (String.eqb fn) failing then RErr "database is locked"
                else o tr c
    | _ => o tr c
    end.

(** The same environment, with the lookups of the selectors in [missing]
    failing. *)
Definition not_found (missing : list string) (o : Oracle) : Oracle :=
  fun tr c =>
    match c with
    | Element sel => if existsb (String.eqb sel) missing
                     then RErr "element not found" else o tr c
    | _ => o tr c
    end.

(** The same environment, with no element on the page. *)
Definition no_elements (o : Oracle) : Oracle :=
  fun tr c =>
    match c with
    | Element _ => RErr "element not found"
    | Has _ => RBool false
    | _ => o tr c
    end.

(** The same environment, with the navigation to [url] failing. *)
Definition unreachable (url : string) (o : Oracle) : Oracle :=
  fun tr c =>
    match c with
    | Navigate u => if String.eqb u url then RErr "net::ERR_FAILED" else o tr c
    | _ => o tr c
    end.

Definition world_with (o : Oracle) (d : DB) : World :=
  {| env := o; math := math0; trace := []; db := d |}.

(** The scenario of the specification: the daily limit is 5 and four
    requests were recorded today (and one the day before); the check admits
    with one request remaining; once a fifth is recorded it refuses. *)
Definition four_today : DB :=
  {| connection_requests :=
       map (fun t => {| cr_ProfileURL := "https://www.linkedin.com/in/someone";
                        cr_Note := EmptyString; cr_SentAt := t; cr_Accepted := false |})
           [1699900000; 1699999000; 1699999100; 1699999200; 1699999300];
     messages := []; actions := [] |}.

Definition limit5 : config.Config :=
  {| config.Connection :=
       {| config.DailyLimit := 5; config.NoteTemplate := "Hi {{name}}";
          config.MinDelaySeconds := 30; config.MaxDelaySeconds := 60;
          config.PersonalizationRate := 0.5 |};
     config.Messaging :=
       {| config.FollowUpTemplate := "Thanks for connecting, {{name}}!";
          config.DelayAfterAcceptanceHours := 24;
          config.MsgMinDelaySeconds := 30; config.MsgMaxDelaySeconds := 60 |} |}.

Definition someone : string := "https://www.linkedin.com/in/someone".

(** The run of [c] in [w] returns the error [e] and leaves the database as
    it was. *)
Definition fails_clean (c : M error) (w : World) (e : err) : Prop :=
  fst (c w) = Val (Some e) /\ db (snd (c w)) = db w.

(** The run of [c] in [w] returns nil, having added one connection request
    and one action to the database. *)
Definition sends_and_records (c : M error) (w : World) : Prop :=
  fst (c w) = Val None
  /\ List.length (connection_requests (db (snd (c w))))
     = S (List.length (connection_requests (db w)))
  /\ List.length (actions (db (snd (c w)))) = S (List.length (actions (db w))).

(** A store in which a follow-up message to [someone] is recorded. *)
Definition messaged : DB :=
  {| connection_requests := [];
     messages := [{| m_ProfileURL := someone; m_Message := "Thanks for connecting!";
                     m_SentAt := 1699000000 |}];
     actions := [] |}.


(** A table of typos is well formed: its keys are lower-case letters, and
    each has between one and six typos, all lower-case letters other than
    the key. *)
Definition neighbours_ok (m : list (rune * list rune)) : bool :=
  forallb (fun kv =>
             (97 <=? fst kv) && (fst kv <=? 122)
             && (0 <? Z.of_nat (List.length (snd kv)))
             && (Z.of_nat (List.length (snd kv)) <=? 6)
             && forallb (fun x => (97 <=? x) && (x <=? 122) && negb (x =? fst kv))
                        (snd kv)) m.

Ltac pow2 :=
  change (2 ^ 64) with 18446744073709551616 in *;
  change (2 ^ 63) with 9223372036854775808 in *;
  change (2 ^ 53) with 9007199254740992 in *.

(** *** Follow-up messages and the store *)

(** What a run of SendMessage for [url] and [message] guarantees: either the
    database is as it was, or the run returned nil, contains a successful
    click on a send button, left the connection requests alone and added no
    message but [message] for [url]. *)
Definition message_post (url message : string) (w : World) (r : Res error)
                        (w' : World) : Prop :=
  db w' = db w
  \/ (r = Val None
      /\ (exists evs sel,
             grows w evs w' /\ In sel messaging.sendSelectors
             /\ In (Click sel, ROk) evs)
      /\ connection_requests (db w') = connection_requests (db w)
      /\ (forall m, In m (messages (db w')) ->
                    In m (messages (db w))
                    \/ (m_ProfileURL m = url /\ m_Message m = message))).

(** What the follow-up of new connections may do to the store, from [d] to
    [d']: no request is added or removed, a pending request stays pending
    unless its profile is one of [urls], and every message added is [message]
    for one of [urls]. *)
Definition follow_up_only (message : string) (urls : list string)
                          (d d' : DB) : Prop :=
  map cr_ProfileURL (connection_requests d')
  = map cr_ProfileURL (connection_requests d)
  /\ (forall r, In r (pending d) -> ~ In (cr_ProfileURL r) urls ->
                In r (pending d'))
  /\ (forall m, In m (messages d') ->
                In m (messages d)
                \/ (m_Message m = message /\ In (m_ProfileURL m) urls)).

(** *** Case folding and substrings *)

(** An ASCII upper-case letter becomes its lower-case letter; any other
    byte stays. *)
Definition lower_byte (a : ascii) : ascii :=
  if (65 <=? byte_of a) && (byte_of a <=? 90) then ascii_of (byte_of a + 32)
  else a.

Fixpoint lower_ascii (s : string) : string :=
  match s with
  | EmptyString => EmptyString
  | String a s' => String (lower_byte a) (lower_ascii s')
  end.

(** [sub] occurs in [s]. *)
Definition occurs (sub s : string) : Prop :=
  exists pre post, s = (pre ++ sub ++ post)%string.

(** *** Configurations *)

(** The settings [s] with the business hours [[a, b)]. *)
Definition with_hours (s : config.Settings) (a b : Z) : config.Settings :=
  {| config.LinkedIn := config.LinkedIn s;
     config.Search := config.Search s;
     config.Stealth :=
       {| config.TypingSpeedMs := config.TypingSpeedMs (config.Stealth s);
          config.BusinessHoursOnly := config.BusinessHoursOnly (config.Stealth s);
          config.StealthBusinessHours := {| config.Start := a; config.End_ := b |};
          config.WorkDays := config.WorkDays (config.Stealth s) |};
     config.Logging := config.Logging s |}.

(** Sample settings: office hours on the five work days. *)
Definition office_settings : config.Settings :=
  {| config.LinkedIn :=
       {| config.Email := "user@example.com"; config.Password := "secret" |};
     config.Search := {| config.MaxResults := 50; config.MaxPages := 5 |};
     config.Stealth :=
       {| config.TypingSpeedMs := 120;
          config.BusinessHoursOnly := true;
          config.StealthBusinessHours := {| config.Start := 9; config.End_ := 17 |};
          config.WorkDays :=
            ["Monday"; "Tuesday"; "Wednesday"; "Thursday"; "Friday"] |};
     config.Logging := {| config.Level := "info" |} |}.

(** Two profiles as a search returns them, the second without a name. *)
Definition two_profiles : list main.Profile :=
  [ {| main.Name := "Ada"; main.URL := someone |};
    {| main.Name := EmptyString;
       main.URL := "https://www.linkedin.com/in/other" |} ].

(** *** Templates *)

(** No byte of [s] is an opening brace. *)
Fixpoint brace_free (s : string) : bool :=
  match s with
  | EmptyString => true
  | String a s' => negb (Ascii.eqb a "{"%char) && brace_free s'
  end.

(* ------------------------------------------------------------------ *)
(** ** Notions used to state the properties of the curve in binary64 *)

(** Neither an infinity nor a NaN. *)
Definition fin (x : spec_float) : bool :=
  match x with S754_zero _ | S754_finite _ _ _ => true | _ => false end.

(** Zero, or of absolute value below [2^k]. *)
Definition mag_le (k : Z) (x : spec_float) : bool :=
  match x with
  | S754_zero _ => true
  | S754_finite _ m e => Zpos (digits2_pos m) + e <=? k
  | _ => false
  end.

Definition zero64 (x : float) : bool :=
  match Prim2SF x with S754_zero _ => true | _ => false end.
Definition finite64 (x : float) : bool := fin (Prim2SF x).
Definition below (k : Z) (x : float) : bool := mag_le k (Prim2SF x).

(** Go's [==] on float64, up to the sign of zero made explicit:
    the same number, or two zeros. *)
Definition eqz (x y : float) : Prop :=
  x = y \/ (zero64 x = true /\ zero64 y = true).


(** Go's [==] on both coordinates. *)
Definition samePoint64 (p q : stealth64.Point) : Prop :=
  (stealth64.X p =? stealth64.X q)%float = true
  /\ (stealth64.Y p =? stealth64.Y q)%float = true.

(** What is assumed of the functions of the [math] package that are not
    computed here: the special case [Atan2(+0, +0) = +0] and that the cosine
    and the sine of a number are numbers. *)
Record MathLaws (m : stealth64.Math) : Prop := {
  Atan2_zero : stealth64.Atan2 m 0 0 = 0%float;
  Cos_finite : forall x, finite64 x = true -> finite64 (stealth64.Cos m x) = true;
  Sin_finite : forall x, finite64 x = true -> finite64 (stealth64.Sin m x) = true
}.

(** A draw of [rng.Float64()]: a number of the interval [0, 1). *)
Definition unitDraw (r : float) : Prop :=
  (0 <=? r)%float = true /\ (r <? 1)%float = true.

(** A coordinate of absolute value at most [2^1000]. *)
Definition moderate (x : float) : Prop := (abs x <=? 0x1p+1000)%float = true.

Definition moderatePoint (p : stealth64.Point) : Prop :=
  moderate (stealth64.X p) /\ moderate (stealth64.Y p).



(** A table of the values of [math.Atan2], [math.Cos] and [math.Sin] at the
    arguments met when the start and the end point coincide (elsewhere a
    fixed value stands for the function). *)
Definition tableMath : stealth64.Math :=
  {| stealth64.Atan2 := fun y x => if (zero64 y && zero64 x)%bool then 0%float else nan;
     stealth64.Cos := fun x => if (x =? stealth64.Pi / 2)%float
                               then 0x1.1a62633145c07p-54%float else 1%float;
     stealth64.Sin := fun x => if (x =? stealth64.Pi / 2)%float then 1%float else 0%float |}.

Definition pt (x y : float) : stealth64.Point :=
  {| stealth64.X := x; stealth64.Y := y |}.

(* ================================================================== *)
(** * Properties *)

(* ------------------------------------------------------------------ *)
(** ** Arithmetic of machine integers *)

Lemma wrap64_id (z : Z) : int64 z -> wrap64 z = z.
Proof.
  unfold int64, wrap64, min_int64, max_int64. pow2. intros H.
  rewrite Z.mod_small; lia.
Qed.

Lemma wrap64_int64 (z : Z) : int64 (wrap64 z).
Proof.
  unfold int64, wrap64, min_int64, max_int64. pow2.
  pose proof (Z.mod_pos_bound (z + 9223372036854775808) 18446744073709551616).
  lia.
Qed.

(* ------------------------------------------------------------------ *)
(** ** The random generator *)

Lemma Int63_run (w : World) :
  exists r, rand.Int63 w = (Val r, after w RngInt63) /\ 0 <= r < 2 ^ 63.
Proof.
  unfold rand.Int63, bind, call, ret, after. simpl.
  destruct (env w (trace w) RngInt63); eexists; (split; [reflexivity|]);
    try (pow2; lia).
  apply Z.mod_pos_bound. pow2. lia.
Qed.

Lemma Int63n_run (w : World) (n : Z) :
  0 < n ->
  exists r, rand.Int63n n w = (Val r, after w RngInt63) /\ 0 <= r < n.
Proof.
  intros Hn. unfold rand.Int63n.
  destruct (Z.leb_spec n 0); [lia|].
  unfold bind. destruct (Int63_run w) as (r & -> & _).
  eexists. split; [reflexivity|]. apply Z.mod_pos_bound. lia.
Qed.

Lemma Int63n_panics (w : World) (n : Z) :
  n <= 0 -> rand.Int63n n w = (Panic "invalid argument to Int63n", w).
Proof.
  intros Hn. unfold rand.Int63n.
  destruct (Z.leb_spec n 0); [reflexivity|lia].
Qed.

Lemma Intn_run (w : World) (n : Z) :
  0 < n ->
  exists r, rand.Intn n w = (Val r, after w RngInt63) /\ 0 <= r < n.
Proof.
  intros Hn. unfold rand.Intn.
  destruct (Z.leb_spec n 0); [lia|].
  unfold bind. destruct (Int63_run w) as (r & -> & _).
  eexists. split; [reflexivity|]. apply Z.mod_pos_bound. lia.
Qed.

Lemma Float64_run (w : World) :
  exists q, rand.Float64 w = (Val (Some q), after w RngInt63).
Proof.
  unfold rand.Float64, bind. destruct (Int63_run w) as (r & -> & _).
  eexists. reflexivity.
Qed.

(* ------------------------------------------------------------------ *)
(** ** Timing model *)

Lemma RandomDelay_degenerate (w : World) (min max : Duration) :
  min >= max -> stealth.RandomDelay min max w = (Val min, w).
Proof.
  intros H. unfold stealth.RandomDelay.
  destruct (Z.geb_spec min max); [reflexivity|lia].
Qed.

Lemma RandomDelay_run (w : World) (min max : Duration) :
  int64 min -> int64 max -> min < max -> max - min <= max_int64 ->
  exists d, stealth.RandomDelay min max w = (Val d, after w RngInt63)
            /\ min <= d < max.
Proof.
  intros Hmin Hmax Hlt Hfit. unfold stealth.RandomDelay.
  destruct (Z.geb_spec min max); [lia|].
  assert (Hd : wrap64 (max - min) = max - min).
  { apply wrap64_id. unfold int64, min_int64, max_int64 in *. pow2. lia. }
  rewrite Hd. unfold bind.
  destruct (Int63n_run w (max - min)) as (r & -> & Hr); [lia|].
  exists (min + r). unfold ret. rewrite wrap64_id.
  - split; [reflexivity|lia].
  - unfold int64, min_int64, max_int64 in *. lia.
Qed.

(* ------------------------------------------------------------------ *)
(** ** Reasoning about runs *)

Lemma steps_refl (w : World) : steps w [] w.
Proof. unfold steps. rewrite app_nil_r. auto. Qed.

Lemma steps_trans (w w1 w2 : World) (e1 e2 : list Event) :
  steps w e1 w1 -> steps w1 e2 w2 -> steps w (e1 ++ e2) w2.
Proof.
  unfold steps. intros (E1 & M1 & D1 & T1) (E2 & M2 & D2 & T2).
  rewrite E2, M2, D2, T2, E1, M1, D1, T1, app_assoc. auto.
Qed.

Lemma steps_after (w : World) (c : Call) :
  steps w [(c, env w (trace w) c)] (after w c).
Proof. unfold steps, after. simpl. auto. Qed.

Lemma steps_grows (w w' : World) (evs : list Event) :
  steps w evs w' -> grows w evs w'.
Proof. unfold steps, grows. tauto. Qed.

Lemma grows_trans (w w1 w2 : World) (e1 e2 : list Event) :
  grows w e1 w1 -> grows w1 e2 w2 -> grows w (e1 ++ e2) w2.
Proof.
  unfold grows. intros (E1 & M1 & T1) (E2 & M2 & T2).
  rewrite E2, M2, T2, E1, M1, T1, app_assoc. auto.
Qed.

Lemma bind_run {A B} (c : M A) (k : A -> M B) (w : World) :
  bind c k w = match c w with
               | (Val a, w1) => k a w1
               | (Panic msg, w1) => (Panic msg, w1)
               end.
Proof. reflexivity. Qed.

Lemma io_ret {A} (a : A) : io (ret a).
Proof. intros w. exists []. apply steps_refl. Qed.

Lemma io_panic {A} (msg : string) : io (@panic A msg).
Proof. intros w. exists []. apply steps_refl. Qed.

Lemma io_call (c : Call) : io (call c).
Proof. intros w. eexists. apply steps_after. Qed.

Lemma io_get_db : io get_db.
Proof. intros w. exists []. apply steps_refl. Qed.

Lemma io_get_math : io get_math.
Proof. intros w. exists []. apply steps_refl. Qed.

Lemma io_bind {A B} (c : M A) (k : A -> M B) :
  io c -> (forall a, io (k a)) -> io (bind c k).
Proof.
  intros Hc Hk w. rewrite bind_run. destruct (Hc w) as (e1 & S1).
  destruct (c w) as [[a|msg] w1]; simpl in S1.
  - destruct (Hk a w1) as (e2 & S2). exists (e1 ++ e2).
    eapply steps_trans; eassumption.
  - exists e1. exact S1.
Qed.

Lemma io_forM {A} (l : list A) (body : A -> M unit) :
  (forall x, io (body x)) -> io (forM l body).
Proof.
  intros Hb. induction l as [|x l IH]; simpl.
  - apply io_ret.
  - apply io_bind; [apply Hb|intros _; exact IH].
Qed.

Lemma io_forE {A} (l : list A) (body : A -> M error) :
  (forall x, io (body x)) -> io (forE l body).
Proof.
  intros Hb. induction l as [|x l IH]; simpl.
  - apply io_ret.
  - apply io_bind; [apply Hb|]. intros [e|]; [apply io_ret|exact IH].
Qed.

Create HintDb io.
#[export] Hint Resolve io_ret io_panic io_call io_get_db io_get_math : io.

(** One step of a proof that a function only performs external calls. *)
Ltac io_step :=
  lazymatch goal with
  | |- io (ret _) => apply io_ret
  | |- io (panic _) => apply io_panic
  | |- io (call _) => apply io_call
  | |- io (bind _ _) => apply io_bind; [|intro]
  | |- io (forM _ _) => apply io_forM; intro
  | |- io (forE _ _) => apply io_forE; intro
  | |- io (match ?x with _ => _ end) => destruct x
  | |- io _ => solve [auto with io]
  end.

Ltac io_auto := cbv zeta; repeat io_step.

Lemma io_call_err (c : Call) : io (call_err c).
Proof. unfold call_err. io_auto. Qed.
#[export] Hint Resolve io_call_err : io.

Lemma io_sleep (d : Duration) : io (sleep d).
Proof. unfold sleep. io_auto. Qed.
#[export] Hint Resolve io_sleep : io.

Lemma io_orWrap (msg : string) (c k : M error) :
  io c -> io k -> io (orWrap msg c k).
Proof. intros Hc Hk. unfold orWrap. io_auto; assumption. Qed.

Lemma io_orFail (msg : string) (c k : M error) :
  io c -> io k -> io (orFail msg c k).
Proof. intros Hc Hk. unfold orFail. io_auto; assumption. Qed.

Lemma io_orReturn (c k : M error) : io c -> io k -> io (orReturn c k).
Proof. intros Hc Hk. unfold orReturn. io_auto; assumption. Qed.

Ltac io_guard :=
  lazymatch goal with
  | |- io (orWrap _ _ _) => apply io_orWrap
  | |- io (orFail _ _ _) => apply io_orFail
  | |- io (orReturn _ _) => apply io_orReturn
  | |- _ => io_step
  end.

Ltac io_tac := cbv zeta; repeat io_guard.

Lemma io_firstElement (init : option Elem * error) (sels : list string) :
  io (firstElement init sels).
Proof. revert init. induction sels as [|s l IH]; intros init; simpl; io_tac. Qed.

Lemma io_findElement (sels : list string) : io (findElement sels).
Proof. induction sels as [|s l IH]; simpl; io_tac. Qed.

Lemma io_pageHas (sel : string) : io (pageHas sel).
Proof. unfold pageHas. io_tac. Qed.
#[export] Hint Resolve io_firstElement io_findElement io_pageHas : io.

Lemma io_anyHas (sels : list string) : io (anyHas sels).
Proof. induction sels as [|s l IH]; simpl; io_tac. Qed.

Lemma io_deref (el : option Elem) : io (deref el).
Proof. unfold deref. io_tac. Qed.

Lemma io_time_Now : io time_Now.
Proof. unfold time_Now. io_tac. Qed.
#[export] Hint Resolve io_anyHas io_deref io_time_Now : io.

Lemma io_time_Since (t : Z) : io (time_Since t).
Proof. unfold time_Since. io_tac. Qed.

Lemma io_Int63 : io rand.Int63.
Proof. unfold rand.Int63. io_tac. Qed.
#[export] Hint Resolve io_time_Since io_Int63 : io.

Lemma io_Int63n (n : Z) : io (rand.Int63n n).
Proof. unfold rand.Int63n. io_tac. Qed.

Lemma io_Intn (n : Z) : io (rand.Intn n).
Proof. unfold rand.Intn. io_tac. Qed.

Lemma io_Float64 : io rand.Float64.
Proof. unfold rand.Float64. io_tac. Qed.
#[export] Hint Resolve io_Int63n io_Intn io_Float64 : io.

(* ------------------------------------------------------------------ *)
(** ** Functions that only drive the browser, the generator and the clock *)

Lemma io_stealth_RandomDelay min max : io (stealth.RandomDelay min max).
Proof. unfold stealth.RandomDelay. io_tac. Qed.
#[export] Hint Resolve io_stealth_RandomDelay : io.

Lemma io_stealth_ActionDelay : io stealth.ActionDelay.
Proof. unfold stealth.ActionDelay. io_tac. Qed.
#[export] Hint Resolve io_stealth_ActionDelay : io.

Lemma io_stealth_ShortDelay : io stealth.ShortDelay.
Proof. unfold stealth.ShortDelay. io_tac. Qed.
#[export] Hint Resolve io_stealth_ShortDelay : io.

Lemma io_stealth_CubicBezierCurve s e c1 c2 n : io (stealth.CubicBezierCurve s e c1 c2 n).
Proof. unfold stealth.CubicBezierCurve. io_tac. Qed.
#[export] Hint Resolve io_stealth_CubicBezierCurve : io.

Lemma io_stealth_generateControlPoints s e : io (stealth.generateControlPoints s e).
Proof. unfold stealth.generateControlPoints. io_tac. Qed.
#[export] Hint Resolve io_stealth_generateControlPoints : io.

Lemma io_stealth_moveAlong n ip : io (stealth.moveAlong n ip).
Proof. unfold stealth.moveAlong. io_tac. Qed.
#[export] Hint Resolve io_stealth_moveAlong : io.

Lemma io_stealth_MoveMouse x y : io (stealth.MoveMouse x y).
Proof. unfold stealth.MoveMouse. io_tac. Qed.
#[export] Hint Resolve io_stealth_MoveMouse : io.

Lemma io_stealth_ScrollPage direction : io (stealth.ScrollPage direction).
Proof. unfold stealth.ScrollPage. io_tac. Qed.
#[export] Hint Resolve io_stealth_ScrollPage : io.

Lemma io_stealth_ScrollFeed n : io (stealth.ScrollFeed n).
Proof. unfold stealth.ScrollFeed. io_tac. Qed.
#[export] Hint Resolve io_stealth_ScrollFeed : io.

Lemma io_stealth_randomTypo c : io (stealth.randomTypo c).
Proof. unfold stealth.randomTypo. io_tac. Qed.
#[export] Hint Resolve io_stealth_randomTypo : io.

Lemma io_stealth_calculateKeystrokeDelay p n : io (stealth.calculateKeystrokeDelay p n).
Proof. unfold stealth.calculateKeystrokeDelay. io_tac. Qed.
#[export] Hint Resolve io_stealth_calculateKeystrokeDelay : io.

Lemma io_stealth_typeChar el n ic : io (stealth.typeChar el n ic).
Proof. unfold stealth.typeChar. io_tac. Qed.
#[export] Hint Resolve io_stealth_typeChar : io.

Lemma io_stealth_TypeText sel text : io (stealth.TypeText sel text).
Proof. unfold stealth.TypeText. io_tac. Qed.
#[export] Hint Resolve io_stealth_TypeText : io.

Lemma io_stealth_GetCooldownDuration n : io (stealth.GetCooldownDuration n).
Proof. unfold stealth.GetCooldownDuration. io_tac. Qed.
#[export] Hint Resolve io_stealth_GetCooldownDuration : io.

Lemma io_stealth_ShouldTakeBreak n : io (stealth.ShouldTakeBreak n).
Proof. unfold stealth.ShouldTakeBreak. io_tac. Qed.
#[export] Hint Resolve io_stealth_ShouldTakeBreak : io.

Lemma io_stealth_GetBreakDuration : io stealth.GetBreakDuration.
Proof. unfold stealth.GetBreakDuration. io_tac. Qed.
#[export] Hint Resolve io_stealth_GetBreakDuration : io.

Lemma io_connection_randomTypo c : io (connection.randomTypo c).
Proof. unfold connection.randomTypo. io_tac. Qed.
#[export] Hint Resolve io_connection_randomTypo : io.

Lemma io_connection_calculateKeystrokeDelay p n : io (connection.calculateKeystrokeDelay p n).
Proof. unfold connection.calculateKeystrokeDelay. io_tac. Qed.
#[export] Hint Resolve io_connection_calculateKeystrokeDelay : io.

Lemma io_connection_detectConnectFlow : io connection.detectConnectFlow.
Proof. unfold connection.detectConnectFlow. io_tac. Qed.
#[export] Hint Resolve io_connection_detectConnectFlow : io.

Lemma io_connection_clickDirectConnect btn : io (connection.clickDirectConnect btn).
Proof. unfold connection.clickDirectConnect. io_tac. Qed.
#[export] Hint Resolve io_connection_clickDirectConnect : io.

Lemma io_connection_clickConnectFromMoreMenu btn : io (connection.clickConnectFromMoreMenu btn).
Proof. unfold connection.clickConnectFromMoreMenu. io_tac. Qed.
#[export] Hint Resolve io_connection_clickConnectFromMoreMenu : io.

Lemma io_connection_ClickConnectButton : io connection.ClickConnectButton.
Proof. unfold connection.ClickConnectButton. io_tac. Qed.
#[export] Hint Resolve io_connection_ClickConnectButton : io.

Lemma io_connection_hasAddNoteOption : io connection.hasAddNoteOption.
Proof. unfold connection.hasAddNoteOption. io_tac. Qed.
#[export] Hint Resolve io_connection_hasAddNoteOption : io.

Lemma io_connection_clickAddNoteButton : io connection.clickAddNoteButton.
Proof. unfold connection.clickAddNoteButton. io_tac. Qed.
#[export] Hint Resolve io_connection_clickAddNoteButton : io.

Lemma io_connection_typeChar el n jc : io (connection.typeChar el n jc).
Proof. unfold connection.typeChar. io_tac. Qed.
#[export] Hint Resolve io_connection_typeChar : io.

Lemma io_connection_typeWord el n iw : io (connection.typeWord el n iw).
Proof. unfold connection.typeWord. io_tac. Qed.
#[export] Hint Resolve io_connection_typeWord : io.

Lemma io_connection_typeNote el note : io (connection.typeNote el note).
Proof. unfold connection.typeNote. io_tac. Qed.
#[export] Hint Resolve io_connection_typeNote : io.

Lemma io_connection_TypePersonalizedNote note : io (connection.TypePersonalizedNote note).
Proof. unfold connection.TypePersonalizedNote. io_tac. Qed.
#[export] Hint Resolve io_connection_TypePersonalizedNote : io.

Lemma io_connection_clickSendButton : io connection.clickSendButton.
Proof. unfold connection.clickSendButton. io_tac. Qed.
#[export] Hint Resolve io_connection_clickSendButton : io.

Lemma io_connection_ShouldAddNote cfg : io (connection.ShouldAddNote cfg).
Proof. unfold connection.ShouldAddNote. io_tac. Qed.
#[export] Hint Resolve io_connection_ShouldAddNote : io.

Lemma io_connection_rev_detectConnectFlow : io connection_rev.detectConnectFlow.
Proof. unfold connection_rev.detectConnectFlow. io_tac. Qed.
#[export] Hint Resolve io_connection_rev_detectConnectFlow : io.

Lemma io_connection_rev_removeOverlayBlockers : io connection_rev.removeOverlayBlockers.
Proof. unfold connection_rev.removeOverlayBlockers. io_tac. Qed.
#[export] Hint Resolve io_connection_rev_removeOverlayBlockers : io.

Lemma io_connection_rev_verifyConnectDialogAppeared : io connection_rev.verifyConnectDialogAppeared.
Proof. unfold connection_rev.verifyConnectDialogAppeared. io_tac. Qed.
#[export] Hint Resolve io_connection_rev_verifyConnectDialogAppeared : io.

Lemma io_connection_rev_index q i : io (connection_rev.index q i).
Proof. unfold connection_rev.index. io_tac. Qed.
#[export] Hint Resolve io_connection_rev_index : io.

Lemma io_connection_rev_elementShape btn : io (connection_rev.elementShape btn).
Proof. unfold connection_rev.elementShape. io_tac. Qed.
#[export] Hint Resolve io_connection_rev_elementShape : io.

Lemma io_connection_rev_clickByCoordinates btn : io (connection_rev.clickByCoordinates btn).
Proof. unfold connection_rev.clickByCoordinates. io_tac. Qed.
#[export] Hint Resolve io_connection_rev_clickByCoordinates : io.

Lemma io_connection_rev_clickDirectConnect btn : io (connection_rev.clickDirectConnect btn).
Proof. unfold connection_rev.clickDirectConnect. io_tac. Qed.
#[export] Hint Resolve io_connection_rev_clickDirectConnect : io.

Lemma io_connection_rev_clickConnectFromMoreMenu btn : io (connection_rev.clickConnectFromMoreMenu btn).
Proof. unfold connection_rev.clickConnectFromMoreMenu. io_tac. Qed.
#[export] Hint Resolve io_connection_rev_clickConnectFromMoreMenu : io.

Lemma io_connection_rev_ClickConnectButton : io connection_rev.ClickConnectButton.
Proof. unfold connection_rev.ClickConnectButton. io_tac. Qed.
#[export] Hint Resolve io_connection_rev_ClickConnectButton : io.

Lemma io_connection_rev_hasAddNoteOption : io connection_rev.hasAddNoteOption.
Proof. unfold connection_rev.hasAddNoteOption. io_tac. Qed.
#[export] Hint Resolve io_connection_rev_hasAddNoteOption : io.

Lemma io_connection_rev_clickAddNoteButton : io connection_rev.clickAddNoteButton.
Proof. unfold connection_rev.clickAddNoteButton. io_tac. Qed.
#[export] Hint Resolve io_connection_rev_clickAddNoteButton : io.

Lemma io_connection_rev_fieldValue el : io (connection_rev.fieldValue el).
Proof. unfold connection_rev.fieldValue. io_tac. Qed.
#[export] Hint Resolve io_connection_rev_fieldValue : io.

Lemma io_connection_rev_TypePersonalizedNote note : io (connection_rev.TypePersonalizedNote note).
Proof. unfold connection_rev.TypePersonalizedNote. io_tac. Qed.
#[export] Hint Resolve io_connection_rev_TypePersonalizedNote : io.

Lemma io_connection_rev_clickSendButton : io connection_rev.clickSendButton.
Proof. unfold connection_rev.clickSendButton. io_tac. Qed.
#[export] Hint Resolve io_connection_rev_clickSendButton : io.

Lemma io_connection_rev_dismissVerificationPrompt : io connection_rev.dismissVerificationPrompt.
Proof. unfold connection_rev.dismissVerificationPrompt. io_tac. Qed.
#[export] Hint Resolve io_connection_rev_dismissVerificationPrompt : io.

Lemma io_connection_rev_ShouldAddNote cfg : io (connection_rev.ShouldAddNote cfg).
Proof. unfold connection_rev.ShouldAddNote. io_tac. Qed.
#[export] Hint Resolve io_connection_rev_ShouldAddNote : io.

Lemma io_messaging_elementBox el : io (messaging.elementBox el).
Proof. unfold messaging.elementBox. io_tac. Qed.
#[export] Hint Resolve io_messaging_elementBox : io.

Lemma io_messaging_clickMessageButton : io messaging.clickMessageButton.
Proof. unfold messaging.clickMessageButton. io_tac. Qed.
#[export] Hint Resolve io_messaging_clickMessageButton : io.

Lemma io_messaging_typeChar el c : io (messaging.typeChar el c).
Proof. unfold messaging.typeChar. io_tac. Qed.
#[export] Hint Resolve io_messaging_typeChar : io.

Lemma io_messaging_typeWord el n iw : io (messaging.typeWord el n iw).
Proof. unfold messaging.typeWord. io_tac. Qed.
#[export] Hint Resolve io_messaging_typeWord : io.

Lemma io_messaging_typeMessage message : io (messaging.typeMessage message).
Proof. unfold messaging.typeMessage. io_tac. Qed.
#[export] Hint Resolve io_messaging_typeMessage : io.

Lemma io_messaging_clickSendMessageButton : io messaging.clickSendMessageButton.
Proof. unfold messaging.clickSendMessageButton. io_tac. Qed.
#[export] Hint Resolve io_messaging_clickSendMessageButton : io.

Lemma io_main_SearchAndCollect : io main.SearchAndCollect.
Proof. unfold main.SearchAndCollect. io_tac. Qed.
#[export] Hint Resolve io_main_SearchAndCollect : io.

(* ------------------------------------------------------------------ *)
(** ** Composition of guarantees *)

Lemma sat_ret {A} (a : A) (Q : World -> Res A -> World -> Prop) :
  (forall w, Q w (Val a) w) -> sat (ret a) Q.
Proof. intros H w. apply H. Qed.

Lemma sat_bind_io {A B} (c : M A) (k : A -> M B)
                  (Q : World -> Res B -> World -> Prop) :
  stable Q -> io c -> (forall a, sat (k a) Q) -> sat (bind c k) Q.
Proof.
  intros (Hpre & Hpanic) Hc Hk w. rewrite bind_run.
  destruct (Hc w) as (evs & S).
  destruct (c w) as [[a|msg] w1]; simpl in S.
  - eapply Hpre; [exact S|]. apply Hk.
  - simpl. eapply Hpanic. exact S.
Qed.

Lemma sat_orWrap (msg : string) (c k : M error)
                 (Q : World -> Res error -> World -> Prop) :
  stable Q -> io c ->
  (forall w e, Q w (Val (Some (Wrap msg e))) w) ->
  sat k Q -> sat (orWrap msg c k) Q.
Proof.
  intros HQ Hc Herr Hk. unfold orWrap. apply sat_bind_io; [exact HQ|exact Hc|].
  intros [e|]; [apply sat_ret; intros w; apply Herr | exact Hk].
Qed.


Lemma call_err_run (c : Call) (w : World) :
  call_err c w =
    (Val match env w (trace w) c with
         | ROk => None
         | RErr e => Some (Err e)
         | _ => Some (Err "unexpected answer")
         end, after w c).
Proof. reflexivity. Qed.

(** The selector loop ends with the initial values (on an empty list), with
    an element found by one of the selectors, or with the error of the last
    lookup. *)
Lemma firstElement_run (sels : list string) :
  forall (init : option Elem * error) (w : World),
  exists el e evs,
    firstElement init sels w = (Val (el, e), snd (firstElement init sels w))
    /\ steps w evs (snd (firstElement init sels w))
    /\ (((el, e) = init /\ sels = [])
        \/ (exists sel, In sel sels /\ el = Some sel /\ e = None
                        /\ In (Element sel, ROk) evs)
        \/ (el = None /\ exists x, e = Some x)).
Proof.
  induction sels as [|s l IH]; intros init w.
  - destruct init as [el e]. exists el, e, []. simpl.
    split; [reflexivity|]. split; [apply steps_refl|]. left. auto.
  - simpl. rewrite bind_run, call_err_run.
    destruct (env w (trace w) (Element s)) eqn:E;
      try (destruct (IH (None, Some (Err "unexpected answer")) (after w (Element s)))
             as (el & e & evs & Hrun & S & Hcase)).
    1: { exists (Some s), None, [(Element s, ROk)]. simpl.
         split; [reflexivity|]. split; [rewrite <- E; apply steps_after|].
         right. left. exists s. rewrite <- E. simpl. auto. }
    1: { destruct (IH (None, Some (Err e)) (after w (Element s)))
           as (el & e0 & evs & Hrun & S & Hcase).
         exists el, e0, ((Element s, env w (trace w) (Element s)) :: evs).
         split; [exact Hrun|]. split.
         { apply (steps_trans _ _ _ [_] evs (steps_after w (Element s)) S). }
         destruct Hcase as [(Hi & ->) | [(sel & Hin & -> & -> & Hev) | Hc]].
         - right. right. inversion Hi. split; [reflexivity|]. eexists. reflexivity.
         - right. left. exists sel. simpl. auto.
         - right. right. exact Hc. }
    all: exists el, e, ((Element s, env w (trace w) (Element s)) :: evs);
      (split; [exact Hrun|]);
      (split; [apply (steps_trans _ _ _ [_] evs (steps_after w (Element s)) S)|]);
      destruct Hcase as [(Hi & ->) | [(sel & Hin & -> & -> & Hev) | Hc]];
      [ right; right; inversion Hi; split; [reflexivity|]; eexists; reflexivity
      | right; left; exists sel; simpl; auto
      | right; right; exact Hc ].
Qed.

(* ------------------------------------------------------------------ *)
(** ** The send-connection-request operation *)

(** Run the next call of a sequence when it only performs external calls:
    its result and the world it leaves are introduced, together with the
    events it recorded. *)
Ltac run_io :=
  lazymatch goal with
  | |- context [bind ?c ?k ?w] =>
      let H := fresh "Hio" in
      assert (H : io c) by (auto with io);
      let evs := fresh "evs" in
      let S := fresh "S" in
      destruct (H w) as (evs & S); clear H;
      rewrite (bind_run c k w);
      let a := fresh "a" in
      let m := fresh "m" in
      let w1 := fresh "w" in
      destruct (c w) as [[a|m] w1]; simpl in S
  end.

(** The storage functions always return, and change nothing but the
    database and the history. *)
Lemma RecordConnectionRequest_grows (req : ConnectionRequest) (w : World) :
  exists e evs,
    storage.RecordConnectionRequest req w
    = (Val e, snd (storage.RecordConnectionRequest req w))
    /\ grows w evs (snd (storage.RecordConnectionRequest req w)).
Proof.
  unfold storage.RecordConnectionRequest, orWrap.
  rewrite bind_run, call_err_run.
  destruct (env w (trace w) (Sql "RecordConnectionRequest")) eqn:E;
    do 2 eexists; (split; [reflexivity|]); simpl;
    unfold grows; simpl; repeat split; reflexivity.
Qed.

Lemma RecordAction_grows (kind : string) (w : World) :
  exists e evs,
    storage.RecordAction kind w = (Val e, snd (storage.RecordAction kind w))
    /\ grows w evs (snd (storage.RecordAction kind w)).
Proof.
  unfold storage.RecordAction, orWrap.
  rewrite bind_run, call_err_run.
  destruct (env w (trace w) (Sql "RecordAction")) eqn:E;
    do 2 eexists; (split; [reflexivity|]); simpl;
    unfold grows; simpl; repeat split; try reflexivity.
  rewrite <- app_assoc. reflexivity.
Qed.

(** The end of SendConnectionRequest, once the send button was clicked:
    the request and the action are recorded, and nil is returned. *)
Lemma record_tail (url note : string) (w : World) :
  let tail :=
    now <- time_Now ;;
    _ <- storage.RecordConnectionRequest
           {| cr_ProfileURL := url; cr_Note := note;
              cr_SentAt := now; cr_Accepted := false |} ;;
    _ <- storage.RecordAction "connection_request" ;;
    ret None in
  exists evs, tail w = (Val (@None err), snd (tail w)) /\ grows w evs (snd (tail w)).
Proof.
  intros tail. unfold tail. rewrite bind_run.
  assert (Hn : exists now, time_Now w = (Val now, after w Now)).
  { unfold time_Now. rewrite bind_run. eexists. reflexivity. }
  destruct Hn as (now & ->).
  rewrite bind_run.
  destruct (RecordConnectionRequest_grows
              {| cr_ProfileURL := url; cr_Note := note;
                 cr_SentAt := now; cr_Accepted := false |} (after w Now))
    as (e1 & evs1 & -> & G1).
  rewrite bind_run.
  destruct (RecordAction_grows "connection_request"
              (snd (storage.RecordConnectionRequest
                      {| cr_ProfileURL := url; cr_Note := note;
                         cr_SentAt := now; cr_Accepted := false |}
                      (after w Now))))
    as (e2 & evs2 & -> & G2).
  eexists. split; [reflexivity|]. simpl.
  eapply grows_trans; [apply steps_grows, steps_after|].
  eapply grows_trans; eassumption.
Qed.

Lemma send_post_stable (sels : list string) : stable (send_post sels).
Proof.
  split.
  - intros w evs w1 r w2 S (Hdb & Hclick & Hkind). split; [|split].
    + intros Hr. rewrite (Hdb Hr). destruct S as (_ & _ & D & _). exact D.
    + intros Hr. destruct (Hclick Hr) as (evs2 & sel & G & Hin & Hev).
      exists (evs ++ evs2), sel. split; [|split].
      * eapply grows_trans; [apply steps_grows; exact S|exact G].
      * exact Hin.
      * apply in_or_app. right. exact Hev.
    + exact Hkind.
  - intros w evs w1 msg S. split; [|split].
    + intros _. destruct S as (_ & _ & D & _). exact D.
    + intros Hr. discriminate Hr.
    + intros e Hr. discriminate Hr.
Qed.

Lemma prefix_app (a b : string) : String.prefix a (a ++ b)%string = true.
Proof.
  induction a as [|c a IH]; simpl.
  - destruct b; reflexivity.
  - destruct (ascii_dec c c) as [_|Hne]; [exact IH|contradiction].
Qed.

Lemma wrap_typed (kind : string) (c : err) :
  In kind failure_kinds -> typed_failure (Wrap kind c).
Proof. intros H. exists kind. split; [exact H|]. simpl. apply prefix_app. Qed.

Lemma send_post_wrap (sels : list string) (kind : string) :
  In kind failure_kinds ->
  forall w e, send_post sels w (Val (Some (Wrap kind e))) w.
Proof.
  intros Hk w e. split; [|split].
  - reflexivity.
  - intros H. discriminate H.
  - intros e0 H. inversion H. apply wrap_typed. exact Hk.
Qed.

(** The part of clickSendButton that follows the lookup of the button. *)
Lemma click_found (sel : string) (sels : list string) (a b c d : Duration)
                  (msg : string) (w : World) :
  In sel sels ->
  let click :=
    delay <- stealth.RandomDelay a b ;;
    sleep delay ;;
    guard call_err (Click sel) wrap msg ;;
    delay <- stealth.RandomDelay c d ;;
    sleep delay ;;
    ret None in
  click_post sels w (fst (click w)) (snd (click w)).
Proof.
  intros Hin click. unfold click, click_post.
  run_io; [|exists evs; split; [exact S|intros H; discriminate H]].
  run_io; [|exists (evs ++ evs0); split;
            [eapply steps_trans; eassumption|intros H; discriminate H]].
  unfold orWrap. rewrite bind_run, call_err_run.
  destruct (env w1 (trace w1) (Click sel)) eqn:E;
    try (simpl; eexists; split;
         [eapply steps_trans; [eassumption|];
          eapply steps_trans; [eassumption|apply steps_after]
         |intros H; discriminate H]).
  run_io.
  - run_io.
    + simpl. eexists. split.
      * eapply steps_trans; [exact S|]. eapply steps_trans; [exact S0|].
        eapply steps_trans; [apply steps_after|].
        eapply steps_trans; [exact S1|exact S2].
      * intros _. exists sel. split; [exact Hin|].
        apply in_or_app. right. apply in_or_app. right.
        apply in_or_app. left. rewrite E. left. reflexivity.
    + simpl. eexists. split.
      * eapply steps_trans; [exact S|]. eapply steps_trans; [exact S0|].
        eapply steps_trans; [apply steps_after|].
        eapply steps_trans; [exact S1|exact S2].
      * intros H; discriminate H.
  - simpl. eexists. split.
    + eapply steps_trans; [exact S|]. eapply steps_trans; [exact S0|].
      eapply steps_trans; [apply steps_after|exact S1].
    + intros H; discriminate H.
Qed.

Lemma connection_clickSendButton_click :
  sat connection.clickSendButton (click_post connection.sendSelectors).
Proof.
  intros w. unfold connection.clickSendButton.
  rewrite bind_run.
  destruct (firstElement_run connection.sendSelectors (None, None) w)
    as (el & e & evs & Hrun & S & Hcase).
  rewrite Hrun. clear Hrun.
  set (w1 := snd (firstElement (None, None) connection.sendSelectors w)) in *.
  clearbody w1.
  destruct Hcase as [(_ & Hnil) | [(sel & Hin & -> & -> & _) | (-> & x & ->)]].
  - discriminate Hnil.
  - unfold orFail at 1. rewrite bind_run. unfold ret at 1. cbv iota beta.
    rewrite bind_run. unfold deref at 1, ret at 1. cbv iota beta.
    destruct (click_found sel connection.sendSelectors
                (500 * Millisecond) (1500 * Millisecond)
                (2 * Second) (3 * Second) "failed to click send button" w1 Hin)
      as (evs2 & S2 & Hc).
    exists (evs ++ evs2). split; [eapply steps_trans; eassumption|].
    intros Hr. destruct (Hc Hr) as (s & Hs & Hev).
    exists s. split; [exact Hs|]. apply in_or_app. right. exact Hev.
  - simpl. exists evs. split; [exact S|]. intros H. discriminate H.
Qed.

Lemma connection_rev_clickSendButton_click :
  sat connection_rev.clickSendButton (click_post connection_rev.sendSelectors).
Proof.
  intros w. unfold connection_rev.clickSendButton.
  rewrite bind_run.
  destruct (firstElement_run connection_rev.sendSelectors (None, None) w)
    as (el & e & evs & Hrun & S & Hcase).
  rewrite Hrun. clear Hrun.
  set (w1 := snd (firstElement (None, None) connection_rev.sendSelectors w)) in *.
  clearbody w1.
  destruct Hcase as [(_ & Hnil) | [(sel & Hin & -> & -> & _) | (-> & x & ->)]].
  - discriminate Hnil.
  - unfold orFail at 1. rewrite bind_run. unfold ret at 1. cbv iota beta.
    rewrite bind_run. unfold deref at 1, ret at 1. cbv iota beta.
    destruct (click_found sel connection_rev.sendSelectors
                (500 * Millisecond) (1500 * Millisecond)
                (2 * Second) (3 * Second) "failed to click send button" w1 Hin)
      as (evs2 & S2 & Hc).
    exists (evs ++ evs2). split; [eapply steps_trans; eassumption|].
    intros Hr. destruct (Hc Hr) as (s & Hs & Hev).
    exists s. split; [exact Hs|]. apply in_or_app. right. exact Hev.
  - simpl. exists evs. split; [exact S|]. intros H. discriminate H.
Qed.

Lemma io_GetConnectionRequestsSentToday : io storage.GetConnectionRequestsSentToday.
Proof. unfold storage.GetConnectionRequestsSentToday. io_tac. Qed.

Lemma io_HasSentMessage (url : string) : io (storage.HasSentMessage url).
Proof. unfold storage.HasSentMessage. io_tac. Qed.

Lemma io_GetPendingRequests : io storage.GetPendingRequests.
Proof. unfold storage.GetPendingRequests. io_tac. Qed.
#[export] Hint Resolve io_GetConnectionRequestsSentToday io_HasSentMessage
  io_GetPendingRequests : io.

(** The last guard of SendConnectionRequest: the click on the send button,
    followed by a rest that returns nil unless it panics before it touches
    the database. *)
Lemma sat_send_then_record (sels : list string) (click rest : M error) :
  sat click (click_post sels) ->
  (forall w, exists evs,
      (fst (rest w) = Val None /\ grows w evs (snd (rest w)))
      \/ (exists msg, fst (rest w) = Panic msg) /\ steps w evs (snd (rest w))) ->
  sat (orWrap "failed to click send button" click rest) (send_post sels).
Proof.
  intros Hclick Hrest w. unfold orWrap. rewrite bind_run.
  destruct (Hclick w) as (evs & S & Hc).
  destruct (click w) as [[[e|]|msg] w1]; simpl in S, Hc.
  - simpl. eapply (proj1 (send_post_stable sels)); [exact S|].
    apply send_post_wrap. simpl. tauto.
  - destruct (Hc eq_refl) as (sel & Hin & Hev).
    destruct (Hrest w1) as (evs2 & [(Hr & G) | ((msg & Hr) & S2)]).
    + destruct (rest w1) as [r w2]. simpl in Hr, G. subst r. split; [|split].
      * intros H. contradiction H. reflexivity.
      * intros _. exists (evs ++ evs2), sel. split; [|split].
        -- eapply grows_trans; [apply steps_grows; exact S|exact G].
        -- exact Hin.
        -- apply in_or_app. left. exact Hev.
      * intros e H. discriminate H.
    + destruct (rest w1) as [r w2]. simpl in Hr, S2. subst r.
      eapply (proj2 (send_post_stable sels)).
      eapply steps_trans; eassumption.
  - simpl. eapply (proj2 (send_post_stable sels)). exact S.
Qed.

Ltac send_chain :=
  repeat first
    [ lazymatch goal with
      | |- sat (orWrap "failed to click send button" _ _) _ => fail 1
      | |- sat (orWrap _ _ _) _ =>
          apply sat_orWrap;
          [apply send_post_stable | solve [io_tac]
          |apply send_post_wrap; simpl; tauto | ]
      | |- sat (bind _ _) _ =>
          apply sat_bind_io;
          [apply send_post_stable | solve [io_tac] | intro ]
      | |- sat (match ?x with _ => _ end) _ => destruct x
      end ].

Lemma limit_reached_typed (sels : list string) (n m : Z) (w : World) :
  send_post sels w
    (Val (Some (Err ("daily connection request limit reached: "
                       ++ itoa n ++ "/" ++ itoa m)%string))) w.
Proof.
  split; [|split].
  - reflexivity.
  - intros H. discriminate H.
  - intros e H. inversion H.
    exists "daily connection request limit reached". split; [simpl; tauto|].
    reflexivity.
Qed.

Lemma connection_SendConnectionRequest_sat (url note : string)
                                           (cfg : config.Config) :
  sat (connection.SendConnectionRequest url note cfg)
      (send_post connection.sendSelectors).
Proof.
  unfold connection.SendConnectionRequest. cbv zeta.
  send_chain.
  - apply sat_ret. intros w. apply limit_reached_typed.
  - send_chain.
    apply sat_send_then_record; [apply connection_clickSendButton_click|].
    intros w. destruct (record_tail url note w) as (evs & Hr & G).
    exists evs. left. cbv zeta in Hr, G. rewrite Hr at 1. split; [reflexivity|exact G].
Qed.

Lemma connection_rev_SendConnectionRequest_sat (url note : string)
                                               (cfg : config.Config) :
  sat (connection_rev.SendConnectionRequest url note cfg)
      (send_post connection_rev.sendSelectors).
Proof.
  unfold connection_rev.SendConnectionRequest. cbv zeta.
  send_chain.
  - apply sat_ret. intros w. apply limit_reached_typed.
  - send_chain.
    apply sat_send_then_record; [apply connection_rev_clickSendButton_click|].
    intros w. run_io.
    + lazymatch goal with
      | |- exists _, (fst (?t ?w1) = _ /\ _) \/ _ =>
          destruct (record_tail url
                      (if (note =? EmptyString)%string then connection_rev.DefaultNote
                       else note) w1) as (evs2 & Hr & G)
      end.
      cbv zeta in Hr, G. exists (evs ++ evs2). left.
      rewrite Hr at 1. split; [reflexivity|].
      eapply grows_trans; [apply steps_grows; exact S|exact G].
    + exists evs. right. simpl. split; [eexists; reflexivity|exact S].
Qed.

Lemma limit_reached_run (count : Z) (w w1 : World) (k : M error) (limit : Z) :
  storage.GetConnectionRequestsSentToday w = (Val (count, None), w1) ->
  count >= limit ->
  ('(requestsToday, e) <- storage.GetConnectionRequestsSentToday ;;
   guard ret e wrap "failed to check daily limit" ;;
   if requestsToday >=? limit then
     ret (Some (Err ("daily connection request limit reached: "
                       ++ itoa requestsToday ++ "/" ++ itoa limit)%string))
   else k) w
  = (Val (Some (Err ("daily connection request limit reached: "
                       ++ itoa count ++ "/" ++ itoa limit)%string)), w1).
Proof.
  intros Hrun Hge. rewrite bind_run, Hrun. unfold orWrap.
  rewrite bind_run. unfold ret at 1. cbv iota beta.
  destruct (Z.geb_spec count limit); [reflexivity|lia].
Qed.

(** Claim C5: in both versions of the connection package, a run of
    SendConnectionRequest that does not return nil (an error, or a panic)
    leaves the database exactly as it was; a run that returns nil has clicked
    a send button successfully; an error returned is one of the typed
    failures (daily limit check, limit reached, navigation, page load,
    connect button, send button); and when the storage layer reports that
    the daily limit is reached, the operation returns that error at once,
    having done nothing but the query. *)
Theorem SendConnectionRequest_persists_only_after_send
        (url note : string) (cfg : config.Config) (w : World) :
  (let r := fst (connection.SendConnectionRequest url note cfg w) in
   let w' := snd (connection.SendConnectionRequest url note cfg w) in
   (r <> Val None -> db w' = db w)
   /\ (r = Val None ->
       exists evs sel, grows w evs w' /\ In sel connection.sendSelectors
                       /\ In (Click sel, ROk) evs)
   /\ (forall e, r = Val (Some e) -> typed_failure e))
  /\ (let r := fst (connection_rev.SendConnectionRequest url note cfg w) in
      let w' := snd (connection_rev.SendConnectionRequest url note cfg w) in
      (r <> Val None -> db w' = db w)
      /\ (r = Val None ->
          exists evs sel, grows w evs w' /\ In sel connection_rev.sendSelectors
                          /\ In (Click sel, ROk) evs)
      /\ (forall e, r = Val (Some e) -> typed_failure e))
  /\ (forall count w1,
        storage.GetConnectionRequestsSentToday w = (Val (count, None), w1) ->
        count >= config.DailyLimit (config.Connection cfg) ->
        let failure :=
          Some (Err ("daily connection request limit reached: "
                       ++ itoa count ++ "/"
                       ++ itoa (config.DailyLimit (config.Connection cfg)))%string) in
        connection.SendConnectionRequest url note cfg w = (Val failure, w1)
        /\ connection_rev.SendConnectionRequest url note cfg w = (Val failure, w1)
        /\ db w1 = db w).
Proof.
  split; [|split].
  - apply (connection_SendConnectionRequest_sat url note cfg w).
  - apply (connection_rev_SendConnectionRequest_sat url note cfg w).
  - intros count w1 Hrun Hge failure. split; [|split].
    + apply limit_reached_run; assumption.
    + apply limit_reached_run; assumption.
    + destruct (io_GetConnectionRequestsSentToday w) as (evs & S).
      rewrite Hrun in S. destruct S as (_ & _ & D & _). exact D.
Qed.

(** The runs that Claim C5 names, in both versions of the package, with a
    daily limit of 5 and four requests recorded today: when the navigation
    fails, when the page has no connect button, and when it has no send
    button, the operation returns the error of that step and the database
    is as before; when every step succeeds it returns nil and one connection
    request and one action are added. *)
Lemma SendConnectionRequest_persists_only_after_send_witness :
  let run1 := connection.SendConnectionRequest someone "hello" limit5 in
  let run2 := connection_rev.SendConnectionRequest someone "hello" limit5 in
  let offline := world_with (unreachable someone (answers 0)) four_today in
  let blank := world_with (no_elements (answers 0)) four_today in
  let nosend1 :=
    world_with (not_found connection.sendSelectors (answers 0)) four_today in
  let nosend2 :=
    world_with (not_found connection_rev.sendSelectors (answers 0)) four_today in
  let online := world_with (answers 0) four_today in
  let navigation :=
    Wrap "failed to navigate to profile" (Err "net::ERR_FAILED") in
  let connect_button :=
    Wrap "failed to click connect button"
      (Err "no connect option available (profile may require Follow first or connection locked)") in
  let send_button :=
    Wrap "failed to click send button"
      (Err "send button not found after trying all selectors") in
  fails_clean run1 offline navigation
  /\ fails_clean run2 offline navigation
  /\ fails_clean run1 blank connect_button
  /\ fails_clean run2 blank connect_button
  /\ fails_clean run1 nosend1 send_button
  /\ fails_clean run2 nosend2 send_button
  /\ sends_and_records run1 online
  /\ sends_and_records run2 online.
Proof.
  intros run1 run2 offline blank nosend1 nosend2 online
         navigation connect_button send_button.
  assert (clean1 : forall w e, fst (run1 w) = Val (Some e) -> fails_clean run1 w e).
  { intros w e E. split; [exact E|].
    apply (proj1 (proj1 (SendConnectionRequest_persists_only_after_send
                           someone "hello" limit5 w))).
    fold run1. rewrite E. discriminate. }
  assert (clean2 : forall w e, fst (run2 w) = Val (Some e) -> fails_clean run2 w e).
  { intros w e E. split; [exact E|].
    apply (proj1 (proj1 (proj2 (SendConnectionRequest_persists_only_after_send
                                  someone "hello" limit5 w)))).
    fold run2. rewrite E. discriminate. }
  split; [apply clean1; vm_compute; reflexivity|].
  split; [apply clean2; vm_compute; reflexivity|].
  split; [apply clean1; vm_compute; reflexivity|].
  split; [apply clean2; vm_compute; reflexivity|].
  split; [apply clean1; vm_compute; reflexivity|].
  split; [apply clean2; vm_compute; reflexivity|].
  split; (split; [vm_compute; reflexivity|]);
    split; vm_compute; reflexivity.
Defined.

(* ------------------------------------------------------------------ *)
(** * Binary64 arithmetic: what is needed of rounding *)

(** ** Digits *)











(** ** Shifting to the right *)





(** ** Rounding: the size of the result *)








(** ** Sums, differences and products: the size of the result *)











(** ** Binary64 numbers: zeros, one, and exact operations *)



Lemma valid_digits (s : bool) (m : positive) (e : Z) (x : float) :
  Prim2SF x = S754_finite s m e -> Zpos (digits2_pos m) <= 53 /\ e <= 971.
Proof.
  intros E. pose proof (Prim2SF_valid x) as V. rewrite E in V.
  cbn [valid_binary] in V. unfold bounded, canonical_mantissa in V.
  apply andb_true_iff in V. destruct V as (V1 & V2).
  apply Z.eqb_eq in V1. apply Z.leb_le in V2.
  unfold fexp, emin, prec, emax in *. lia.
Qed.






Lemma finite64_below (x : float) : finite64 x = true -> below 1024 x = true.
Proof.
  unfold finite64, below.
  destruct (Prim2SF x) as [s|s| |s m e] eqn:E; cbn [fin mag_le]; try congruence.
  intros _. destruct (valid_digits s m e x E). apply Z.leb_le. lia.
Qed.

(** *** Multiplication *)





(** *** Addition and subtraction *)


Lemma eqz_refl (x : float) : eqz x x.
Proof. left. reflexivity. Qed.











(** *** What a comparison says of the size of a number *)



(** *** Division *)



(** *** Conversion of integers *)



(** Claim C2, as it is stated, fails: the pair of durations
    [min = -2^63 ns], [max = 2^63 - 1 ns] satisfies [min <= max], but the
    difference [max - min] wraps around to [-1] and [rng.Int63n] panics, so no
    value is returned. *)
Lemma RandomDelay_overflow_panics :
  ~ (forall (w : World) (min max : Duration),
       int64 min -> int64 max -> min <= max ->
       exists d w', stealth.RandomDelay min max w = (Val d, w')
                    /\ min <= d <= max).
Proof.
  intros H.
  destruct (H world0 min_int64 max_int64) as (d & w' & Hrun & _).
  - unfold int64, min_int64, max_int64. pow2. lia.
  - unfold int64, min_int64, max_int64. pow2. lia.
  - unfold min_int64, max_int64. pow2. lia.
  - vm_compute in Hrun. discriminate Hrun.
Qed.

(** Claim C2 (amended): for every pair of durations with [min <= max] whose
    difference [max - min] is itself a duration (at most [2^63 - 1] ns, which
    holds for all non-negative durations), [RandomDelay min max] returns a
    value [d] with [min <= d <= max]; for every pair with [min >= max] it
    returns exactly [min], drawing nothing. *)
Theorem RandomDelay_bounds (w : World) (min max : Duration) :
  int64 min -> int64 max ->
  (min <= max -> max - min <= max_int64 ->
   exists d w', stealth.RandomDelay min max w = (Val d, w')
                /\ min <= d <= max)
  /\ (min >= max -> stealth.RandomDelay min max w = (Val min, w)).
Proof.
  intros Hmin Hmax. split.
  - intros Hle Hfit. destruct (Z.eq_dec min max) as [->|Hne].
    + exists max, w. rewrite RandomDelay_degenerate by lia. split; [reflexivity|lia].
    + destruct (RandomDelay_run w min max) as (d & Hrun & Hd); try assumption; [lia|].
      exists d, (after w RngInt63). split; [assumption|lia].
  - apply RandomDelay_degenerate.
Qed.

Lemma RandomDelay_bounds_witness :
  (exists d w', stealth.RandomDelay (1 * Second) (5 * Second) world0 = (Val d, w')
                /\ 1 * Second <= d <= 5 * Second)
  /\ stealth.RandomDelay (5 * Second) (1 * Second) world0 = (Val (5 * Second), world0).
Proof.
  assert (H1 : int64 (1 * Second)) by (vm_compute; split; discriminate).
  assert (H5 : int64 (5 * Second)) by (vm_compute; split; discriminate).
  split.
  - apply (proj1 (RandomDelay_bounds world0 (1 * Second) (5 * Second) H1 H5)).
    + vm_compute; discriminate.
    + vm_compute; discriminate.
  - apply (proj2 (RandomDelay_bounds world0 (5 * Second) (1 * Second) H5 H1)).
    vm_compute; discriminate.
Defined.

(** The base cooldown as the specification gives it. *)
Lemma baseCooldown_thresholds (n : Z) :
  stealth.baseCooldown n =
    if n <=? 10 then 2 * Minute else if n <=? 15 then 3 * Minute else 5 * Minute.
Proof.
  unfold stealth.baseCooldown.
  destruct (Z.gtb_spec n 15), (Z.gtb_spec n 10), (Z.leb_spec n 10),
    (Z.leb_spec n 15); try reflexivity; lia.
Qed.

(** Claim C7: for every hourly action count the cooldown is a value in
    [base, 2 * base], where [base] is 2 minutes for counts of at most 10,
    3 minutes for counts above 10 up to 15 and 5 minutes above 15; the base
    is monotonically non-decreasing in the count. *)
Theorem GetCooldownDuration_range (w : World) (actionsThisHour : Z) :
  let base := if actionsThisHour <=? 10 then 2 * Minute
              else if actionsThisHour <=? 15 then 3 * Minute
              else 5 * Minute in
  (exists d w', stealth.GetCooldownDuration actionsThisHour w = (Val d, w')
                /\ base <= d <= 2 * base)
  /\ stealth.baseCooldown actionsThisHour = base
  /\ (forall m, actionsThisHour <= m ->
                stealth.baseCooldown actionsThisHour <= stealth.baseCooldown m).
Proof.
  cbv zeta. rewrite <- baseCooldown_thresholds. split; [|split].
  - unfold stealth.GetCooldownDuration.
    assert (Hb : stealth.baseCooldown actionsThisHour = 2 * Minute
                 \/ stealth.baseCooldown actionsThisHour = 3 * Minute
                 \/ stealth.baseCooldown actionsThisHour = 5 * Minute).
    { unfold stealth.baseCooldown.
      destruct (actionsThisHour >? 15); [auto|].
      destruct (actionsThisHour >? 10); auto. }
    destruct Hb as [-> | [-> | ->]];
      match goal with
      | |- context [stealth.RandomDelay ?a ?b w] =>
          destruct (RandomDelay_run w a b) as (d & Hrun & Hd);
            [vm_compute; split; discriminate
            |vm_compute; split; discriminate
            |reflexivity
            |vm_compute; discriminate
            |exists d, (after w RngInt63); split; [exact Hrun|]]
      end.
    all: change (wrap64 (2 * Minute * 2)) with (2 * (2 * Minute)) in Hd
         || change (wrap64 (3 * Minute * 2)) with (2 * (3 * Minute)) in Hd
         || change (wrap64 (5 * Minute * 2)) with (2 * (5 * Minute)) in Hd.
    all: lia.
  - reflexivity.
  - intros m Hm. rewrite !baseCooldown_thresholds.
    destruct (Z.leb_spec actionsThisHour 10), (Z.leb_spec actionsThisHour 15),
      (Z.leb_spec m 10), (Z.leb_spec m 15);
      try lia; vm_compute; discriminate.
Qed.

(* ------------------------------------------------------------------ *)
(** ** Rate governor *)

Lemma connection_CheckDailyLimit_run (cfg : config.Config) (w w' : World)
                                     (count : Z) :
  storage.GetConnectionRequestsSentToday w = (Val (count, None), w') ->
  connection.CheckDailyLimit cfg w =
    (Val (wrap64 (config.DailyLimit (config.Connection cfg) - count) >? 0,
          wrap64 (config.DailyLimit (config.Connection cfg) - count), None), w')
  /\ connection_rev.CheckDailyLimit cfg w = connection.CheckDailyLimit cfg w.
Proof.
  intros H. unfold connection.CheckDailyLimit, connection_rev.CheckDailyLimit, bind.
  rewrite H. split; reflexivity.
Qed.

(** The count that the storage layer reports is the number of requests whose
    day is the current one; it is never negative. *)
Lemma GetConnectionRequestsSentToday_count (w w' : World) (count : Z) :
  storage.GetConnectionRequestsSentToday w = (Val (count, None), w') ->
  0 <= count /\ db w' = db w
  /\ exists now,
       count = storage.countb
                 (fun r => storage.DATE (cr_SentAt r) =? storage.DATE now)
                 (connection_requests (db w)).
Proof.
  unfold storage.GetConnectionRequestsSentToday, bind, call_err, call, ret,
    time_Now, get_db. simpl.
  destruct (env w (trace w) (Sql "GetConnectionRequestsSentToday"));
    simpl; intros H; inversion H; subst; clear H; simpl.
  split; [unfold storage.countb; lia|]. split; [reflexivity|].
  eexists. reflexivity.
Qed.

(** Claim C4: the admission check returns [(false, 0)] once exactly [limit]
    actions have been recorded in the day window, and [(true, limit - count)]
    for every count strictly below the limit.  This holds of the helper of
    the stealth package on a given count, and of the check of the connection
    package (in both versions) on the count of today's requests that the
    storage layer reports. *)
Theorem CheckDailyLimit_admission (count limit : Z) :
  0 <= count -> int64 limit ->
  (count = limit -> stealth.CheckDailyLimit count limit = (false, 0))
  /\ (count < limit ->
      stealth.CheckDailyLimit count limit = (true, limit - count))
  /\ (forall (cfg : config.Config) (w w' : World),
        config.DailyLimit (config.Connection cfg) = limit ->
        storage.GetConnectionRequestsSentToday w = (Val (count, None), w') ->
        (count = limit ->
         connection.CheckDailyLimit cfg w = (Val (false, 0, None), w')
         /\ connection_rev.CheckDailyLimit cfg w = (Val (false, 0, None), w'))
        /\ (count < limit ->
            connection.CheckDailyLimit cfg w
              = (Val (true, limit - count, None), w')
            /\ connection_rev.CheckDailyLimit cfg w
              = (Val (true, limit - count, None), w'))).
Proof.
  intros Hc Hl.
  assert (Hw : count <= limit -> wrap64 (limit - count) = limit - count).
  { intros. apply wrap64_id. unfold int64, min_int64, max_int64 in *. pow2. lia. }
  split; [|split].
  - intros ->. unfold stealth.CheckDailyLimit.
    destruct (Z.geb_spec limit limit); [reflexivity|lia].
  - intros Hlt. unfold stealth.CheckDailyLimit.
    destruct (Z.geb_spec count limit); [lia|]. rewrite Hw by lia. reflexivity.
  - intros cfg w w' Hcfg Hrun.
    destruct (connection_CheckDailyLimit_run cfg w w' count Hrun) as (H1 & H2).
    rewrite H2, H1, Hcfg. split.
    + intros ->. rewrite Z.sub_diag. split; reflexivity.
    + intros Hlt. rewrite Hw by lia.
      destruct (Z.gtb_spec (limit - count) 0); [|lia]. split; reflexivity.
Qed.

Lemma CheckDailyLimit_admission_witness :
  let w := world_with (answers 0) four_today in
  let w5 := snd (storage.RecordConnectionRequest
                   {| cr_ProfileURL := "https://www.linkedin.com/in/fifth";
                      cr_Note := EmptyString; cr_SentAt := 1700000000;
                      cr_Accepted := false |} w) in
  stealth.CheckDailyLimit 4 5 = (true, 5 - 4)
  /\ stealth.CheckDailyLimit 5 5 = (false, 0)
  /\ fst (connection.CheckDailyLimit limit5 w) = Val (true, 5 - 4, None)
  /\ fst (connection.CheckDailyLimit limit5 w5) = Val (false, 0, None).
Proof.
  intros w w5.
  assert (I5 : int64 5) by (vm_compute; split; discriminate).
  destruct (CheckDailyLimit_admission 4 5 ltac:(lia) I5) as (_ & S4 & C4).
  destruct (CheckDailyLimit_admission 5 5 ltac:(lia) I5) as (S5 & _ & C5).
  split; [apply S4; lia|]. split; [apply S5; reflexivity|]. split.
  - destruct (C4 limit5 w (snd (storage.GetConnectionRequestsSentToday w))
                 eq_refl eq_refl) as (_ & H).
    destruct (H ltac:(lia)) as (-> & _). reflexivity.
  - destruct (C5 limit5 w5 (snd (storage.GetConnectionRequestsSentToday w5))
                 eq_refl eq_refl) as (H & _).
    destruct (H eq_refl) as (-> & _). reflexivity.
Defined.

(* ------------------------------------------------------------------ *)
(** ** Motion synthesizer *)

Lemma upto_length (n : Z) : List.length (upto n) = Z.to_nat n.
Proof. unfold upto. rewrite length_map, length_seq. reflexivity. Qed.


Lemma upto_In (n i : Z) : In i (upto n) -> 0 <= i < n.
Proof.
  unfold upto. rewrite in_map_iff. intros (k & <- & Hk).
  apply in_seq in Hk. lia.
Qed.

(** The 50 samples that MoveMouse asks for. *)
Lemma CubicBezierCurve_run (w : World) (start end_ c1 c2 : stealth.Point) :
  stealth.CubicBezierCurve start end_ c1 c2 50 w
  = (Val (map (stealth.bezierPoint start end_ c1 c2 50) (upto 50)), w).
Proof. reflexivity. Qed.

(** ** The curve sampler in binary64 *)

Lemma Pow_one (y : positive) : stealth64.Pow 1 y = 1%float.
Proof. reflexivity. Qed.

Lemma zero64_0 : zero64 0 = true.
Proof. reflexivity. Qed.








(** The sampler panics when the slice would exceed the largest allocation,
    and a control point that is not finite spoils the first sample. *)
Lemma CubicBezierCurve_too_long (avail : Z) (start end_ c1 c2 : stealth64.Point)
                                (n : Z) :
  2 ^ 44 < n ->
  stealth64.CubicBezierCurve avail start end_ c1 c2 n
  = stealth64.Panics "makeslice: len out of range".
Proof.
  intros Hn. unfold stealth64.CubicBezierCurve.
  destruct (Z.ltb_spec n 0) as [H0|H0].
  - assert (0 < 2 ^ 44) by (apply Z.pow_pos_nonneg; lia). lia.
  - cbn [orb].
    destruct (Z.ltb_spec stealth64.maxAlloc (stealth64.sizeofPoint * n)) as [H|H];
      [reflexivity|].
    unfold stealth64.sizeofPoint, stealth64.maxAlloc in H.
    change (2 ^ 48) with (16 * 2 ^ 44) in H. lia.
Qed.

Lemma CubicBezierCurve_infinite_control :
  exists pts first,
    stealth64.CubicBezierCurve 4096 (pt 12 34) (pt 640 480)
                               (pt infinity 150) (pt 450 400) 50
    = stealth64.Returns pts
    /\ nth_error pts 0 = Some first
    /\ (stealth64.X first =? 12)%float = false.
Proof.
  eexists _, _. split; [vm_compute; reflexivity|].
  split; [reflexivity|]. vm_compute. reflexivity.
Qed.



Lemma generateControlPoints_run (w : World) (start end_ : stealth.Point) :
  exists r1 r2 cp1 cp2,
    stealth.generateControlPoints start end_ w
    = (Val (cp1, cp2), after (after w RngInt63) RngInt63)
    /\ (cp1, cp2) =
       (let m := math w in
        let dx := fsub (stealth.X end_) (stealth.X start) in
        let dy := fsub (stealth.Y end_) (stealth.Y start) in
        let distance :=
          match fadd (fmul dx dx) (fmul dy dy) with
          | Some q => Sqrt m q
          | None => None
          end in
        let angle := flift2 (Atan2 m) dy dx in
        let perpAngle := fadd angle (fdiv (fconst (Pi m)) (fconst 2)) in
        let offset1 := fmul (fmul (fsub (Some r1) (fconst 0.5)) distance)
                            (fconst 0.3) in
        let offset2 := fmul (fmul (fsub (Some r2) (fconst 0.5)) distance)
                            (fconst 0.3) in
        ({| stealth.X := fadd (fadd (stealth.X start) (fdiv dx (fconst 3)))
                              (fmul (option_map (Cos m) perpAngle) offset1);
            stealth.Y := fadd (fadd (stealth.Y start) (fdiv dy (fconst 3)))
                              (fmul (option_map (Sin m) perpAngle) offset1) |},
         {| stealth.X := fadd (fadd (stealth.X start)
                                    (fdiv (fmul (fconst 2) dx) (fconst 3)))
                              (fmul (option_map (Cos m) perpAngle) offset2);
            stealth.Y := fadd (fadd (stealth.Y start)
                                    (fdiv (fmul (fconst 2) dy) (fconst 3)))
                              (fmul (option_map (Sin m) perpAngle) offset2) |})).
Proof.
  unfold stealth.generateControlPoints, bind, get_math.
  destruct (Float64_run w) as (r1 & ->).
  destruct (Float64_run (after w RngInt63)) as (r2 & H2).
  change (math (after w RngInt63)) with (math w) in *.
  rewrite H2. do 4 eexists. split; reflexivity.
Qed.

(** ** Coinciding start and end point *)









Lemma tableMath_laws : MathLaws tableMath.
Proof.
  split.
  - reflexivity.
  - intros x _. cbn [tableMath stealth64.Cos].
    destruct (x =? stealth64.Pi / 2)%float; reflexivity.
  - intros x _. cbn [tableMath stealth64.Sin].
    destruct (x =? stealth64.Pi / 2)%float; reflexivity.
Qed.


(** Claim C9, as it is stated, fails in binary64 arithmetic: the weights of a
    sample are rounded and do not add up to one, so that a curve whose four
    defining points coincide leaves that point.  With start and end at
    (37.5, 80) the second of the fifty samples has abscissa
    37.499999999999993. *)
Lemma degenerate_path_rounding :
  ~ (forall (m : stealth64.Math) (r1 r2 : float) (avail : Z) (p : stealth64.Point),
       MathLaws m -> unitDraw r1 -> unitDraw r2 -> moderatePoint p ->
       stealth64.sizeofPoint * 50 <= avail ->
       let cps := stealth64.generateControlPoints m r1 r2 p p in
       exists pts,
         stealth64.CubicBezierCurve avail p p (fst cps) (snd cps) 50
         = stealth64.Returns pts
         /\ Forall (fun q => samePoint64 q p) pts).
Proof.
  intros H.
  destruct (H tableMath 0.25%float 0.75%float 1024 (pt 37.5 80))
    as (pts & Hrun & Hall).
  - exact tableMath_laws.
  - split; reflexivity.
  - split; reflexivity.
  - split; reflexivity.
  - vm_compute. discriminate.
  - vm_compute in Hrun. injection Hrun as <-.
    inversion Hall as [|? ? _ Hall1]. inversion Hall1 as [|? ? (Hx & _) _].
    vm_compute in Hx. discriminate Hx.
Qed.



(* ------------------------------------------------------------------ *)
(** ** Follow-up messages *)

Ltac sat_chain stable_lemma err_tac :=
  repeat first
    [ lazymatch goal with
      | |- sat (bind (call_err (Input _ _)) _) _ => fail
      | |- sat (orWrap _ _ _) _ =>
          apply sat_orWrap;
          [apply stable_lemma | solve [io_tac] | err_tac | ]
      | |- sat (bind _ _) _ =>
          apply sat_bind_io; [apply stable_lemma | solve [io_tac] | intro ]
      | |- sat (match ?x with _ => _ end) _ => destruct x
      | |- sat (ret _) _ => apply sat_ret; err_tac
      end ].

Lemma keeps_messages_stable : stable keeps_messages.
Proof.
  split.
  - intros w evs w1 r w2 (_ & _ & D & _) H url Hrec. apply H. rewrite D. exact Hrec.
  - intros w evs w1 msg (_ & _ & D & _) url Hrec. rewrite D. exact Hrec.
Qed.

Lemma recorded_app (url : string) (d : DB) (ms : list Message) :
  recorded url d ->
  recorded url {| connection_requests := connection_requests d;
                  messages := messages d ++ ms; actions := actions d |}.
Proof.
  intros (m & Hin & Hurl). exists m. split; [|exact Hurl].
  simpl. apply in_or_app. left. exact Hin.
Qed.

Lemma HasSentMessage_run (url : string) (w : World) :
  env w (trace w) (Sql "HasSentMessage") = ROk ->
  storage.HasSentMessage url w
  = (Val (storage.countb (fun m => String.eqb (m_ProfileURL m) url)
                         (messages (db w)) >? 0, None),
     after w (Sql "HasSentMessage")).
Proof.
  intros H. unfold storage.HasSentMessage.
  rewrite bind_run, call_err_run, H. reflexivity.
Qed.

Lemma recorded_count (url : string) (d : DB) :
  recorded url d ->
  (storage.countb (fun m => String.eqb (m_ProfileURL m) url) (messages d) >? 0)
  = true.
Proof.
  intros (m & Hin & Hurl). unfold storage.countb.
  assert (Hf : In m (filter (fun m => String.eqb (m_ProfileURL m) url)
                            (messages d))).
  { apply filter_In. split; [exact Hin|]. rewrite Hurl. apply String.eqb_refl. }
  destruct (filter _ (messages d)) as [|x l]; [contradiction|].
  simpl List.length. destruct (Z.gtb_spec (Z.of_nat (S (List.length l))) 0);
    [reflexivity|lia].
Qed.

Ltac keeps_same := intros; intros ? Hrec; exact Hrec.

Lemma SendMessage_keeps (url msg : string) (cfg : config.Config) :
  sat (messaging.SendMessage url msg cfg) keeps_messages.
Proof.
  unfold messaging.SendMessage.
  sat_chain keeps_messages_stable keeps_same.
  intros w url' Hrec.
  unfold storage.RecordMessage, storage.RecordAction, orWrap.
  rewrite !bind_run, call_err_run.
  destruct (env w (trace w) (Sql "RecordMessage")); simpl;
    rewrite ?bind_run, ?call_err_run;
    match goal with
    | |- context [env ?w' ?tr (Sql "RecordAction")] =>
        destruct (env w' tr (Sql "RecordAction")); simpl
    end;
    try exact Hrec;
    try (apply (recorded_app url' (db w) [_] Hrec)).
Qed.

(** Claim C10, as it is stated, fails in two ways.  A message may be recorded
    for a profile and SendMessage still return an error instead of nil: the
    query of the message history can fail.  And a profile can receive two
    messages from two invocations: when the statement that records the sent
    message fails, the failure is only logged, and the next invocation finds
    no record. *)
Lemma SendMessage_not_at_most_once :
  (~ forall (w : World) (url msg : string) (cfg : config.Config),
       recorded url (db w) ->
       exists w', messaging.SendMessage url msg cfg w = (Val None, w'))
  /\ (~ forall (w : World) (url msg : string) (cfg : config.Config),
          sent_count (trace w) = 0%nat ->
          let w1 := snd (messaging.SendMessage url msg cfg w) in
          let w2 := snd (messaging.SendMessage url msg cfg w1) in
          (sent_count (trace w2) <= 1)%nat).
Proof.
  split.
  - intros H.
    destruct (H (world_with (sql_fails ["HasSentMessage"] (answers 0)) messaged)
                someone "Thanks again!" limit5) as (w' & Hrun).
    + eexists. split; [left; reflexivity|reflexivity].
    + vm_compute in Hrun. discriminate Hrun.
  - intros H.
    pose proof (H (world_with (sql_fails ["RecordMessage"] (answers 0)) emptyDB)
                  someone "Thanks for connecting!" limit5 eq_refl) as Hle.
    vm_compute in Hle. lia.
Qed.

(** Claim C10 (amended): for every profile URL for which a message is
    recorded in storage, and when the query of the message history succeeds,
    SendMessage returns nil at once: the query is the only call it makes (no
    navigation, click or typing), the database is unchanged and no message is
    sent.  When the query fails it returns that error, likewise without a
    further call.  SendMessage never removes a recorded message, so a profile
    whose message was recorded is skipped by every later invocation whose
    query succeeds. *)
Theorem SendMessage_skips_recorded
        (url msg : string) (cfg : config.Config) (w : World) :
  (recorded url (db w) ->
   env w (trace w) (Sql "HasSentMessage") = ROk ->
   messaging.SendMessage url msg cfg w
   = (Val None, after w (Sql "HasSentMessage"))
   /\ db (after w (Sql "HasSentMessage")) = db w
   /\ sent_count (trace (after w (Sql "HasSentMessage"))) = sent_count (trace w))
  /\ (forall e, env w (trace w) (Sql "HasSentMessage") = RErr e ->
      messaging.SendMessage url msg cfg w
      = (Val (Some (Wrap "failed to check message history"
                      (Wrap "failed to check message history" (Err e)))),
         after w (Sql "HasSentMessage")))
  /\ (forall url', recorded url' (db w) ->
      recorded url' (db (snd (messaging.SendMessage url msg cfg w)))).
Proof.
  split; [|split].
  - intros Hrec Hok. split; [|split].
    + unfold messaging.SendMessage. rewrite bind_run, HasSentMessage_run by exact Hok.
      rewrite recorded_count by exact Hrec. reflexivity.
    + reflexivity.
    + unfold sent_count, after. simpl. rewrite filter_app, length_app, Hok.
      simpl. lia.
  - intros e He. unfold messaging.SendMessage, storage.HasSentMessage.
    rewrite !bind_run, call_err_run, He. reflexivity.
  - apply (SendMessage_keeps url msg cfg w).
Qed.

Lemma SendMessage_skips_recorded_witness :
  let w := world_with (answers 0) messaged in
  messaging.SendMessage someone "Thanks again!" limit5 w
  = (Val None, after w (Sql "HasSentMessage"))
  /\ db (after w (Sql "HasSentMessage")) = db w
  /\ sent_count (trace (after w (Sql "HasSentMessage"))) = sent_count (trace w).
Proof.
  intros w.
  apply (proj1 (SendMessage_skips_recorded someone "Thanks again!" limit5 w)).
  - eexists. split; [left; reflexivity|reflexivity].
  - reflexivity.
Defined.

(* ------------------------------------------------------------------ *)
(** ** Typing simulator *)

Lemma keystrokes_app (e1 e2 : list Event) :
  keystrokes (e1 ++ e2) = keystrokes e1 ++ keystrokes e2.
Proof. unfold keystrokes. rewrite filter_app, map_app. reflexivity. Qed.

Lemma quiet_ret {A} (a : A) : quiet (ret a).
Proof. intros w. exists a, []. split; [reflexivity|]. split; [apply steps_refl|reflexivity]. Qed.

Lemma quiet_bind {A B} (c : M A) (k : A -> M B) :
  quiet c -> (forall a, quiet (k a)) -> quiet (bind c k).
Proof.
  intros Hc Hk w. rewrite bind_run.
  destruct (Hc w) as (a & e1 & E1 & S1 & K1). rewrite E1.
  destruct (Hk a (snd (c w))) as (b & e2 & E2 & S2 & K2).
  exists b, (e1 ++ e2). split; [exact E2|]. split.
  - eapply steps_trans; eassumption.
  - rewrite keystrokes_app, K1, K2. reflexivity.
Qed.

Lemma quiet_call (c : Call) :
  (forall r, is_keystroke (c, r) = false) -> quiet (call c).
Proof.
  intros Hc w. eexists _, _. split; [reflexivity|]. split; [apply steps_after|].
  unfold keystrokes. simpl. rewrite Hc. reflexivity.
Qed.

Lemma quiet_sleep (d : Duration) : quiet (sleep d).
Proof.
  unfold sleep. apply quiet_bind; [apply quiet_call; reflexivity|].
  intros _. apply quiet_ret.
Qed.

Lemma quiet_Int63 : quiet rand.Int63.
Proof.
  unfold rand.Int63. apply quiet_bind; [apply quiet_call; reflexivity|].
  intros r. apply quiet_ret.
Qed.

Lemma quiet_Float64 : quiet rand.Float64.
Proof.
  unfold rand.Float64. apply quiet_bind; [apply quiet_Int63|].
  intros r. apply quiet_ret.
Qed.

Lemma quiet_Intn (n : Z) : 0 < n -> quiet (rand.Intn n).
Proof.
  intros Hn. unfold rand.Intn. destruct (Z.leb_spec n 0); [lia|].
  apply quiet_bind; [apply quiet_Int63|]. intros r. apply quiet_ret.
Qed.

Lemma quiet_Int63n (n : Z) : 0 < n -> quiet (rand.Int63n n).
Proof.
  intros Hn. unfold rand.Int63n. destruct (Z.leb_spec n 0); [lia|].
  apply quiet_bind; [apply quiet_Int63|]. intros r. apply quiet_ret.
Qed.

(** With bounds whose difference does not overflow, RandomDelay returns. *)
Lemma quiet_RandomDelay (min max : Duration) :
  int64 min -> int64 max -> max - min <= max_int64 ->
  quiet (stealth.RandomDelay min max).
Proof.
  intros Hmin Hmax Hfit. unfold stealth.RandomDelay.
  destruct (Z.geb_spec min max); [apply quiet_ret|].
  apply quiet_bind; [|intros r; apply quiet_ret].
  apply quiet_Int63n. rewrite wrap64_id; [lia|].
  unfold int64, min_int64, max_int64 in *. pow2. lia.
Qed.

(** RandomDelay between two constants. *)
Ltac quiet_delay :=
  apply quiet_RandomDelay;
  [vm_compute; split; discriminate
  |vm_compute; split; discriminate
  |vm_compute; discriminate].

Lemma typoMap_nonempty (c : rune) (typos : list rune) :
  stealth.lookup stealth.typoMap c = Some typos -> (0 < List.length typos)%nat.
Proof.
  unfold stealth.typoMap. simpl.
  repeat match goal with
         | |- (if ?b then _ else _) = _ -> _ => destruct b
         | |- Some _ = Some _ -> _ => intros H; inversion H; simpl; lia
         | |- None = Some _ -> _ => discriminate
         end.
Qed.

Lemma quiet_randomTypo (char : rune) : quiet (stealth.randomTypo char).
Proof.
  unfold stealth.randomTypo.
  destruct (stealth.lookup stealth.typoMap (stealth.lowerChar char)) as [typos|] eqn:E;
    [|apply quiet_ret].
  apply typoMap_nonempty in E.
  destruct (Z.ltb_spec 0 (Z.of_nat (List.length typos))); [|lia].
  apply quiet_bind; [apply quiet_Intn; lia|]. intros i. apply quiet_ret.
Qed.

Lemma quiet_calculateKeystrokeDelay (position totalLength : Z) :
  quiet (stealth.calculateKeystrokeDelay position totalLength).
Proof.
  unfold stealth.calculateKeystrokeDelay. cbv zeta.
  apply quiet_bind; [apply quiet_Float64|]. intros f.
  apply quiet_bind.
  - destruct (fltb f (fconst 0.1)); [quiet_delay|apply quiet_ret].
  - intros d. apply quiet_bind; [apply quiet_Float64|]. intros g. apply quiet_ret.
Qed.

Lemma quiet_ShortDelay : quiet stealth.ShortDelay.
Proof. unfold stealth.ShortDelay. quiet_delay. Qed.

(** Run the next call of a sequence, given a proof [H] that it is quiet. *)
Ltac run_quiet H :=
  lazymatch goal with
  | |- context [bind ?c ?k ?w] =>
      let a := fresh "a" in
      let evs := fresh "evs" in
      let E := fresh "E" in
      let S := fresh "S" in
      let K := fresh "K" in
      destruct (H w) as (a & evs & E & S & K);
      rewrite (bind_run c k w), E; clear E;
      let w1 := fresh "w" in
      set (w1 := snd (c w)) in *; clearbody w1
  end.

(** Run the next call of a sequence when it is an external call. *)
Ltac run_call :=
  lazymatch goal with
  | |- context [bind (call ?c) ?k ?w] =>
      let S := fresh "S" in
      pose proof (steps_after w c) as S;
      rewrite (bind_run (call c) k w);
      change (call c w) with (Val (env w (trace w) c), after w c);
      cbv iota beta;
      let r := fresh "r" in
      let w1 := fresh "w" in
      set (r := env w (trace w) c) in *; clearbody r;
      set (w1 := after w c) in *; clearbody w1
  end.

(** Chain the steps collected in the context. *)
Ltac chain_steps :=
  repeat (eapply steps_trans; [eassumption|]); apply steps_refl.

(** Run a sleep that is the last call of a branch. *)
Ltac run_sleep :=
  lazymatch goal with
  | |- context [sleep ?d ?w] =>
      let u := fresh "u" in
      let evs := fresh "evs" in
      let E := fresh "E" in
      let S := fresh "S" in
      let K := fresh "K" in
      destruct (quiet_sleep d w) as (u & evs & E & S & K);
      rewrite E; clear E; destruct u;
      let w1 := fresh "w" in
      set (w1 := snd (sleep d w)) in *; clearbody w1
  end.

Ltac delay_100_200 :=
  run_quiet (quiet_RandomDelay (100 * Millisecond) (200 * Millisecond)
               ltac:(vm_compute; split; discriminate)
               ltac:(vm_compute; split; discriminate)
               ltac:(vm_compute; discriminate)).

Ltac all_quiet :=
  repeat match goal with
         | K : keystrokes _ = [] |- _ => rewrite K; clear K
         end.

Lemma typeChar_keys (el : Elem) (n i : Z) (c : rune) (w : World) :
  exists typo evs w',
    stealth.typeChar el n (i, c) w = (Val tt, w')
    /\ steps w evs w' /\ keystrokes evs = keyBlock el typo c.
Proof.
  unfold stealth.typeChar.
  run_quiet quiet_Float64.
  destruct (fltb a (fconst 0.02)).
  - rewrite bind_run.
    run_quiet (quiet_randomTypo c).
    run_call.
    delay_100_200.
    match goal with
    | |- context [bind (sleep ?d) _ _] => run_quiet (quiet_sleep d)
    end.
    run_call.
    delay_100_200.
    run_sleep.
    run_call.
    run_quiet (quiet_calculateKeystrokeDelay i n).
    run_sleep.
    exists (Some a0). eexists. eexists. split; [reflexivity|]. split.
    + chain_steps.
    + rewrite !keystrokes_app. all_quiet. reflexivity.
  - rewrite bind_run. unfold ret at 1. cbv iota beta.
    run_call.
    run_quiet (quiet_calculateKeystrokeDelay i n).
    run_sleep.
    exists None. eexists. eexists. split; [reflexivity|]. split.
    + chain_steps.
    + rewrite !keystrokes_app. all_quiet. reflexivity.
Qed.

Lemma typeText_loop_keys (el : Elem) (n : Z) (l : list (Z * rune)) :
  forall w, exists typos evs w',
    forM l (stealth.typeChar el n) w = (Val tt, w')
    /\ steps w evs w'
    /\ List.length typos = List.length l
    /\ keystrokes evs = keyBlocks el typos (map snd l).
Proof.
  induction l as [|[i c] l IH]; intros w.
  - exists [], [], w. split; [reflexivity|]. split; [apply steps_refl|].
    split; reflexivity.
  - cbn [forM]. rewrite bind_run.
    destruct (typeChar_keys el n i c w) as (typo & e1 & w1 & -> & S1 & K1).
    destruct (IH w1) as (typos & e2 & w2 & E2 & S2 & L2 & K2).
    exists (typo :: typos), (e1 ++ e2), w2. split; [exact E2|]. split.
    + eapply steps_trans; eassumption.
    + split; [simpl; rewrite L2; reflexivity|].
      rewrite keystrokes_app, K1, K2. reflexivity.
Qed.

Lemma replay_app (field : list string) (k1 k2 : list Call) :
  replay field (k1 ++ k2) = replay (replay field k1) k2.
Proof.
  revert field. induction k1 as [|c k1 IH]; intros field; [reflexivity|].
  destruct c; simpl; try apply IH.
  destruct k. apply IH.
Qed.

Lemma replay_keyBlock (el : Elem) (typo : option rune) (c : rune)
                      (field : list string) :
  replay field (keyBlock el typo c) = field ++ [string_of_rune c].
Proof.
  destruct typo as [t|]; simpl; [|reflexivity].
  rewrite removelast_last. reflexivity.
Qed.

(** Replaying the blocks of a text leaves the text: every typo is erased by
    the press of Backspace that follows it. *)
Lemma replay_keyBlocks (el : Elem) (typos : list (option rune)) :
  forall (cs : list rune) (field : list string),
    List.length typos = List.length cs ->
    replay field (keyBlocks el typos cs) = field ++ map string_of_rune cs.
Proof.
  induction typos as [|t typos IH]; intros [|c cs] field Hlen;
    try discriminate Hlen; simpl.
  - rewrite app_nil_r. reflexivity.
  - rewrite replay_app, replay_keyBlock, IH by (simpl in Hlen; lia).
    rewrite <- app_assoc. reflexivity.
Qed.

(** The typing simulator of the stealth package: on every input text and in
    every environment, TypeText returns; when the field is found and
    clicked, the keyboard events it emits are, for each rune of the text in
    order, either the rune alone or a wrong rune, a press of Backspace and
    the rune; the text committed equals the input text.  (A failed lookup or
    click is returned as an error before any key is struck.) *)
Theorem TypeText_corrects_typos (selector text : string) (w : World) :
  exists r evs w',
    stealth.TypeText selector text w = (Val r, w')
    /\ steps w evs w'
    /\ (r = None ->
        exists typos,
          List.length typos = List.length (runes text)
          /\ keystrokes evs = keyBlocks selector typos (runes text)
          /\ committed (keystrokes evs) = map string_of_rune (runes text))
    /\ (r <> None -> keystrokes evs = []).
Proof.
  unfold stealth.TypeText.
  rewrite bind_run, call_err_run.
  pose proof (steps_after w (Element selector)) as S0.
  destruct (env w (trace w) (Element selector)) eqn:E0;
    try (eexists _, _, _; split; [reflexivity|]; split; [exact S0|];
         split; [intros H; discriminate H|intros _; reflexivity]).
  set (w0 := after w (Element selector)) in *. clearbody w0.
  rewrite bind_run, call_err_run.
  pose proof (steps_after w0 (Click selector)) as S1.
  destruct (env w0 (trace w0) (Click selector)) eqn:E1;
    try (eexists _, _, _; split; [reflexivity|]; split;
         [eapply steps_trans; [exact S0|exact S1]|];
         split; [intros H; discriminate H|intros _; reflexivity]).
  set (w1 := after w0 (Click selector)) in *. clearbody w1.
  run_quiet quiet_ShortDelay.
  match goal with
  | |- context [bind (sleep ?d) _ _] => run_quiet (quiet_sleep d)
  end.
  rewrite bind_run.
  destruct (typeText_loop_keys selector (len text) (range text) w3)
    as (typos & evs2 & w4 & -> & S4 & L4 & K4).
  exists None, ([(Element selector, ROk)] ++ [(Click selector, ROk)]
                 ++ evs ++ evs0 ++ evs2), w4.
  split; [reflexivity|]. split.
  - eapply steps_trans; [exact S0|]. eapply steps_trans; [exact S1|].
    eapply steps_trans; [exact S|]. eapply steps_trans; [exact S2|exact S4].
  - split; [|intros H; contradiction H; reflexivity].
    intros _. exists typos.
    assert (Hk : keystrokes ([(Element selector, ROk)] ++ [(Click selector, ROk)]
                             ++ evs ++ evs0 ++ evs2)
                 = keyBlocks selector typos (runes text)).
    { rewrite !keystrokes_app, K, K0, K4. reflexivity. }
    split; [unfold runes; rewrite length_map; exact L4|].
    split; [exact Hk|].
    rewrite Hk. unfold committed. rewrite replay_keyBlocks; [reflexivity|].
    unfold runes. rewrite length_map. exact L4.
Qed.

(** Claim C1 at a failing input.  In connection.go, TypePersonalizedNote
    sends the correction of a typo through [noteField.Input], as the text
    [string(input.Backspace)]: typing the note "a" with a typo injected, it
    inserts the wrong rune, then the rune of the Backspace key, then the
    right rune, and presses no key at all; three insertions are committed
    instead of the one character of the note.  On the same draws, TypeText
    of the stealth package presses [input.Backspace] and commits "a". *)
Theorem TypePersonalizedNote_inserts_backspace_as_text :
  let field := "textarea[name='message']"%string in
  let ks := keystrokes (trace (snd (connection.TypePersonalizedNote "a" world0))) in
  let ks' := keystrokes (trace (snd (stealth.TypeText field "a" world0))) in
  fst (connection.TypePersonalizedNote "a" world0) = Val None
  /\ ks = [Input field "s";
           Input field (string_of_rune (rune_of_key Backspace));
           Input field "a"]
  /\ committed ks = ["s"; string_of_rune (rune_of_key Backspace); "a"]%string
  /\ committed ks <> map string_of_rune (runes "a")
  /\ ks' = [Input field "s"; KeyPress Backspace; Input field "a"]
  /\ committed ks' = map string_of_rune (runes "a").
Proof.
  cbv zeta. split; [vm_compute; reflexivity|].
  split; [vm_compute; reflexivity|].
  split; [vm_compute; reflexivity|].
  split; [vm_compute; intros H; discriminate H|].
  split; vm_compute; reflexivity.
Qed.

(* ------------------------------------------------------------------ *)
(** ** Truncation of the note *)

Lemma length_append (a b : string) :
  String.length (a ++ b)%string = (String.length a + String.length b)%nat.
Proof. induction a as [|c a IH]; simpl; [reflexivity|]. rewrite IH. reflexivity. Qed.









Lemma call_err_cases (c : Call) (w : World) :
  (env w (trace w) c = ROk /\ call_err c w = (Val None, after w c))
  \/ (exists x, call_err c w = (Val (Some x), after w c)).
Proof.
  rewrite call_err_run.
  destruct (env w (trace w) c); [left; split; reflexivity|..];
    right; eexists; reflexivity.
Qed.





(* ------------------------------------------------------------------ *)
(** ** Retry with backoff, and the batch of a cycle *)

Lemma sleep_run (d : Duration) (w : World) :
  sleep d w = (Val tt, after w (Sleep d)).
Proof. reflexivity. Qed.

Lemma retryLoop_spec (op : M error) (maxRetries : Z) :
  maxRetries < max_int64 ->
  forall (fuel : nat) (attempt : Z) (last : error) (w : World),
    1 <= attempt <= maxRetries ->
    Z.of_nat fuel = maxRetries - attempt + 1 ->
    exists k last' w1,
      attempt + Z.of_nat k <= maxRetries
      /\ Failed op main.backoff attempt k last w last' w1
      /\ retry_outcome op maxRetries (attempt + Z.of_nat k) w1
           (main.retryLoop fuel op maxRetries attempt last w).
Proof.
  intros Hmax. induction fuel as [|fuel IH]; intros attempt last w Ha Hf; [lia|].
  cbn [main.retryLoop].
  destruct (Z.leb_spec attempt maxRetries); [|lia].
  rewrite bind_run. destruct (op w) as [[[e|]|msg] w1] eqn:Eop.
  - (* the attempt fails *)
    destruct (Z.ltb_spec attempt maxRetries) as [Hlt|Hge].
    + rewrite bind_run, sleep_run.
      assert (Hw : wrap64 (attempt + 1) = attempt + 1).
      { apply wrap64_id. unfold int64, min_int64, max_int64 in *. pow2. lia. }
      rewrite Hw.
      destruct (IH (attempt + 1) (Some e) (after w1 (Sleep (main.backoff attempt))))
        as (k & last' & w2 & Hk & HF & Hout); [lia|lia|].
      exists (S k), last', w2. split; [lia|]. split.
      * eapply Failed_S; eassumption.
      * replace (attempt + Z.of_nat (S k)) with (attempt + 1 + Z.of_nat k) by lia.
        exact Hout.
    + assert (attempt = maxRetries) by lia. subst attempt.
      rewrite bind_run. unfold ret at 1. cbv iota beta.
      assert (Hw : wrap64 (maxRetries + 1) = maxRetries + 1).
      { apply wrap64_id. unfold int64, min_int64, max_int64 in *. pow2. lia. }
      rewrite Hw.
      assert (Hend : main.retryLoop fuel op maxRetries (maxRetries + 1) (Some e) w1
                     = (Val (Some (Wrap ("operation failed after "
                                           ++ itoa maxRetries ++ " attempts")%string
                                        e)), w1)).
      { destruct fuel; cbn [main.retryLoop];
          destruct (Z.leb_spec (maxRetries + 1) maxRetries); try lia; reflexivity. }
      rewrite Hend.
      exists 0%nat, last, w. split; [lia|]. split; [apply Failed_O|].
      right. left. split; [lia|]. exists e, w1. split; [exact Eop|reflexivity].
  - (* the attempt succeeds *)
    exists 0%nat, last, w. split; [lia|]. split; [apply Failed_O|].
    left. exists w1. split; [exact Eop|reflexivity].
  - (* the operation panics *)
    exists 0%nat, last, w. split; [lia|]. split; [apply Failed_O|].
    right. right. exists msg, w1. split; [exact Eop|reflexivity].
Qed.

(** Up to attempt 33 the backoff is [2^attempt] seconds. *)
Lemma backoff_seconds (attempt : Z) :
  1 <= attempt <= 33 -> main.backoff attempt = 2 ^ attempt * Second.
Proof.
  intros H.
  assert (Hin : In attempt (map Z.of_nat (seq 1 33))).
  { apply in_map_iff. exists (Z.to_nat attempt). split; [lia|].
    apply in_seq. lia. }
  simpl in Hin.
  repeat (destruct Hin as [<-|Hin]; [vm_compute; reflexivity|]).
  contradiction.
Qed.

Lemma doublingb_complete (l : list Z) : doubling l -> doublingb l = true.
Proof.
  induction l as [|a [|b l'] IH]; intros H; try reflexivity.
  cbn [doubling] in H. destruct H as [E H]. cbn [doublingb].
  apply andb_true_intro. split; [apply Z.eqb_eq; exact E|apply IH; exact H].
Qed.

(** When the retried send of a profile ends in an error, the loop over the
    profiles goes on with the remaining ones, the count of requests unchanged. *)
Lemma sendRequests_continue
    (Send : string -> string -> config.Config -> M error)
    (CheckLimit : config.Config -> M (bool * Z * error))
    (Should : config.Config -> M bool)
    (Generate : string -> string -> string -> string)
    (cfg : config.Config) (profile : main.Profile) (rest : list main.Profile)
    (requestsSent remaining : Z) (add : bool) (e : err) (w w1 w2 w3 : World) :
  CheckLimit cfg w = (Val (true, remaining, None), w1) ->
  Should cfg w1 = (Val add, w2) ->
  main.retryWithBackoff
    (Send (main.URL profile) (main.noteFor Generate cfg profile add) cfg) 3 w2
    = (Val (Some e), w3) ->
  main.sendRequests Send CheckLimit Should Generate cfg (profile :: rest) requestsSent w
  = main.sendRequests Send CheckLimit Should Generate cfg rest requestsSent w3.
Proof.
  intros HC HS HR. cbn [main.sendRequests].
  rewrite bind_run, HC. cbn [is_nil negb].
  rewrite bind_run, HS. rewrite bind_run, HR. reflexivity.
Qed.

(** Claim C8, as it is stated, fails: the backoffs do not double for every
    [maxRetries].  With 35 attempts of an operation that always fails, the 34
    backoffs double up to [2^33] seconds, the one after attempt 33; the
    product [2^34 * time.Second] after attempt 34 does not fit in 64 bits,
    and the duration slept is negative. *)
Lemma retryWithBackoff_backoff_overflows :
  let d := sleeps (trace (snd (main.retryWithBackoff always_fails 35 world0))) in
  1 <= 35
  /\ List.length d = 34%nat
  /\ nth 32 d 0 = 2 ^ 33 * Second
  /\ nth 33 d 0 = -1266874889709551616
  /\ ~ doubling d.
Proof.
  intros d. split; [lia|].
  split; [vm_compute; reflexivity|].
  split; [vm_compute; reflexivity|]. split; [vm_compute; reflexivity|].
  intros H. apply doublingb_complete in H. revert H.
  vm_compute. discriminate.
Qed.

(** Claim C8 (amended): for [1 <= maxRetries] below the largest int, a run of
    retryWithBackoff invokes the operation [k + 1 <= maxRetries] times: [k]
    failed attempts, each followed by a sleep of the backoff of its attempt
    number, and a last invocation that either succeeds (the result is nil),
    or is attempt [maxRetries] and fails (the result wraps its error, and no
    sleep follows), or panics.  The backoff after attempt [a] is [2^a]
    seconds for [a <= 33], so it doubles from one attempt to the next up to
    there.  In the loop over the profiles of a cycle, a request whose retries
    are exhausted leaves the loop running on the remaining profiles. *)
Theorem retryWithBackoff_bounded :
  forall (op : M error) (maxRetries : Z) (w : World),
    1 <= maxRetries < max_int64 ->
    (exists k last w1,
        Z.of_nat k < maxRetries
        /\ Failed op main.backoff 1 k None w last w1
        /\ retry_outcome op maxRetries (1 + Z.of_nat k) w1
             (main.retryWithBackoff op maxRetries w))
    /\ (forall a, 1 <= a <= 33 -> main.backoff a = 2 ^ a * Second)
    /\ (forall a, 1 <= a < 33 -> main.backoff (a + 1) = 2 * main.backoff a)
    /\ (forall Send CheckLimit Should Generate cfg profile rest requestsSent
               remaining add e w0 w1 w2 w3,
           CheckLimit cfg w0 = (Val (true, remaining, None), w1) ->
           Should cfg w1 = (Val add, w2) ->
           main.retryWithBackoff
             (Send (main.URL profile) (main.noteFor Generate cfg profile add) cfg)
             3 w2 = (Val (Some e), w3) ->
           main.sendRequests Send CheckLimit Should Generate cfg (profile :: rest)
                             requestsSent w0
           = main.sendRequests Send CheckLimit Should Generate cfg rest
                               requestsSent w3).
Proof.
  intros op maxRetries w [H1 Hmax]. split; [|split; [|split]].
  - unfold main.retryWithBackoff.
    destruct (retryLoop_spec op maxRetries Hmax (Z.to_nat maxRetries) 1 None w)
      as (k & last & w1 & Hk & HF & Hout); [lia|lia|].
    exists k, last, w1. split; [lia|]. split; assumption.
  - apply backoff_seconds.
  - intros a Ha. rewrite !backoff_seconds by lia.
    rewrite Z.pow_add_r by lia. lia.
  - intros. eapply sendRequests_continue; eassumption.
Qed.

Lemma retryWithBackoff_bounded_witness :
  1 <= 3 < max_int64
  /\ exists k last w1,
       Z.of_nat k < 3
       /\ Failed always_fails main.backoff 1 k None world0 last w1
       /\ retry_outcome always_fails 3 (1 + Z.of_nat k) w1
            (main.retryWithBackoff always_fails 3 world0).
Proof.
  assert (H : 1 <= 3 < max_int64) by (vm_compute; split; [discriminate|reflexivity]).
  split; [exact H|].
  exact (proj1 (retryWithBackoff_bounded always_fails 3 world0 H)).
Defined.

(* ================================================================== *)
(** * Further properties of the sources *)

(* ------------------------------------------------------------------ *)
(** ** Conversions and draws *)

(** Truncation of a non-negative float keeps integer bounds. *)
Lemma int64_of_float_between (x : Q) (a b : Z) :
  0 <= a -> b <= max_int64 + 1 ->
  (inject_Z a <= x)%Q -> (x < inject_Z b)%Q ->
  a <= int64_of_float (Some x) < b.
Proof.
  intros Ha Hb Hax Hxb. destruct x as [n d].
  unfold Qle, Qlt in *. cbn [Qnum Qden inject_Z] in *.
  assert (Hn : 0 <= a * Z.pos d) by (apply Z.mul_nonneg_nonneg; lia).
  assert (Hq : Z.quot n (Z.pos d) = n / Z.pos d)
    by (apply Z.quot_div_nonneg; lia).
  assert (Hlo : a <= n / Z.pos d) by (apply Z.div_le_lower_bound; lia).
  assert (Hhi : n / Z.pos d < b) by (apply Z.div_lt_upper_bound; lia).
  unfold int64_of_float. cbn [Qnum Qden]. rewrite Hq.
  unfold min_int64, max_int64 in *. pow2.
  match goal with
  | |- context [(?x <=? ?y) && (?u <=? ?v)] =>
      destruct (Z.leb_spec x y); destruct (Z.leb_spec u v)
  end; cbn [andb]; lia.
Qed.

Lemma int64_of_float_upto (x : Q) (a b : Z) :
  0 <= a -> b <= max_int64 ->
  (inject_Z a <= x)%Q -> (x <= inject_Z b)%Q ->
  a <= int64_of_float (Some x) <= b.
Proof.
  intros Ha Hb Hax Hxb. destruct x as [n d].
  unfold Qle in *. cbn [Qnum Qden inject_Z] in *.
  assert (Hn : 0 <= a * Z.pos d) by (apply Z.mul_nonneg_nonneg; lia).
  assert (Hq : Z.quot n (Z.pos d) = n / Z.pos d)
    by (apply Z.quot_div_nonneg; lia).
  assert (Hlo : a <= n / Z.pos d) by (apply Z.div_le_lower_bound; lia).
  assert (Hhi : n / Z.pos d <= b) by (apply Z.div_le_upper_bound; lia).
  unfold int64_of_float. cbn [Qnum Qden]. rewrite Hq.
  unfold min_int64, max_int64 in *. pow2.
  match goal with
  | |- context [(?x <=? ?y) && (?u <=? ?v)] =>
      destruct (Z.leb_spec x y); destruct (Z.leb_spec u v)
  end; cbn [andb]; lia.
Qed.

(** [rng.Float64()] returns a value of [0, 1). *)
Lemma Float64_range (w : World) :
  exists q, rand.Float64 w = (Val (Some q), after w RngInt63)
            /\ (0 <= q)%Q /\ (q < 1)%Q.
Proof.
  unfold rand.Float64, bind. destruct (Int63_run w) as (r & -> & _).
  eexists. split; [reflexivity|].
  pose proof (Z.mod_pos_bound r (2 ^ 53) ltac:(pow2; lia)) as Hm.
  unfold Qle, Qlt. cbn [Qnum Qden]. split.
  - lia.
  - rewrite Z2Pos.id by (pow2; lia). lia.
Qed.

Ltac zcmp := vm_compute; repeat split; discriminate.

(* ------------------------------------------------------------------ *)
(** ** Delays *)

(** The pause between two points of a mouse path: for a progress in
    [0, 1] it lies between 6.666666 ms (in the middle of the path) and
    20 ms (at its ends). *)
Theorem calculateMouseDelay_range (p : Q) :
  (0 <= p)%Q -> (p <= 1)%Q ->
  6666666 <= stealth.calculateMouseDelay (Some p) <= 20000000.
Proof.
  intros H0 H1. unfold stealth.calculateMouseDelay.
  cbn [fconst fmul fsub fabs fadd flift2 option_map fofZ].
  set (y := (1 - Qabs (2 * p - 1) + 0.5)%Q).
  assert (Hy : (0.5 <= y)%Q /\ (y <= 1.5)%Q).
  { pose proof (Qabs_nonneg (2 * p - 1)) as Ha.
    assert (Hb : (Qabs (2 * p - 1) <= 1)%Q) by (apply Qabs_Qle_condition; split; lra).
    unfold y. split; lra. }
  destruct Hy as [Hy1 Hy2].
  unfold fdiv.
  destruct (Qeq_bool y 0) eqn:E.
  { apply Qeq_bool_iff in E. lra. }
  apply int64_of_float_upto.
  - lia.
  - vm_compute. discriminate.
  - apply Qle_shift_div_l; [lra|].
    change (inject_Z (10 * Millisecond)) with (10000000 # 1)%Q.
    change (inject_Z 6666666) with (6666666 # 1)%Q. lra.
  - apply Qle_shift_div_r; [lra|].
    change (inject_Z (10 * Millisecond)) with (10000000 # 1)%Q.
    change (inject_Z 20000000) with (20000000 # 1)%Q. lra.
Qed.

Lemma calculateMouseDelay_range_witness :
  6666666 <= stealth.calculateMouseDelay (Some 0.5%Q) <= 20000000.
Proof.
  apply (calculateMouseDelay_range 0.5%Q); unfold Qle; cbn; lia.
Defined.

Lemma keystroke_factor (base : Z) (g : Q) :
  150 * Millisecond <= base < 800 * Millisecond ->
  (0 <= g)%Q -> (g < 1)%Q ->
  90 * Millisecond
  <= int64_of_float
       (fmul (fofZ base)
             (fadd (fconst 1)
                   (fmul (fsub (fmul (Some g) (fconst 2)) (fconst 1))
                         (fconst 0.4))))
  < 1120 * Millisecond.
Proof.
  intros Hb Hg0 Hg1.
  cbn [fconst fmul fsub fadd flift2 fofZ].
  assert (B1 : (inject_Z (150 * Millisecond) <= inject_Z base)%Q)
    by (rewrite <- Zle_Qle; lia).
  assert (B2 : (inject_Z base < inject_Z (800 * Millisecond))%Q)
    by (rewrite <- Zlt_Qlt; lia).
  change (inject_Z (150 * Millisecond)) with (150000000 # 1)%Q in B1.
  change (inject_Z (800 * Millisecond)) with (800000000 # 1)%Q in B2.
  set (B := inject_Z base) in *.
  apply int64_of_float_between.
  - vm_compute. discriminate.
  - vm_compute. discriminate.
  - change (inject_Z (90 * Millisecond)) with (90000000 # 1)%Q. nra.
  - change (inject_Z (1120 * Millisecond)) with (1120000000 # 1)%Q. nra.
Qed.

Lemma stealth_calculateKeystrokeDelay_range (position totalLength : Z) (w : World) :
  exists d w',
    stealth.calculateKeystrokeDelay position totalLength w = (Val d, w')
    /\ 90 * Millisecond <= d < 1120 * Millisecond.
Proof.
  unfold stealth.calculateKeystrokeDelay. cbv zeta.
  rewrite bind_run. destruct (Float64_range w) as (f & -> & _ & _).
  set (base := if position <? 5 then 200 * Millisecond else 150 * Millisecond).
  assert (Hbase : 150 * Millisecond <= base < 800 * Millisecond)
    by (unfold base; destruct (position <? 5); zcmp).
  rewrite bind_run.
  assert (Hb : exists b w1,
             (if fltb (Some f) (fconst 0.1)
              then stealth.RandomDelay (300 * Millisecond) (800 * Millisecond)
              else ret base) (after w RngInt63) = (Val b, w1)
             /\ 150 * Millisecond <= b < 800 * Millisecond).
  { destruct (fltb (Some f) (fconst 0.1)).
    - destruct (RandomDelay_run (after w RngInt63) (300 * Millisecond) (800 * Millisecond)
                ltac:(zcmp) ltac:(zcmp) ltac:(zcmp) ltac:(zcmp))
      as (d & E & Hd).
      exists d, (after (after w RngInt63) RngInt63). split; [exact E|].
      revert Hd. unfold Millisecond, Microsecond, Nanosecond. lia.
    - exists base, (after w RngInt63). split; [reflexivity|exact Hbase]. }
  destruct Hb as (b & w1 & -> & Hb).
  rewrite bind_run. destruct (Float64_range w1) as (g & -> & Hg0 & Hg1).
  eexists _, _. split; [reflexivity|].
  apply keystroke_factor; assumption.
Qed.

Lemma Seconds_fraction (d : Duration) :
  0 <= d < Second ->
  exists g, connection.Seconds d = Some g /\ (0 <= g)%Q /\ (g < 1)%Q.
Proof.
  intros Hd. unfold connection.Seconds.
  rewrite Z.quot_small, Z.rem_small by lia.
  cbn [fofZ fconst fdiv fadd flift2].
  change (Qeq_bool 1000000000 0) with false. cbv iota.
  eexists. split; [reflexivity|].
  assert (H0 : (inject_Z 0 <= inject_Z d)%Q) by (rewrite <- Zle_Qle; lia).
  assert (H1 : (inject_Z d < inject_Z Second)%Q) by (rewrite <- Zlt_Qlt; lia).
  change (inject_Z Second) with (1000000000 # 1)%Q in H1.
  change (inject_Z 0) with 0%Q in *.
  set (D := inject_Z d) in *.
  split.
  - assert (0 <= D / 1000000000)%Q by (apply Qle_shift_div_l; lra). lra.
  - assert (D / 1000000000 < 1)%Q by (apply Qlt_shift_div_r; lra). lra.
Qed.

Lemma connection_calculateKeystrokeDelay_range (position totalLength : Z) (w : World) :
  exists d w',
    connection.calculateKeystrokeDelay position totalLength w = (Val d, w')
    /\ 90 * Millisecond <= d < 1120 * Millisecond.
Proof.
  unfold connection.calculateKeystrokeDelay. cbv zeta.
  rewrite bind_run.
  destruct (RandomDelay_run w 0 (100 * Millisecond)
                ltac:(zcmp) ltac:(zcmp) ltac:(zcmp) ltac:(zcmp))
      as (p & -> & _).
  set (base := if position <? 3 then 200 * Millisecond else 150 * Millisecond).
  assert (Hbase : 150 * Millisecond <= base < 800 * Millisecond)
    by (unfold base; destruct (position <? 3); zcmp).
  rewrite bind_run.
  assert (Hb : exists b w1,
             (if p <? 10 * Millisecond
              then stealth.RandomDelay (300 * Millisecond) (800 * Millisecond)
              else ret base) (after w RngInt63) = (Val b, w1)
             /\ 150 * Millisecond <= b < 800 * Millisecond).
  { destruct (p <? 10 * Millisecond).
    - destruct (RandomDelay_run (after w RngInt63) (300 * Millisecond) (800 * Millisecond)
                ltac:(zcmp) ltac:(zcmp) ltac:(zcmp) ltac:(zcmp))
      as (d & E & Hd).
      exists d, (after (after w RngInt63) RngInt63). split; [exact E|].
      revert Hd. unfold Millisecond, Microsecond, Nanosecond. lia.
    - exists base, (after w RngInt63). split; [reflexivity|exact Hbase]. }
  destruct Hb as (b & w1 & -> & Hb).
  rewrite bind_run.
  destruct (RandomDelay_run w1 0 Second
                ltac:(zcmp) ltac:(zcmp) ltac:(zcmp) ltac:(zcmp))
      as (g & -> & Hg).
  destruct (Seconds_fraction g Hg) as (q & -> & Hq0 & Hq1).
  eexists _, _. split; [reflexivity|].
  apply keystroke_factor; assumption.
Qed.

(** The delay between two keystrokes, in the stealth package and in the
    connection package alike, is at least 90 ms and less than 1120 ms,
    whatever the position and the draws. *)
Theorem calculateKeystrokeDelay_range (position totalLength : Z) (w : World) :
  (exists d w',
      stealth.calculateKeystrokeDelay position totalLength w = (Val d, w')
      /\ 90 * Millisecond <= d < 1120 * Millisecond)
  /\ (exists d w',
         connection.calculateKeystrokeDelay position totalLength w = (Val d, w')
         /\ 90 * Millisecond <= d < 1120 * Millisecond).
Proof.
  split.
  - apply stealth_calculateKeystrokeDelay_range.
  - apply connection_calculateKeystrokeDelay_range.
Qed.

Lemma int64_of_float_nonpos (x : Q) : (x <= 0)%Q -> int64_of_float (Some x) <= 0.
Proof.
  destruct x as [n d]. unfold Qle. cbn [Qnum Qden]. intros H.
  unfold int64_of_float. cbn [Qnum Qden].
  assert (Hq : Z.quot n (Z.pos d) <= 0).
  { rewrite <- (Z.opp_involutive n), Z.quot_opp_l by lia.
    pose proof (Z.quot_pos (- n) (Z.pos d)). lia. }
  match goal with
  | |- context [(?x <=? ?y) && (?u <=? ?v)] =>
      destruct ((x <=? y) && (u <=? v))
  end; [exact Hq|vm_compute; discriminate].
Qed.

Lemma ShouldAddNote_run (rate : Q) (w : World) :
  exists ms,
    0 <= ms < 100
    /\ (d <- stealth.RandomDelay 0 (100 * Millisecond) ;;
        ret (Milliseconds d <? int64_of_float (fmul (fconst rate) (fconst 100)))) w
       = (Val (ms <? int64_of_float (Some (rate * 100)%Q)), after w RngInt63).
Proof.
  rewrite bind_run.
  destruct (RandomDelay_run w 0 (100 * Millisecond)
                ltac:(zcmp) ltac:(zcmp) ltac:(zcmp) ltac:(zcmp))
      as (d & -> & Hd).
  exists (Milliseconds d). split; [|reflexivity].
  unfold Milliseconds.
  change (100 * Millisecond) with (100 * 1000000) in Hd.
  split.
  - apply Z.quot_pos; lia.
  - apply Z.quot_lt_upper_bound; lia.
Qed.

(** ShouldAddNote at the ends of the personalization rate: with a rate of
    zero or less no note is ever added, with a rate of one or more (as long
    as a hundred times the rate fits an int64) a note is always added. *)
Theorem ShouldAddNote_rate (cfg : config.Config) (w : World) :
  let rate := config.PersonalizationRate (config.Connection cfg) in
  ((rate <= 0)%Q ->
   connection.ShouldAddNote cfg w = (Val false, after w RngInt63)
   /\ connection_rev.ShouldAddNote cfg w = (Val false, after w RngInt63))
  /\ ((1 <= rate)%Q -> (rate * 100 < inject_Z (2 ^ 63))%Q ->
      connection.ShouldAddNote cfg w = (Val true, after w RngInt63)
      /\ connection_rev.ShouldAddNote cfg w = (Val true, after w RngInt63)).
Proof.
  intros rate.
  unfold connection.ShouldAddNote, connection_rev.ShouldAddNote. cbv zeta.
  fold rate. destruct (ShouldAddNote_run rate w) as (ms & Hms & ->).
  split.
  - intros Hr.
    assert (Ht : int64_of_float (Some (rate * 100)%Q) <= 0)
      by (apply int64_of_float_nonpos; lra).
    destruct (Z.ltb_spec ms (int64_of_float (Some (rate * 100)%Q))); [lia|].
    split; reflexivity.
  - intros Hr Hmax.
    assert (Ht : 100 <= int64_of_float (Some (rate * 100)%Q) < 2 ^ 63).
    { apply int64_of_float_between;
        [lia|vm_compute; discriminate| |exact Hmax].
      change (inject_Z 100) with (100 # 1)%Q. lra. }
    destruct (Z.ltb_spec ms (int64_of_float (Some (rate * 100)%Q))); [|lia].
    split; reflexivity.
Qed.

(** The reading pause is a whole number of milliseconds, between 186 and 347
    for each word of five characters; content of less than five characters
    takes no time. *)
Theorem ReadingDelay_range (contentLength : Z) (w : World) :
  0 <= contentLength <= 100000000000 ->
  let words := contentLength / 5 in
  exists ms,
    stealth.ReadingDelay contentLength w = (Val (ms * Millisecond), after w RngInt63)
    /\ 186 * words <= ms <= 347 * words.
Proof.
  intros Hn words. unfold stealth.ReadingDelay. cbv zeta.
  rewrite bind_run. destruct (Float64_range w) as (r & -> & Hr0 & Hr1).
  rewrite Z.quot_div_nonneg by lia. fold words.
  assert (Hw : 0 <= words <= 20000000000).
  { unfold words. split; [apply Z.div_pos; lia|].
    apply Z.div_le_upper_bound; lia. }
  cbn [fconst fmul fsub fadd flift2 fofZ fdiv].
  change (Qeq_bool 225 0) with false. cbv iota.
  set (x := (inject_Z words * (60000 / 225) * (1 + (r * 2 - 1) * 0.3))%Q).
  assert (W0 : (inject_Z 0 <= inject_Z words)%Q) by (rewrite <- Zle_Qle; lia).
  change (inject_Z 0) with 0%Q in W0.
  assert (Hx : 186 * words <= int64_of_float (Some x) <= 347 * words).
  { apply int64_of_float_upto.
    - lia.
    - unfold max_int64. pow2. lia.
    - rewrite inject_Z_mult. unfold x.
      change (inject_Z 186) with (186 # 1)%Q.
      setoid_replace (60000 / 225)%Q with (800 # 3)%Q by reflexivity.
      set (W := inject_Z words) in *. nra.
    - rewrite inject_Z_mult. unfold x.
      change (inject_Z 347) with (347 # 1)%Q.
      setoid_replace (60000 / 225)%Q with (800 # 3)%Q by reflexivity.
      set (W := inject_Z words) in *. nra. }
  exists (int64_of_float (Some x)). split; [|exact Hx].
  unfold ret. f_equal. f_equal. apply wrap64_id.
  unfold int64, min_int64, max_int64, Millisecond, Microsecond, Nanosecond.
  pow2. lia.
Qed.

Lemma ReadingDelay_range_witness :
  exists ms,
    stealth.ReadingDelay 1000 world0 = (Val (ms * Millisecond), after world0 RngInt63)
    /\ 186 * (1000 / 5) <= ms <= 347 * (1000 / 5).
Proof.
  apply (ReadingDelay_range 1000 world0). lia.
Defined.

(* ------------------------------------------------------------------ *)
(** ** Typos *)

Lemma lookup_In (m : list (rune * list rune)) (k : rune) (v : list rune) :
  stealth.lookup m k = Some v -> In (k, v) m.
Proof.
  induction m as [|[k' v'] m IH]; cbn [stealth.lookup]; [discriminate|].
  destruct (Z.eqb_spec k' k) as [->|_].
  - intros H. inversion H. left. reflexivity.
  - intros H. right. apply IH, H.
Qed.

Lemma lookup_neighbours (m : list (rune * list rune)) (k : rune) (v : list rune) :
  neighbours_ok m = true -> stealth.lookup m k = Some v ->
  97 <= k <= 122
  /\ 0 < Z.of_nat (List.length v) <= 6
  /\ forall x, In x v -> 97 <= x <= 122 /\ x <> k.
Proof.
  intros Hm Hl. apply lookup_In in Hl.
  unfold neighbours_ok in Hm. rewrite forallb_forall in Hm.
  specialize (Hm _ Hl). cbn [fst snd] in Hm.
  rewrite !andb_true_iff in Hm. destruct Hm as ((((K1 & K2) & L1) & L2) & Hv).
  rewrite forallb_forall in Hv.
  apply Z.leb_le in K1, K2, L2. apply Z.ltb_lt in L1.
  split; [lia|]. split; [split; assumption|].
  intros x Hx. specialize (Hv x Hx). rewrite !andb_true_iff in Hv.
  destruct Hv as ((X1 & X2) & X3). apply negb_true_iff in X3.
  apply Z.eqb_neq in X3. apply Z.leb_le in X1, X2. lia.
Qed.

Lemma lookup_letters (m : list (rune * list rune)) (k : rune) :
  neighbours_ok m = true -> ~ 97 <= k <= 122 -> stealth.lookup m k = None.
Proof.
  intros Hm Hk. destruct (stealth.lookup m k) as [v|] eqn:E; [|reflexivity].
  destruct (lookup_neighbours m k v Hm E) as (H & _). contradiction.
Qed.

Lemma stealth_typoMap_total (k : rune) :
  97 <= k <= 122 -> exists v, stealth.lookup stealth.typoMap k = Some v.
Proof.
  intros Hk.
  assert (Hin : In k (map Z.of_nat (seq 97 26))).
  { apply in_map_iff. exists (Z.to_nat k). split; [lia|]. apply in_seq. lia. }
  simpl in Hin.
  repeat (destruct Hin as [<-|Hin]; [eexists; vm_compute; reflexivity|]).
  contradiction.
Qed.

Lemma connection_typoMap_total (k : rune) :
  97 <= k <= 122 -> k <> 113 ->
  exists v, stealth.lookup connection.typoMap k = Some v.
Proof.
  intros Hk Hq.
  assert (Hin : In k (map Z.of_nat (seq 97 26))).
  { apply in_map_iff. exists (Z.to_nat k). split; [lia|]. apply in_seq. lia. }
  simpl in Hin.
  repeat (destruct Hin as [<-|Hin];
          [try (exfalso; apply Hq; reflexivity); eexists; vm_compute; reflexivity|]).
  contradiction.
Qed.

(** A typo for a letter is a lower-case letter other than the letter itself
    (so an upper-case letter is mistyped in lower case); a character that is
    no letter is returned as it is, without a draw.  The table of the
    connection package has no entry for the letter q, which is never
    mistyped there. *)
Theorem randomTypo_neighbour (char : rune) (w : World) :
  let lower := stealth.lowerChar char in
  (97 <= lower <= 122 ->
   exists r, stealth.randomTypo char w = (Val r, after w RngInt63)
             /\ 97 <= r <= 122 /\ r <> lower)
  /\ (97 <= lower <= 122 -> lower <> 113 ->
      exists r, connection.randomTypo char w = (Val r, after w RngInt63)
                /\ 97 <= r <= 122 /\ r <> lower)
  /\ (~ 97 <= lower <= 122 ->
      stealth.randomTypo char w = (Val char, w)
      /\ connection.randomTypo char w = (Val char, w))
  /\ (lower = 113 -> connection.randomTypo char w = (Val char, w)).
Proof.
  intros lower.
  assert (S1 : neighbours_ok stealth.typoMap = true) by (vm_compute; reflexivity).
  assert (S2 : neighbours_ok connection.typoMap = true) by (vm_compute; reflexivity).
  split; [|split; [|split]].
  - intros Hl. unfold stealth.randomTypo. fold lower.
    destruct (stealth_typoMap_total lower Hl) as (v & E). rewrite E.
    destruct (lookup_neighbours _ _ _ S1 E) as (_ & Hlen & Hv).
    destruct (Z.ltb_spec 0 (Z.of_nat (List.length v))); [|lia].
    rewrite bind_run.
    destruct (Intn_run w (Z.of_nat (List.length v))) as (i & -> & Hi); [lia|].
    eexists. split; [reflexivity|].
    apply Hv, nth_In. lia.
  - intros Hl Hq. unfold connection.randomTypo. fold lower.
    destruct (connection_typoMap_total lower Hl Hq) as (v & E). rewrite E.
    destruct (lookup_neighbours _ _ _ S2 E) as (_ & Hlen & Hv).
    cbv zeta.
    destruct (Z.ltb_spec 0 (Z.of_nat (List.length v))); [|lia].
    set (n := Z.of_nat (List.length v)) in *.
    assert (Hn : wrap64 (n * Millisecond) = n * 1000000).
    { apply wrap64_id. unfold int64, min_int64, max_int64.
      unfold Millisecond, Microsecond, Nanosecond. pow2. lia. }
    rewrite Hn, bind_run.
    destruct (RandomDelay_run w 0 (n * 1000000)) as (d & -> & Hd).
    { zcmp. }
    { unfold int64, min_int64, max_int64. pow2. lia. }
    { lia. }
    { unfold max_int64. pow2. lia. }
    eexists. split; [reflexivity|].
    apply Hv, nth_In.
    assert (Hms : 0 <= Milliseconds d < n).
    { unfold Milliseconds. split; [apply Z.quot_pos; lia|].
      apply Z.quot_lt_upper_bound; lia. }
    rewrite Z.rem_small by lia. unfold n in Hms. lia.
  - intros Hl. unfold stealth.randomTypo, connection.randomTypo. fold lower.
    rewrite (lookup_letters _ _ S1 Hl), (lookup_letters _ _ S2 Hl).
    split; reflexivity.
  - intros Hq. unfold connection.randomTypo. fold lower. rewrite Hq.
    reflexivity.
Qed.

(* ------------------------------------------------------------------ *)
(** ** The storage layer *)

Lemma time_Now_run (w : World) : time_Now w = (Val (reading w), after w Now).
Proof.
  unfold time_Now, reading. rewrite bind_run. reflexivity.
Qed.

Lemma countb_app {A} (p : A -> bool) (l1 l2 : list A) :
  storage.countb p (l1 ++ l2) = storage.countb p l1 + storage.countb p l2.
Proof.
  unfold storage.countb. rewrite filter_app, length_app. lia.
Qed.

Lemma countb_positive {A} (p : A -> bool) (l : list A) :
  (storage.countb p l >? 0) = true <-> exists x, In x l /\ p x = true.
Proof.
  unfold storage.countb. split.
  - intros H. destruct (filter p l) as [|x l'] eqn:E.
    + simpl in H. discriminate.
    + exists x. apply filter_In. rewrite E. left. reflexivity.
  - intros (x & Hin & Hp).
    assert (Hf : In x (filter p l)) by (apply filter_In; split; assumption).
    destruct (filter p l); [contradiction|].
    simpl List.length. apply Z.gtb_lt. lia.
Qed.

(** A statement either succeeds or fails with an error. *)
Lemma statement_cases (fn : string) (w : World) :
  call_err (Sql fn) w = (Val None, after w (Sql fn))
  \/ exists e, call_err (Sql fn) w = (Val (Some e), after w (Sql fn)).
Proof.
  destruct (call_err_cases (Sql fn) w) as [[_ H]|H]; [left|right]; exact H.
Qed.

(** Outcome of a storage function that asks for a statement first. *)
Lemma RecordMessage_run (msg : Message) (w : World) :
  let w1 := after w (Sql "RecordMessage") in
  (env w (trace w) (Sql "RecordMessage") = ROk ->
   storage.RecordMessage msg w
   = (Val None,
      {| env := env w1; math := math w1; trace := trace w1;
         db := {| connection_requests := connection_requests (db w);
                  messages := messages (db w) ++ [msg];
                  actions := actions (db w) |} |}))
  /\ (env w (trace w) (Sql "RecordMessage") <> ROk ->
      exists e, storage.RecordMessage msg w
                = (Val (Some (Wrap "failed to record message" e)), w1)).
Proof.
  intros w1. unfold storage.RecordMessage, orWrap.
  rewrite bind_run, call_err_run. split.
  - intros ->. reflexivity.
  - intros H. destruct (env w (trace w) (Sql "RecordMessage"));
      try contradiction; eexists; reflexivity.
Qed.

Lemma HasSentMessage_spec (url : string) (w : World) :
  (forall b w1, storage.HasSentMessage url w = (Val (b, None), w1) ->
                db w1 = db w /\ (b = true <-> recorded url (db w)))
  /\ (forall b e w1, storage.HasSentMessage url w = (Val (b, Some e), w1) ->
                     b = false /\ db w1 = db w).
Proof.
  split.
  - intros b w1. unfold storage.HasSentMessage.
    rewrite bind_run, call_err_run.
    destruct (env w (trace w) (Sql "HasSentMessage")); cbn;
      intros H; inversion H; subst; clear H.
    split; [reflexivity|].
    rewrite countb_positive. unfold recorded. split.
    + intros (m & Hin & Hm). exists m. split; [exact Hin|].
      apply String.eqb_eq, Hm.
    + intros (m & Hin & Hm). exists m. split; [exact Hin|].
      apply String.eqb_eq, Hm.
  - intros b e w1. unfold storage.HasSentMessage.
    rewrite bind_run, call_err_run.
    destruct (env w (trace w) (Sql "HasSentMessage")); cbn;
      intros H; inversion H; subst; clear H; split; reflexivity.
Qed.

(** Messages, recorded and looked up.  A successful RecordMessage appends
    the message and touches nothing else; a failed one changes nothing.
    HasSentMessage never changes the store; when its query succeeds it
    answers true exactly when a message for the URL is recorded, and when
    the query fails it answers false with the error.  Hence a lookup of its
    URL that follows a successful record answers true. *)
Theorem message_round_trip (msg : Message) (url : string) (w : World) :
  (forall w1, storage.RecordMessage msg w = (Val None, w1) ->
              messages (db w1) = messages (db w) ++ [msg]
              /\ connection_requests (db w1) = connection_requests (db w)
              /\ actions (db w1) = actions (db w))
  /\ (forall e w1, storage.RecordMessage msg w = (Val (Some e), w1) ->
                   db w1 = db w)
  /\ (forall b w1, storage.HasSentMessage url w = (Val (b, None), w1) ->
                   db w1 = db w /\ (b = true <-> recorded url (db w)))
  /\ (forall b e w1, storage.HasSentMessage url w = (Val (b, Some e), w1) ->
                     b = false /\ db w1 = db w)
  /\ (forall w1 b w2,
         storage.RecordMessage msg w = (Val None, w1) ->
         storage.HasSentMessage (m_ProfileURL msg) w1 = (Val (b, None), w2) ->
         b = true).
Proof.
  destruct (RecordMessage_run msg w) as [Hok Hfail]. cbv zeta in Hok, Hfail.
  assert (Hrec : forall w1, storage.RecordMessage msg w = (Val None, w1) ->
                            messages (db w1) = messages (db w) ++ [msg]
                            /\ connection_requests (db w1) = connection_requests (db w)
                            /\ actions (db w1) = actions (db w)).
  { intros w1 H.
    destruct (env w (trace w) (Sql "RecordMessage")) eqn:E;
      try (destruct (Hfail ltac:(discriminate)) as (x & He); rewrite He in H;
           discriminate).
    rewrite Hok in H by reflexivity. inversion H; subst; clear H. cbn.
    repeat split; reflexivity. }
  split; [exact Hrec|]. split; [|split; [|split]].
  - intros e w1 H.
    destruct (env w (trace w) (Sql "RecordMessage")) eqn:E;
      try (destruct (Hfail ltac:(discriminate)) as (x & He); rewrite He in H;
           inversion H; subst; reflexivity).
    rewrite Hok in H by reflexivity. discriminate.
  - apply HasSentMessage_spec.
  - apply HasSentMessage_spec.
  - intros w1 b w2 H1 H2. destruct (Hrec w1 H1) as (Hm & _).
    apply (proj1 (HasSentMessage_spec _ w1)) in H2. destruct H2 as [_ H2].
    apply H2. exists msg. split; [|reflexivity].
    rewrite Hm. apply in_or_app. right. left. reflexivity.
Qed.


Lemma insert_desc_perm (r : ConnectionRequest) (l : list ConnectionRequest) :
  Permutation (storage.insert_desc r l) (r :: l).
Proof.
  induction l as [|x l IH]; cbn [storage.insert_desc]; [reflexivity|].
  destruct (cr_SentAt x <? cr_SentAt r); [reflexivity|].
  rewrite IH. apply perm_swap.
Qed.


Lemma sort_desc_perm (l : list ConnectionRequest) :
  Permutation (fold_right storage.insert_desc [] l) l.
Proof.
  induction l as [|x l IH]; cbn [fold_right]; [reflexivity|].
  rewrite insert_desc_perm. constructor. exact IH.
Qed.






Lemma MarkRequestAccepted_run (url : string) (w : World) :
  let hit r := String.eqb (cr_ProfileURL r) url && negb (cr_Accepted r) in
  let accept r := if hit r
                  then {| cr_ProfileURL := cr_ProfileURL r; cr_Note := cr_Note r;
                          cr_SentAt := cr_SentAt r; cr_Accepted := true |}
                  else r in
  let w1 := after w (Sql "MarkRequestAccepted") in
  (exists e, storage.MarkRequestAccepted url w
             = (Val (Some (Wrap "failed to mark request accepted" e)), w1))
  \/ storage.MarkRequestAccepted url w
     = (Val (if storage.countb hit (connection_requests (db w)) =? 0
             then Some (Err ("no pending request found for profile URL: " ++ url)%string)
             else None),
        {| env := env w1; math := math w1; trace := trace w1;
           db := {| connection_requests := map accept (connection_requests (db w));
                    messages := messages (db w); actions := actions (db w) |} |}).
Proof.
  intros hit accept w1. unfold storage.MarkRequestAccepted, orWrap.
  rewrite bind_run.
  destruct (statement_cases "MarkRequestAccepted" w) as [->|(x & ->)].
  - right. cbn. fold hit.
    destruct (storage.countb hit (connection_requests (db w)) =? 0); reflexivity.
  - left. exists x. reflexivity.
Qed.


(** Actions, recorded and counted.  A successful RecordAction stamps an
    action of the given type with its clock reading: every count of that
    type over a period that contains the stamp grows by one, and no count of
    another type changes.  GetActionsInLastHour counts the actions of the
    type stamped in the hour before its clock reading, GetActionsToday those
    of the day of its reading; neither changes the store. *)
Theorem action_counted (ty : string) (w : World) :
  let stamp := reading (after w (Sql "RecordAction")) in
  (forall w1,
      storage.RecordAction ty w = (Val None, w1) ->
      (forall ty' t,
          actions_since ty' t (db w1)
          = actions_since ty' t (db w)
            + (if String.eqb ty ty' && (t <=? stamp) then 1 else 0))
      /\ (forall ty' day,
             actions_on ty' day (db w1)
             = actions_on ty' day (db w)
               + (if String.eqb ty ty' && (storage.DATE stamp =? day) then 1 else 0))
      /\ connection_requests (db w1) = connection_requests (db w)
      /\ messages (db w1) = messages (db w))
  /\ (forall e w1, storage.RecordAction ty w = (Val (Some e), w1) -> db w1 = db w)
  /\ (forall count w1,
         storage.GetActionsInLastHour ty w = (Val (count, None), w1) ->
         db w1 = db w
         /\ count = actions_since
                      ty (reading (after w (Sql "GetActionsInLastHour")) - 3600) (db w))
  /\ (forall count w1,
         storage.GetActionsToday ty w = (Val (count, None), w1) ->
         db w1 = db w
         /\ count = actions_on
                      ty (storage.DATE (reading (after w (Sql "GetActionsToday")))) (db w)).
Proof.
  intros stamp. split; [|split; [|split]].
  - intros w1. unfold storage.RecordAction, orWrap. rewrite bind_run.
    destruct (statement_cases "RecordAction" w) as [->|(e & ->)]; [|discriminate].
    cbv iota beta. rewrite bind_run, time_Now_run. fold stamp. cbn.
    intros H. inversion H; subst; clear H. cbn.
    split; [|split; [|split; reflexivity]].
    + intros ty' t. unfold actions_since. cbn. rewrite countb_app. f_equal.
      unfold storage.countb. cbn.
      destruct (String.eqb ty ty' && (t <=? stamp)); reflexivity.
    + intros ty' day. unfold actions_on. cbn. rewrite countb_app. f_equal.
      unfold storage.countb. cbn.
      destruct (String.eqb ty ty' && (storage.DATE stamp =? day)); reflexivity.
  - intros e w1. unfold storage.RecordAction, orWrap. rewrite bind_run.
    destruct (statement_cases "RecordAction" w) as [->|(x & ->)].
    + cbv iota beta. rewrite bind_run, time_Now_run. cbn. discriminate.
    + cbn. intros H. inversion H; subst. reflexivity.
  - intros count w1. unfold storage.GetActionsInLastHour. rewrite bind_run.
    destruct (statement_cases "GetActionsInLastHour" w) as [->|(x & ->)].
    + rewrite bind_run, time_Now_run. cbn.
      intros H. inversion H; subst. split; reflexivity.
    + cbn. discriminate.
  - intros count w1. unfold storage.GetActionsToday. rewrite bind_run.
    destruct (statement_cases "GetActionsToday" w) as [->|(x & ->)].
    + rewrite bind_run, time_Now_run. cbn.
      intros H. inversion H; subst. split; reflexivity.
    + cbn. discriminate.
Qed.

Lemma countb_filter {A} (p q : A -> bool) (l : list A) :
  (forall x, In x l -> p x = true -> q x = true) ->
  storage.countb p (filter q l) = storage.countb p l.
Proof.
  unfold storage.countb. intros H. f_equal. f_equal.
  induction l as [|x l IH]; [reflexivity|]. cbn [filter].
  assert (IH' : filter p (filter q l) = filter p l)
    by (apply IH; intros y Hy; apply H; right; exact Hy).
  destruct (q x) eqn:Eq.
  - cbn [filter]. rewrite IH'. reflexivity.
  - destruct (p x) eqn:Ep; [|exact IH'].
    rewrite (H x) in Eq by (try left; auto). discriminate.
Qed.

(** CleanupOldActions keeps exactly the actions stamped within the thirty
    days before its clock reading, so every count over a period that starts
    within these thirty days is unchanged; requests and messages are not
    touched, and a failed cleanup changes nothing. *)
Theorem CleanupOldActions_keeps_recent (w : World) :
  let now := reading (after w (Sql "CleanupOldActions")) in
  (forall w1,
      storage.CleanupOldActions w = (Val None, w1) ->
      (forall a, In a (actions (db w1)) <->
                 In a (actions (db w)) /\ now - 30 * 86400 <= a_Timestamp a)
      /\ (forall ty t, now - 30 * 86400 <= t ->
                       actions_since ty t (db w1) = actions_since ty t (db w))
      /\ (forall ty day, storage.DATE (now - 30 * 86400) < day ->
                         actions_on ty day (db w1) = actions_on ty day (db w))
      /\ connection_requests (db w1) = connection_requests (db w)
      /\ messages (db w1) = messages (db w))
  /\ (forall e w1, storage.CleanupOldActions w = (Val (Some e), w1) -> db w1 = db w).
Proof.
  intros now. split.
  - intros w1. unfold storage.CleanupOldActions, orWrap. rewrite bind_run.
    destruct (statement_cases "CleanupOldActions" w) as [->|(e & ->)]; [|discriminate].
    cbv iota beta. rewrite bind_run, time_Now_run. fold now. cbn.
    intros H. inversion H; subst; clear H. cbn.
    split; [|split; [|split; [|split; reflexivity]]].
    + intros a. rewrite filter_In.
      match goal with
      | |- context [negb (?x <? ?y)] => destruct (Z.ltb_spec x y)
      end; cbn;
        split; intros [H1 H2]; (split; [exact H1|]); try lia; try reflexivity;
        discriminate.
    + intros ty t Ht. unfold actions_since. cbn. apply countb_filter.
      intros a _ Ha. apply andb_true_iff in Ha. destruct Ha as [_ Ha].
      apply Z.leb_le in Ha.
      match goal with
      | |- negb (?x <? ?y) = true => destruct (Z.ltb_spec x y); [lia|reflexivity]
      end.
    + intros ty day Hd. unfold actions_on. cbn. apply countb_filter.
      intros a _ Ha. apply andb_true_iff in Ha. destruct Ha as [_ Ha].
      apply Z.eqb_eq in Ha.
      match goal with
      | |- negb (?x <? ?y) = true =>
          destruct (Z.ltb_spec x y) as [Hlt|Hge]; [|reflexivity]
      end.
      exfalso. unfold storage.DATE in *.
      pose proof (Z.div_le_mono _ _ 86400 ltac:(lia) (Z.lt_le_incl _ _ Hlt)).
      cbn in Hd. lia.
  - intros e w1. unfold storage.CleanupOldActions, orWrap. rewrite bind_run.
    destruct (statement_cases "CleanupOldActions" w) as [->|(x & ->)].
    + cbv iota beta. rewrite bind_run, time_Now_run. cbn. discriminate.
    + cbn. intros H. inversion H; subst. reflexivity.
Qed.


(* ------------------------------------------------------------------ *)
(** ** Mouse movement, hovering and scrolling *)

Lemma moves_app (a b : list Event) : moves (a ++ b) = moves a ++ moves b.
Proof.
  induction a as [|[c r] a IH]; [reflexivity|].
  cbn [app moves]. destruct c; rewrite IH; reflexivity.
Qed.

Lemma sleep_steps (d : Duration) (w : World) :
  sleep d w = (Val tt, after w (Sleep d)).
Proof. reflexivity. Qed.

Lemma moveAlong_loop (n : Z) (l : list (Z * stealth.Point)) (w : World) :
  exists evs w',
    forM l (stealth.moveAlong n) w = (Val tt, w')
    /\ steps w evs w' /\ moves evs = map snd l.
Proof.
  revert w. induction l as [|[i p] l IH]; intros w.
  - exists [], w. split; [reflexivity|]. split; [apply steps_refl|reflexivity].
  - cbn [forM]. rewrite bind_run. unfold stealth.moveAlong at 1.
    rewrite bind_run.
    change (call (MouseMoved (stealth.X p) (stealth.Y p)) w)
      with (Val (env w (trace w) (MouseMoved (stealth.X p) (stealth.Y p))),
            after w (MouseMoved (stealth.X p) (stealth.Y p))).
    cbv iota beta. rewrite sleep_steps.
    set (w1 := after w (MouseMoved (stealth.X p) (stealth.Y p))).
    set (d := stealth.calculateMouseDelay _).
    destruct (IH (after w1 (Sleep d))) as (evs & w' & -> & S & M).
    exists ([(MouseMoved (stealth.X p) (stealth.Y p),
              env w (trace w) (MouseMoved (stealth.X p) (stealth.Y p)))]
              ++ [(Sleep d, env w1 (trace w1) (Sleep d))] ++ evs), w'.
    split; [reflexivity|]. split.
    + eapply steps_trans; [apply (steps_after w)|].
      eapply steps_trans; [apply (steps_after w1)|]. exact S.
    + cbn [app moves map snd]. rewrite M. destruct p; reflexivity.
Qed.

Lemma combine_upto_snd {A} (l : list A) :
  map snd (combine (upto (Z.of_nat (List.length l))) l) = l.
Proof.
  assert (H : forall (a : list Z) (b : list A),
             List.length a = List.length b -> map snd (combine a b) = b).
  { induction a as [|x a IH]; destruct b as [|y b]; cbn; intros E;
      try discriminate; [reflexivity|].
    f_equal. apply IH. lia. }
  apply H. rewrite upto_length. lia.
Qed.

Lemma MoveMouse_run (tx ty : float64) (w : World) :
  exists evs w' path extra,
    stealth.MoveMouse tx ty w = (Val None, w')
    /\ steps w evs w'
    /\ moves evs = path ++ extra
    /\ List.length path = 50%nat
    /\ (extra = []
        \/ exists o, extra = [o; {| stealth.X := tx; stealth.Y := ty |}]).
Proof.
  unfold stealth.MoveMouse.
  rewrite bind_run. destruct (Float64_run w) as (rx & ->).
  set (w1 := after w RngInt63).
  rewrite bind_run. destruct (Float64_run w1) as (ry & ->).
  set (w2 := after w1 RngInt63).
  rewrite bind_run.
  match goal with
  | |- context [stealth.generateControlPoints ?s ?e w2] =>
      destruct (generateControlPoints_run w2 s e)
        as (r1 & r2 & cp1 & cp2 & -> & _)
  end.
  set (w4 := after (after w2 RngInt63) RngInt63).
  cbn [fst snd]. rewrite bind_run, CubicBezierCurve_run.
  set (pts := map _ (upto 50)).
  assert (Hlen : List.length pts = 50%nat)
    by (unfold pts; rewrite length_map, upto_length; reflexivity).
  rewrite bind_run.
  destruct (moveAlong_loop (Z.of_nat (List.length pts))
              (combine (upto (Z.of_nat (List.length pts))) pts) w4)
    as (evs & w5 & -> & S5 & M5).
  rewrite combine_upto_snd in M5.
  assert (S0 : steps w ([(RngInt63, env w (trace w) RngInt63)]
                          ++ [(RngInt63, env w1 (trace w1) RngInt63)]
                          ++ [(RngInt63, env w2 (trace w2) RngInt63)]
                          ++ [(RngInt63, env (after w2 RngInt63)
                                             (trace (after w2 RngInt63)) RngInt63)]
                          ++ evs) w5).
  { eapply steps_trans; [apply (steps_after w)|].
    eapply steps_trans; [apply (steps_after w1)|].
    eapply steps_trans; [apply (steps_after w2)|].
    eapply steps_trans; [apply (steps_after (after w2 RngInt63))|]. exact S5. }
  match type of S0 with steps _ ?e _ => set (evs0 := e) in S0 end.
  assert (M0 : moves evs0 = pts) by (unfold evs0; cbn [app moves]; exact M5).
  clearbody evs0.
  rewrite bind_run. destruct (Float64_run w5) as (o & ->).
  set (w6 := after w5 RngInt63).
  assert (S6 : steps w (evs0 ++ [(RngInt63, env w5 (trace w5) RngInt63)]) w6)
    by (eapply steps_trans; [exact S0|apply steps_after]).
  rewrite bind_run.
  destruct (fltb (Some o) (fconst 0.3)).
  - rewrite bind_run. destruct (Float64_run w6) as (ox & ->).
    set (w7 := after w6 RngInt63).
    rewrite bind_run. destruct (Float64_run w7) as (oy & ->).
    set (w8 := after w7 RngInt63).
    set (mx := fadd tx _). set (my := fadd ty _).
    rewrite bind_run.
    change (call (MouseMoved mx my) w8)
      with (Val (env w8 (trace w8) (MouseMoved mx my)),
            after w8 (MouseMoved mx my)).
    cbv iota beta. set (w9 := after w8 _).
    rewrite bind_run.
    destruct (RandomDelay_run w9 (10 * Millisecond) (30 * Millisecond)
                ltac:(zcmp) ltac:(zcmp) ltac:(zcmp) ltac:(zcmp)) as (d & -> & _).
    set (w10 := after w9 RngInt63).
    rewrite bind_run, sleep_steps. set (w11 := after w10 (Sleep d)).
    rewrite bind_run.
    change (call (MouseMoved tx ty) w11)
      with (Val (env w11 (trace w11) (MouseMoved tx ty)),
            after w11 (MouseMoved tx ty)).
    cbv iota beta. unfold ret.
    eexists _, _, pts, [{| stealth.X := mx; stealth.Y := my |};
                        {| stealth.X := tx; stealth.Y := ty |}].
    split; [reflexivity|]. split.
    { eapply steps_trans; [exact S6|].
      eapply steps_trans; [apply (steps_after w6)|].
      eapply steps_trans; [apply (steps_after w7)|].
      eapply steps_trans; [apply (steps_after w8)|].
      eapply steps_trans; [apply (steps_after w9)|].
      eapply steps_trans; [apply (steps_after w10)|].
      apply (steps_after w11). }
    split.
    { rewrite !moves_app, M0. cbn [moves app]. rewrite app_nil_r. reflexivity. }
    split; [exact Hlen|].
    right. eexists. reflexivity.
  - unfold ret.
    eexists _, _, pts, []. split; [reflexivity|]. split; [exact S6|].
    split.
    { rewrite moves_app, M0. reflexivity. }
    split; [exact Hlen|].
    left. reflexivity.
Qed.

(** MoveMouse, whatever the target and whatever the browser answers to the
    dispatched events, returns nil.  It dispatches a mouse-moved event for
    each of the 50 points of the path; after them it either stops or (the
    overshoot) dispatches two more, the second of which carries the target
    coordinates as they were given.  Nothing but the history changes.  (The
    statement does not depend on the arithmetic of the coordinates.) *)
Theorem MoveMouse_events (tx ty : float64) (w : World) :
  exists evs w' path extra,
    stealth.MoveMouse tx ty w = (Val None, w')
    /\ steps w evs w'
    /\ moves evs = path ++ extra
    /\ List.length path = 50%nat
    /\ (extra = []
        \/ exists o, extra = [o; {| stealth.X := tx; stealth.Y := ty |}]).
Proof. exact (MoveMouse_run tx ty w). Qed.

Lemma shapeBox_run (el : Elem) (w : World) :
  stealth.shapeBox el w
  = (Val match env w (trace w) (Shape el) with
         | RShape _ b => (b, None)
         | RErr e => (None, Some (Err e))
         | _ => (None, Some (Err "unexpected answer"))
         end, after w (Shape el)).
Proof. reflexivity. Qed.

Lemma HoverElement_run (selector : string) (w : World) :
  (env w (trace w) (Element selector) <> ROk ->
   exists e, stealth.HoverElement selector w
             = (Val (Some (Wrap "element not found" e)), after w (Element selector)))
  /\ (env w (trace w) (Element selector) = ROk ->
      (forall quads b,
          env (after w (Element selector)) (trace (after w (Element selector)))
              (Shape selector) <> RShape quads b) ->
      exists e, stealth.HoverElement selector w
                = (Val (Some (Wrap "failed to get element shape" e)),
                   after (after w (Element selector)) (Shape selector)))
  /\ (forall quads box,
         env w (trace w) (Element selector) = ROk ->
         env (after w (Element selector)) (trace (after w (Element selector)))
             (Shape selector)
         = RShape quads (Some box) ->
         exists evs w' path extra,
           stealth.HoverElement selector w = (Val None, w')
           /\ steps w evs w'
           /\ moves evs = path ++ extra
           /\ List.length path = 50%nat
           /\ (extra = [] \/ exists o t, extra = [o; t])).
Proof.
  split; [|split].
  - intros Hel. unfold stealth.HoverElement. rewrite bind_run, call_err_run.
    destruct (env w (trace w) (Element selector)); try contradiction;
      eexists; reflexivity.
  - intros Hel Hshape.
    unfold stealth.HoverElement. rewrite bind_run, call_err_run, Hel.
    cbv iota beta. set (w1 := after w (Element selector)) in *.
    rewrite bind_run, shapeBox_run.
    destruct (env w1 (trace w1) (Shape selector)) as [| | | | |quads b|] eqn:E;
      try (eexists; reflexivity).
    exfalso. exact (Hshape quads b eq_refl).
  - intros quads box Hel Hshape.
    unfold stealth.HoverElement. rewrite bind_run, call_err_run, Hel.
    cbv iota beta. set (w1 := after w (Element selector)) in *.
    rewrite bind_run, shapeBox_run, Hshape. cbv iota beta.
    set (w2 := after w1 (Shape selector)).
    rewrite bind_run. destruct (Float64_run w2) as (rx & ->).
    set (w3 := after w2 RngInt63).
    rewrite bind_run. destruct (Float64_run w3) as (ry & ->).
    set (w4 := after w3 RngInt63).
    match goal with
    | |- context [stealth.MoveMouse ?tx ?ty w4] =>
        destruct (MoveMouse_run tx ty w4)
          as (evs & w' & path & extra & -> & S & M & Hlen & Hx)
    end.
    exists ([(Element selector, env w (trace w) (Element selector))]
              ++ [(Shape selector, env w1 (trace w1) (Shape selector))]
              ++ [(RngInt63, env w2 (trace w2) RngInt63)]
              ++ [(RngInt63, env w3 (trace w3) RngInt63)] ++ evs),
      w', path, extra.
    split; [reflexivity|]. split.
    { eapply steps_trans; [apply (steps_after w)|].
      eapply steps_trans; [apply (steps_after w1)|].
      eapply steps_trans; [apply (steps_after w2)|].
      eapply steps_trans; [apply (steps_after w3)|]. exact S. }
    split; [cbn [app moves]; exact M|]. split; [exact Hlen|].
    destruct Hx as [->|(o & ->)]; [left; reflexivity|right].
    eexists _, _. reflexivity.
Qed.

(** HoverElement.  When the element is not found it returns the error
    "element not found", and when its shape cannot be obtained the error
    "failed to get element shape"; in both cases no mouse event is
    dispatched.  When the element is found and has a box, whatever its
    coordinates, it returns nil after dispatching a mouse-moved event for
    each of the 50 points of a path and then none or two more; nothing but
    the history changes. *)
Theorem HoverElement_moves (selector : string) (w : World) :
  (env w (trace w) (Element selector) <> ROk ->
   exists e, stealth.HoverElement selector w
             = (Val (Some (Wrap "element not found" e)), after w (Element selector)))
  /\ (env w (trace w) (Element selector) = ROk ->
      (forall quads b,
          env (after w (Element selector)) (trace (after w (Element selector)))
              (Shape selector) <> RShape quads b) ->
      exists e, stealth.HoverElement selector w
                = (Val (Some (Wrap "failed to get element shape" e)),
                   after (after w (Element selector)) (Shape selector)))
  /\ (forall quads box,
         env w (trace w) (Element selector) = ROk ->
         env (after w (Element selector)) (trace (after w (Element selector)))
             (Shape selector)
         = RShape quads (Some box) ->
         exists evs w' path extra,
           stealth.HoverElement selector w = (Val None, w')
           /\ steps w evs w'
           /\ moves evs = path ++ extra
           /\ List.length path = 50%nat
           /\ (extra = [] \/ exists o t, extra = [o; t])).
Proof. exact (HoverElement_run selector w). Qed.

Lemma scrolls_app (a b : list Event) : scrolls (a ++ b) = scrolls a ++ scrolls b.
Proof.
  induction a as [|[c r] a IH]; [reflexivity|].
  cbn [app scrolls]. destruct c; try (rewrite IH; reflexivity).
  destruct js; rewrite IH; reflexivity.
Qed.

(** The loop of ScrollPage over its steps: [k] scrolls of the same amount,
    all of them when no error is returned. *)
Lemma scroll_loop (stepAmount : Z) (l : list Z) (w : World) :
  exists r evs w' k,
    forE l (fun _ =>
              e <- call_err (PageEval (JsScrollBy stepAmount)) ;;
              match e with
              | Some _ => ret (Errorf_w "failed to scroll" e)
              | None =>
                  d <- stealth.RandomDelay (50 * Millisecond) (150 * Millisecond) ;;
                  sleep d ;;
                  ret None
              end) w = (Val r, w')
    /\ steps w evs w'
    /\ scrolls evs = repeat stepAmount k
    /\ (k <= List.length l)%nat
    /\ (l <> [] -> (1 <= k)%nat)
    /\ (r = None -> k = List.length l)
    /\ (forall e, r = Some e -> exists cause, e = Wrap "failed to scroll" cause).
Proof.
  revert w. induction l as [|i l IH]; intros w.
  - exists None, [], w, 0%nat. split; [reflexivity|]. split; [apply steps_refl|].
    split; [reflexivity|]. split; [lia|]. split; [congruence|].
    split; [reflexivity|]. discriminate.
  - cbn [forE]. rewrite bind_run, bind_run.
    set (c := PageEval (JsScrollBy stepAmount)).
    destruct (call_err_cases c w) as [[_ ->]|(x & ->)].
    + cbv iota beta. rewrite bind_run.
      destruct (RandomDelay_run (after w c) (50 * Millisecond) (150 * Millisecond)
                  ltac:(zcmp) ltac:(zcmp) ltac:(zcmp) ltac:(zcmp)) as (d & -> & _).
      rewrite bind_run, sleep_steps. cbv iota beta.
      set (w3 := after (after (after w c) RngInt63) (Sleep d)).
      unfold ret at 1. cbv iota beta.
      destruct (IH w3) as (r & evs & w' & k & E & St & Hs & Hk & _ & Hr & He).
      fold c in E. rewrite E. clear E.
      exists r, ([(c, env w (trace w) c)]
                   ++ [(RngInt63, env (after w c) (trace (after w c)) RngInt63)]
                   ++ [(Sleep d, env (after (after w c) RngInt63)
                                     (trace (after (after w c) RngInt63)) (Sleep d))]
                   ++ evs), w', (S k).
      split; [reflexivity|]. split.
      { eapply steps_trans; [apply (steps_after w)|].
        eapply steps_trans; [apply (steps_after (after w c))|].
        eapply steps_trans; [apply (steps_after (after (after w c) RngInt63))|].
        exact St. }
      split; [cbn [app scrolls c repeat]; rewrite Hs; reflexivity|].
      split; [cbn [List.length]; lia|]. split; [lia|].
      split; [intros E; cbn [List.length]; rewrite (Hr E); reflexivity|exact He].
    + cbv iota beta. unfold ret, Errorf_w.
      exists (Some (Wrap "failed to scroll" x)), [(c, env w (trace w) c)],
        (after w c), 1%nat.
      split; [reflexivity|]. split; [apply steps_after|].
      split; [reflexivity|]. split; [cbn [List.length]; lia|]. split; [lia|].
      split; [discriminate|]. intros e E. inversion E. eexists. reflexivity.
Qed.

Lemma step_amount (a s : Z) :
  0 <= a < 150 -> 0 <= s < 3 ->
  16 <= Z.quot (50 + a) (1 + s) <= 199
  /\ 48 <= (1 + s) * Z.quot (50 + a) (1 + s) <= 199
  /\ Z.quot (- (50 + a)) (1 + s) = - Z.quot (50 + a) (1 + s).
Proof.
  intros Ha Hs. rewrite Z.quot_opp_l by lia.
  rewrite Z.quot_div_nonneg by lia.
  pose proof (Z.div_mod (50 + a) (1 + s) ltac:(lia)) as Hd.
  pose proof (Z.mod_pos_bound (50 + a) (1 + s) ltac:(lia)) as Hm.
  set (q := (50 + a) / (1 + s)) in *.
  set (r := (50 + a) mod (1 + s)) in *.
  assert (Hs3 : s = 0 \/ s = 1 \/ s = 2) by lia.
  split; [|split; [|reflexivity]]; destruct Hs3 as [-> | [-> | ->]]; lia.
Qed.

Lemma ScrollPage_run (direction : string) (w : World) :
  let sign := if String.eqb direction "up" then -1 else 1 in
  exists r evs w' amount k corr,
    stealth.ScrollPage direction w = (Val r, w')
    /\ steps w evs w'
    /\ scrolls evs = repeat (sign * amount) k ++ corr
    /\ 16 <= amount <= 199
    /\ (1 <= k <= 3)%nat
    /\ (r = None ->
        48 <= Z.of_nat k * amount <= 199
        /\ (corr = [] \/ exists c, corr = [- c] /\ 0 <= c < 30))
    /\ (forall e, r = Some e ->
                  corr = [] /\ exists cause, e = Wrap "failed to scroll" cause).
Proof.
  intros sign. unfold stealth.ScrollPage.
  rewrite bind_run. destruct (Intn_run w 150 ltac:(lia)) as (a & -> & Ha).
  set (w1 := after w RngInt63).
  rewrite bind_run. destruct (Intn_run w1 3 ltac:(lia)) as (s & -> & Hs).
  set (w2 := after w1 RngInt63). cbv zeta.
  destruct (step_amount a s Ha Hs) as (Hq & Htot & Hopp).
  set (amount := Z.quot (50 + a) (1 + s)) in *.
  assert (Hstep : Z.quot (if String.eqb direction "up" then - (50 + a) else 50 + a)
                         (1 + s) = sign * amount).
  { unfold sign. destruct (String.eqb direction "up"); [rewrite Hopp|]; lia. }
  rewrite Hstep. rewrite bind_run.
  destruct (scroll_loop (sign * amount) (upto (1 + s)) w2)
    as (r & evs & w3 & k & -> & S3 & Hsc & Hk & Hk1 & Hr & He).
  rewrite upto_length in Hk, Hr.
  assert (Hne : upto (1 + s) <> []).
  { intros E. apply (f_equal (@List.length Z)) in E.
    rewrite upto_length in E. cbn [List.length] in E. lia. }
  specialize (Hk1 Hne).
  assert (S0 : steps w ([(RngInt63, env w (trace w) RngInt63)]
                          ++ [(RngInt63, env w1 (trace w1) RngInt63)] ++ evs) w3).
  { eapply steps_trans; [apply (steps_after w)|].
    eapply steps_trans; [apply (steps_after w1)|]. exact S3. }
  match type of S0 with steps _ ?e _ => set (evs0 := e) in S0 end.
  assert (M0 : scrolls evs0 = repeat (sign * amount) k)
    by (unfold evs0; cbn [app scrolls]; exact Hsc).
  clearbody evs0.
  destruct r as [e|].
  - unfold ret. exists (Some e), evs0, w3, amount, k, [].
    split; [reflexivity|]. split; [exact S0|].
    split; [rewrite app_nil_r; exact M0|]. split; [exact Hq|]. split; [lia|].
    split; [discriminate|].
    intros e' E. inversion E; subst. split; [reflexivity|]. apply He. reflexivity.
  - specialize (Hr eq_refl).
    assert (Hkz : Z.of_nat k = 1 + s) by lia.
    rewrite bind_run. destruct (Float64_range w3) as (f & -> & _ & _).
    set (w4 := after w3 RngInt63).
    assert (S4 : steps w (evs0 ++ [(RngInt63, env w3 (trace w3) RngInt63)]) w4)
      by (eapply steps_trans; [exact S0|apply steps_after]).
    rewrite bind_run.
    destruct (fltb (Some f) (fconst 0.15)).
    + rewrite bind_run. destruct (Intn_run w4 30 ltac:(lia)) as (c & -> & Hc).
      set (w5 := after w4 RngInt63).
      rewrite bind_run.
      change (call (PageEval (JsScrollBy (- c))) w5)
        with (Val (env w5 (trace w5) (PageEval (JsScrollBy (- c)))),
              after w5 (PageEval (JsScrollBy (- c)))).
      cbv iota beta. set (w6 := after w5 _).
      rewrite bind_run. unfold stealth.ShortDelay.
      destruct (RandomDelay_run w6 (100 * Millisecond) (500 * Millisecond)
                  ltac:(zcmp) ltac:(zcmp) ltac:(zcmp) ltac:(zcmp)) as (d & -> & _).
      rewrite sleep_steps. unfold ret.
      eexists None, _, _, amount, k, [- c].
      split; [reflexivity|]. split.
      { eapply steps_trans; [exact S4|].
        eapply steps_trans; [apply (steps_after w4)|].
        eapply steps_trans; [apply (steps_after w5)|].
        eapply steps_trans; [apply (steps_after w6)|].
        apply (steps_after (after w6 RngInt63)). }
      split.
      { rewrite !scrolls_app, M0. cbn [scrolls app].
        rewrite app_nil_r. reflexivity. }
      split; [exact Hq|]. split; [lia|]. split.
      * intros _. split; [rewrite Hkz; exact Htot|].
        right. exists c. split; [reflexivity|exact Hc].
      * discriminate.
    + unfold ret. exists None, (evs0 ++ [(RngInt63, env w3 (trace w3) RngInt63)]),
        w4, amount, k, [].
      split; [reflexivity|]. split; [exact S4|].
      split; [rewrite scrolls_app, M0; cbn [scrolls]; rewrite app_nil_r; reflexivity|].
      split; [exact Hq|]. split; [lia|]. split.
      * intros _. split; [rewrite Hkz; exact Htot|]. left. reflexivity.
      * discriminate.
Qed.

(** ScrollPage scrolls in one to three steps of the same amount, between 16
    and 199 pixels each: upwards when the direction is "up", downwards for
    every other direction.  When no step fails the steps add up to between
    48 and 199 pixels, and they may be followed by one correction of less
    than 30 pixels, which is always upwards.  When a step fails the error
    "failed to scroll" is returned at once, without a correction. *)
Theorem ScrollPage_scrolls (direction : string) (w : World) :
  let sign := if String.eqb direction "up" then -1 else 1 in
  exists r evs w' amount k corr,
    stealth.ScrollPage direction w = (Val r, w')
    /\ steps w evs w'
    /\ scrolls evs = repeat (sign * amount) k ++ corr
    /\ 16 <= amount <= 199
    /\ (1 <= k <= 3)%nat
    /\ (r = None ->
        48 <= Z.of_nat k * amount <= 199
        /\ (corr = [] \/ exists c, corr = [- c] /\ 0 <= c < 30))
    /\ (forall e, r = Some e ->
                  corr = [] /\ exists cause, e = Wrap "failed to scroll" cause).
Proof. exact (ScrollPage_run direction w). Qed.



(* ------------------------------------------------------------------ *)
(** ** Activity scheduling *)

Lemma IsBusinessHours_run (s e : Z) (wd : list string) (w : World) :
  stealth.IsBusinessHours s e wd w
  = (Val (inBusinessHours s e wd (reading w)), after w Now).
Proof.
  unfold stealth.IsBusinessHours. rewrite bind_run, time_Now_run.
  cbv iota beta zeta. unfold inBusinessHours.
  destruct (stealth.isWorkDay wd (weekdayString (Weekday (reading w))));
    reflexivity.
Qed.

Lemma TimeUntilBusinessHours_run (s e : Z) (wd : list string) (w : World) :
  let t0 := reading w in
  let t1 := reading (after w Now) in
  stealth.TimeUntilBusinessHours s e wd w
  = (Val (if inBusinessHours s e wd t1 then 0
          else stealth.nextWorkDay 7 s wd t0
                 (if HourOf t0 >=? e then t0 + 86400 else t0)),
     after (after w Now) Now).
Proof.
  intros t0 t1. unfold stealth.TimeUntilBusinessHours.
  rewrite bind_run, time_Now_run. cbv iota beta.
  rewrite bind_run, IsBusinessHours_run. cbv iota beta. fold t0 t1.
  destruct (inBusinessHours s e wd t1); reflexivity.
Qed.

(** The loop of TimeUntilBusinessHours examines the days from the day of
    [next] on, one after the other, and stops at the first work day whose
    start hour lies after [now]. *)
Section NextWorkDay.

Variables (s : Z) (wd : list string) (now : Z).
Hypothesis Hs : 0 <= s <= 23.

Let wdOK (d : Z) : bool := stealth.isWorkDay wd (weekdayString ((d + 4) mod 7)).
Let cand (d : Z) : Z := d * 86400 + s * 3600.

Lemma day_of_cand (d : Z) : cand d / 86400 = d.
Proof. unfold cand. Z.div_mod_to_equations. lia. Qed.

Lemma nextWorkDay_spec (fuel : nat) (next : Z) :
  let D := next / 86400 in
  (exists i, (i < fuel)%nat
             /\ wdOK (D + Z.of_nat i) = true /\ cand (D + Z.of_nat i) > now
             /\ stealth.nextWorkDay fuel s wd now next
                = time_Sub (cand (D + Z.of_nat i)) now)
  \/ ((forall i, (i < fuel)%nat ->
                 wdOK (D + Z.of_nat i) = true -> cand (D + Z.of_nat i) > now -> False)
      /\ stealth.nextWorkDay fuel s wd now next = 1 * Hour).
Proof.
  revert next. induction fuel as [|fuel IH]; intros next D.
  - right. split; [intros i Hi; lia|reflexivity].
  - cbn [stealth.nextWorkDay]. unfold Weekday, dateAtHour. fold D.
    change (stealth.isWorkDay wd (weekdayString ((D + 4) mod 7))) with (wdOK D).
    change (D * 86400 + s * 3600) with (cand D).
    assert (Hshift : forall n, n / 86400 = D -> (n + 86400) / 86400 = D + 1)
      by (intros n Hn; Z.div_mod_to_equations; lia).
    assert (Hrec : forall next',
               next' / 86400 = D + 1 ->
               (wdOK D = true -> cand D > now -> False) ->
               (exists i, (i < S fuel)%nat
                          /\ wdOK (D + Z.of_nat i) = true /\ cand (D + Z.of_nat i) > now
                          /\ stealth.nextWorkDay fuel s wd now next'
                             = time_Sub (cand (D + Z.of_nat i)) now)
               \/ ((forall i, (i < S fuel)%nat ->
                              wdOK (D + Z.of_nat i) = true ->
                              cand (D + Z.of_nat i) > now -> False)
                   /\ stealth.nextWorkDay fuel s wd now next' = 1 * Hour)).
    { intros next' Hn H0. specialize (IH next'). cbv zeta in IH. rewrite Hn in IH.
      destruct IH as [(i & Hi & Hw & Hc & E)|(Hall & E)].
      - left. exists (S i). replace (D + Z.of_nat (S i)) with (D + 1 + Z.of_nat i) by lia.
        split; [lia|]. split; [exact Hw|]. split; [exact Hc|exact E].
      - right. split; [|exact E]. intros [|i] Hi Hw Hc.
        + replace (D + Z.of_nat 0) with D in * by lia. exact (H0 Hw Hc).
        + replace (D + Z.of_nat (S i)) with (D + 1 + Z.of_nat i) in * by lia.
          apply (Hall i); [lia|exact Hw|exact Hc]. }
    destruct (wdOK D) eqn:EW.
    + destruct (Z.gtb_spec (cand D) now) as [Hgt|Hle].
      * left. exists 0%nat. replace (D + Z.of_nat 0) with D by lia.
        split; [lia|]. split; [exact EW|]. split; [lia|reflexivity].
      * apply Hrec; [|intros _ Hc; lia].
        apply Hshift, day_of_cand.
    + apply Hrec; [|intros Hw; discriminate].
      apply Hshift. reflexivity.
Qed.

End NextWorkDay.

Lemma weekday_index (wd : list string) :
  hasWorkDay wd = true ->
  exists k, 0 <= k < 7 /\ stealth.isWorkDay wd (weekdayString k) = true.
Proof.
  unfold hasWorkDay. rewrite existsb_exists. intros (k & Hin & Hk).
  exists k. split; [apply upto_In, Hin|exact Hk].
Qed.

Lemma no_weekday (wd : list string) (k : Z) :
  hasWorkDay wd = false -> 0 <= k < 7 ->
  stealth.isWorkDay wd (weekdayString k) = false.
Proof.
  unfold hasWorkDay. intros H Hk.
  destruct (stealth.isWorkDay wd (weekdayString k)) eqn:E; [|reflexivity].
  assert (Hex : existsb (fun k => stealth.isWorkDay wd (weekdayString k)) (upto 7) = true).
  { apply existsb_exists. exists k. split; [|exact E].
    unfold upto. apply in_map_iff. exists (Z.to_nat k). split; [lia|].
    apply in_seq. lia. }
  rewrite Hex in H. discriminate.
Qed.

Lemma time_Sub_small (a b : Z) :
  0 <= a - b <= 8 * 86400 -> time_Sub a b = (a - b) * Second.
Proof.
  intros H. unfold time_Sub. cbv zeta.
  assert (Hr : min_int64 <= (a - b) * Second <= max_int64).
  { unfold Second, Millisecond, Microsecond, Nanosecond, min_int64, max_int64.
    pow2. lia. }
  destruct (Z.ltb_spec ((a - b) * Second) min_int64); [lia|].
  destruct (Z.ltb_spec max_int64 ((a - b) * Second)); [lia|reflexivity].
Qed.

(** TimeUntilBusinessHours, for a start hour between 0 and 23 and a clock
    that gives both of its readings the same time.  Within business hours
    the wait is zero.  Outside of them, when some entry of the work days
    names a day of the week, the wait ends at the start hour, on the hour, of
    a work day, after now and at most eight days from now; if the start hour
    is before the end hour, that instant is within business hours.  When no
    entry names a day of the week the wait is the fallback of one hour. *)
Theorem TimeUntilBusinessHours_next_start (s e : Z) (wd : list string) (w : World) :
  let t := reading w in
  reading (after w Now) = t ->
  0 <= s <= 23 ->
  exists d,
    stealth.TimeUntilBusinessHours s e wd w = (Val d, after (after w Now) Now)
    /\ (inBusinessHours s e wd t = true -> d = 0)
    /\ (inBusinessHours s e wd t = false -> hasWorkDay wd = false -> d = 1 * Hour)
    /\ (inBusinessHours s e wd t = false -> hasWorkDay wd = true ->
        exists t',
          d = (t' - t) * Second
          /\ t < t' <= t + 8 * 86400
          /\ stealth.isWorkDay wd (weekdayString (Weekday t')) = true
          /\ HourOf t' = s /\ t' mod 3600 = 0
          /\ (s < e -> inBusinessHours s e wd t' = true)).
Proof.
  intros t Hclock Hs.
  pose proof (TimeUntilBusinessHours_run s e wd w) as R. cbv zeta in R.
  rewrite Hclock in R. fold t in R. rewrite R. clear R.
  eexists. split; [reflexivity|].
  destruct (inBusinessHours s e wd t) eqn:EB.
  { split; [reflexivity|]. split; discriminate. }
  split; [discriminate|].
  set (next := if HourOf t >=? e then t + 86400 else t).
  assert (HD : next / 86400 = t / 86400 \/ next / 86400 = t / 86400 + 1).
  { unfold next. destruct (HourOf t >=? e); [right|left; reflexivity].
    Z.div_mod_to_equations. lia. }
  destruct (nextWorkDay_spec s wd t Hs 7 next) as [(i & Hi & Hw & Hc & E)|(Hall & E)].
  - (* a work day is found *)
    split.
    { intros _ Hno. exfalso.
      rewrite (no_weekday wd _ Hno) in Hw; [discriminate|].
      apply Z.mod_pos_bound. lia. }
    intros _ _. set (D := next / 86400 + Z.of_nat i) in *.
    exists (D * 86400 + s * 3600).
    assert (Hday : (D * 86400 + s * 3600) / 86400 = D)
      by (Z.div_mod_to_equations; lia).
    assert (Hhour : HourOf (D * 86400 + s * 3600) = s)
      by (unfold HourOf; Z.div_mod_to_equations; lia).
    assert (Hup : D * 86400 + s * 3600 <= t + 8 * 86400).
    { assert (D <= t / 86400 + 7) by (unfold D; lia).
      Z.div_mod_to_equations. lia. }
    assert (Hwd : stealth.isWorkDay wd (weekdayString (Weekday (D * 86400 + s * 3600)))
                  = true).
    { unfold Weekday. rewrite Hday. exact Hw. }
    split; [rewrite E; apply time_Sub_small; lia|].
    split; [lia|]. split; [exact Hwd|]. split; [exact Hhour|].
    split; [Z.div_mod_to_equations; lia|].
    intros Hse. unfold inBusinessHours. rewrite Hwd, Hhour. cbn [andb].
    destruct (Z.geb_spec s s); [|lia]. destruct (Z.ltb_spec s e); [reflexivity|lia].
  - (* no work day among the seven days examined *)
    split; [intros _ _; exact E|].
    intros _ Hyes. exfalso.
    destruct (weekday_index wd Hyes) as (k & Hk & Hwk).
    set (D0 := next / 86400) in *.
    set (i := (k - (D0 + 4)) mod 7).
    assert (Hi : 0 <= i < 7) by (apply Z.mod_pos_bound; lia).
    assert (Hki : (D0 + i + 4) mod 7 = k).
    { unfold i. Z.div_mod_to_equations. lia. }
    apply (Hall (Z.to_nat i)); [lia| |].
    + rewrite Z2Nat.id by lia. rewrite Hki. exact Hwk.
    + rewrite Z2Nat.id by lia.
      destruct (Z.eq_dec (D0 + i) (t / 86400)) as [Heq|Hne].
      * (* today: the start hour is still ahead *)
        assert (Hi0 : i = 0 /\ D0 = t / 86400) by lia.
        destruct Hi0 as [Hi0 HD0].
        assert (Hnext : (HourOf t >=? e) = false).
        { destruct (HourOf t >=? e) eqn:EH; [|reflexivity].
          exfalso. unfold D0, next in HD0. try rewrite EH in HD0.
          Z.div_mod_to_equations. lia. }
        unfold inBusinessHours in EB.
        assert (Hwt : stealth.isWorkDay wd (weekdayString (Weekday t)) = true).
        { unfold Weekday. rewrite <- HD0.
          replace (D0 + 4) with (D0 + i + 4) by lia. rewrite Hki. exact Hwk. }
        rewrite Hwt in EB. cbn [andb] in EB.
        assert (Hlt : HourOf t < e).
        { destruct (Z.geb_spec (HourOf t) e); [discriminate|lia]. }
        destruct (Z.ltb_spec (HourOf t) e); [|lia].
        rewrite andb_true_r in EB.
        destruct (Z.geb_spec (HourOf t) s); [discriminate|].
        unfold HourOf in *. rewrite Heq. Z.div_mod_to_equations. lia.
      * assert (D0 + i >= t / 86400 + 1) by lia.
        Z.div_mod_to_equations. nia.
Qed.

Lemma TimeUntilBusinessHours_next_start_witness :
  let wd := ["Monday"; "Wednesday"; "Friday"]%string in
  let t := reading world0 in
  (reading (after world0 Now) = t /\ 0 <= 9 <= 23)
  /\ exists d,
      stealth.TimeUntilBusinessHours 9 17 wd world0
      = (Val d, after (after world0 Now) Now)
      /\ (inBusinessHours 9 17 wd t = true -> d = 0)
      /\ (inBusinessHours 9 17 wd t = false -> hasWorkDay wd = false -> d = 1 * Hour)
      /\ (inBusinessHours 9 17 wd t = false -> hasWorkDay wd = true ->
          exists t',
            d = (t' - t) * Second
            /\ t < t' <= t + 8 * 86400
            /\ stealth.isWorkDay wd (weekdayString (Weekday t')) = true
            /\ HourOf t' = 9 /\ t' mod 3600 = 0
            /\ (9 < 17 -> inBusinessHours 9 17 wd t' = true)).
Proof.
  intros wd t.
  assert (H1 : reading (after world0 Now) = t) by reflexivity.
  assert (H2 : 0 <= 9 <= 23) by lia.
  split; [split; assumption|].
  exact (TimeUntilBusinessHours_next_start 9 17 wd world0 H1 H2).
Defined.

(* ------------------------------------------------------------------ *)
(** ** messaging: typing a message and checking for new connections *)

Lemma append_assoc (a b c : string) : ((a ++ b) ++ c = a ++ (b ++ c))%string.
Proof. induction a as [|x a IH]; [reflexivity|]. cbn. rewrite IH. reflexivity. Qed.

Lemma append_nil_r (a : string) : (a ++ EmptyString)%string = a.
Proof. induction a as [|x a IH]; [reflexivity|]. cbn. rewrite IH. reflexivity. Qed.

Lemma inserted_app (a b : list Call) :
  inserted (a ++ b) = (inserted a ++ inserted b)%string.
Proof.
  induction a as [|c a IH]; [reflexivity|].
  cbn [app inserted]. destruct c; try exact IH.
  rewrite IH. symmetry. apply append_assoc.
Qed.

Lemma typed_into_app (el : Elem) (a b : list Call) :
  typed_into el a -> typed_into el b -> typed_into el (a ++ b).
Proof. unfold typed_into. intros. apply Forall_app. split; assumption. Qed.

(** Decoding an ASCII string gives its bytes, and each encodes as itself. *)
Lemma range_ascii (s : string) (i : Z) :
  ascii_only s = true ->
  map (fun ir => string_of_rune (snd ir)) (range_from i s)
  = map (fun a => String a EmptyString) (list_ascii_of_string s).
Proof.
  revert i. induction s as [|a s IH]; intros i H; [reflexivity|].
  cbn [ascii_only] in H. apply andb_true_iff in H. destruct H as [Ha Hs].
  cbn [range_from list_ascii_of_string map]. rewrite Ha. cbn [map snd].
  rewrite IH by exact Hs. f_equal.
  apply Z.ltb_lt in Ha. unfold string_of_rune.
  assert (H0 : 0 <= byte_of a) by (unfold byte_of; lia).
  destruct (Z.leb_spec 0 (byte_of a)); [|lia].
  destruct (Z.ltb_spec (byte_of a) 128); [|lia]. cbn [andb bytes_string fold_right].
  unfold ascii_of, byte_of. rewrite N2Z.id, ascii_N_embedding. reflexivity.
Qed.

Lemma concat_chars (s : string) :
  fold_right (fun x acc => (x ++ acc)%string) EmptyString
             (map (fun a => String a EmptyString) (list_ascii_of_string s)) = s.
Proof.
  induction s as [|a s IH]; [reflexivity|]. cbn. rewrite IH. reflexivity.
Qed.

Lemma typeChar_loop (el : Elem) (l : list (Z * rune)) (w : World) :
  exists evs w',
    forM l (messaging.typeChar el) w = (Val tt, w')
    /\ steps w evs w'
    /\ keystrokes evs = map (fun ir => Input el (string_of_rune (snd ir))) l.
Proof.
  revert w. induction l as [|[i c] l IH]; intros w.
  - exists [], w. split; [reflexivity|]. split; [apply steps_refl|reflexivity].
  - cbn [forM]. rewrite bind_run. unfold messaging.typeChar at 1. cbn [snd].
    run_call.
    run_quiet (quiet_RandomDelay (100 * Millisecond) (250 * Millisecond)
                 ltac:(zcmp) ltac:(zcmp) ltac:(zcmp)).
    run_sleep.
    destruct (IH w2) as (evs1 & w3 & -> & S3 & K3).
    eexists _, w3. split; [reflexivity|]. split.
    + eapply steps_trans; [exact S|]. eapply steps_trans; [exact S0|].
      eapply steps_trans; [exact S1|exact S3].
    + rewrite !keystrokes_app, K, K0, K3. reflexivity.
Qed.

Lemma split_space_cons (s : string) : exists wd ws, split_space s = wd :: ws.
Proof.
  induction s as [|a s (wd & ws & IH)]; [eexists _, _; reflexivity|].
  cbn [split_space]. destruct (Ascii.eqb a " "); [eexists _, _; reflexivity|].
  rewrite IH. eexists _, _. reflexivity.
Qed.

(** Splitting at the spaces and joining with spaces gives the string back. *)
Lemma concat_split_space (s : string) :
  String.concat " " (split_space s) = s.
Proof.
  induction s as [|a s IH]; [reflexivity|].
  cbn [split_space]. destruct (split_space_cons s) as (wd & ws & E).
  rewrite E in *.
  destruct (Ascii.eqb_spec a " ") as [->|_].
  - change (String.concat " " (EmptyString :: wd :: ws))
      with (EmptyString ++ " " ++ String.concat " " (wd :: ws))%string.
    rewrite IH. reflexivity.
  - destruct ws as [|w2 ws].
    + cbn [String.concat] in *. rewrite IH. reflexivity.
    + change (String.concat " " (String a wd :: w2 :: ws))
        with (String a (wd ++ " " ++ String.concat " " (w2 :: ws)))%string.
      change (String.concat " " (wd :: w2 :: ws))
        with (wd ++ " " ++ String.concat " " (w2 :: ws))%string in IH.
      rewrite IH. reflexivity.
Qed.

Lemma split_space_ascii (s : string) :
  ascii_only s = true -> Forall (fun wd => ascii_only wd = true) (split_space s).
Proof.
  induction s as [|a s IH]; intros H.
  - constructor; [reflexivity|constructor].
  - cbn [ascii_only] in H. apply andb_true_iff in H. destruct H as [Ha Hs].
    specialize (IH Hs). cbn [split_space].
    destruct (Ascii.eqb a " ").
    + constructor; [reflexivity|exact IH].
    + destruct (split_space s) as [|wd ws].
      * constructor; [cbn; rewrite Ha; reflexivity|constructor].
      * inversion IH; subst. constructor; [cbn; rewrite Ha; assumption|assumption].
Qed.

Lemma inserted_runes (el : Elem) (word : string) :
  ascii_only word = true ->
  inserted (map (fun ir => Input el (string_of_rune (snd ir))) (range word)) = word.
Proof.
  intros H.
  assert (E : forall l : list (Z * rune),
             inserted (map (fun ir => Input el (string_of_rune (snd ir))) l)
             = fold_right (fun x acc => (x ++ acc)%string) EmptyString
                          (map (fun ir => string_of_rune (snd ir)) l)).
  { induction l as [|x l IH]; [reflexivity|]. cbn. rewrite IH. reflexivity. }
  rewrite E. unfold range. rewrite range_ascii by exact H. apply concat_chars.
Qed.

Lemma typed_into_runes (el : Elem) (l : list (Z * rune)) :
  typed_into el (map (fun ir => Input el (string_of_rune (snd ir))) l).
Proof.
  unfold typed_into. apply Forall_forall. intros c Hc.
  apply in_map_iff in Hc. destruct Hc as (ir & <- & _). eexists. reflexivity.
Qed.

Lemma typeWord_keys (el : Elem) (n i : Z) (word : string) (w : World) :
  exists evs w',
    messaging.typeWord el n (i, word) w = (Val tt, w')
    /\ steps w evs w'
    /\ keystrokes evs
       = map (fun ir => Input el (string_of_rune (snd ir))) (range word)
         ++ (if i <? n - 1 then [Input el " "] else []).
Proof.
  unfold messaging.typeWord. rewrite bind_run.
  destruct (typeChar_loop el (range word) w) as (evs1 & w1 & -> & S1 & K1).
  assert (Hsp : exists evs2 w2,
             (if i <? n - 1
              then _ <- call (Input el " ") ;;
                   d <- stealth.RandomDelay (100 * Millisecond) (300 * Millisecond) ;;
                   sleep d
              else ret tt) w1 = (Val tt, w2)
             /\ steps w1 evs2 w2
             /\ keystrokes evs2 = (if i <? n - 1 then [Input el " "] else [])).
  { destruct (i <? n - 1).
    - run_call.
      run_quiet (quiet_RandomDelay (100 * Millisecond) (300 * Millisecond)
                   ltac:(zcmp) ltac:(zcmp) ltac:(zcmp)).
      run_sleep.
      eexists _, _. split; [reflexivity|]. split.
      + eapply steps_trans; [exact S|]. eapply steps_trans; [exact S0|exact S2].
      + rewrite !keystrokes_app, K, K0. reflexivity.
    - exists [], w1. split; [reflexivity|]. split; [apply steps_refl|reflexivity]. }
  destruct Hsp as (evs2 & w2 & E2 & S2 & K2).
  rewrite bind_run, E2.
  assert (Hp : exists evs3 w3,
             (if (i >? 0) && (Z.rem i 5 =? 0)
              then d <- stealth.RandomDelay (500 * Millisecond) (1500 * Millisecond) ;;
                   sleep d
              else ret tt) w2 = (Val tt, w3)
             /\ steps w2 evs3 w3 /\ keystrokes evs3 = []).
  { destruct ((i >? 0) && (Z.rem i 5 =? 0)).
    - run_quiet (quiet_RandomDelay (500 * Millisecond) (1500 * Millisecond)
                   ltac:(zcmp) ltac:(zcmp) ltac:(zcmp)).
      run_sleep.
      eexists _, _. split; [reflexivity|]. split.
      + eapply steps_trans; [exact S|exact S0].
      + rewrite !keystrokes_app, K, K0. reflexivity.
    - exists [], w2. split; [reflexivity|]. split; [apply steps_refl|reflexivity]. }
  destruct Hp as (evs3 & w3 & E3 & S3 & K3).
  exists (evs1 ++ evs2 ++ evs3), w3. split; [exact E3|]. split.
  - eapply steps_trans; [exact S1|]. eapply steps_trans; [exact S2|exact S3].
  - rewrite !keystrokes_app, K1, K2, K3, app_nil_r. reflexivity.
Qed.

Lemma words_loop (el : Elem) (n : Z) (ws : list string) :
  forall (k : nat) (w : World),
    Forall (fun wd => ascii_only wd = true) ws ->
    Z.of_nat k + Z.of_nat (List.length ws) = n ->
    exists evs w',
      forM (combine (map Z.of_nat (seq k (List.length ws))) ws)
           (messaging.typeWord el n) w = (Val tt, w')
      /\ steps w evs w'
      /\ typed_into el (keystrokes evs)
      /\ inserted (keystrokes evs) = String.concat " " ws.
Proof.
  induction ws as [|wd ws IH]; intros k w Ha Hn.
  - exists [], w. split; [reflexivity|]. split; [apply steps_refl|].
    split; [constructor|reflexivity].
  - apply Forall_cons_iff in Ha. destruct Ha as [Hwd Hws].
    cbn [List.length seq map combine forM]. rewrite bind_run.
    destruct (typeWord_keys el n (Z.of_nat k) wd w) as (evs1 & w1 & -> & S1 & K1).
    destruct (IH (S k) w1 Hws) as (evs2 & w2 & E2 & S2 & T2 & I2).
    { cbn [List.length] in Hn. lia. }
    exists (evs1 ++ evs2), w2. split; [exact E2|]. split.
    { eapply steps_trans; [exact S1|exact S2]. }
    rewrite keystrokes_app, K1. split.
    + apply typed_into_app; [|exact T2].
      apply typed_into_app; [apply typed_into_runes|].
      destruct (_ <? _); constructor; [eexists; reflexivity|constructor].
    + rewrite !inserted_app, I2, inserted_runes by exact Hwd.
      destruct ws as [|w2' ws'].
      * cbn [List.length] in Hn.
        destruct (Z.ltb_spec (Z.of_nat k) (n - 1)); [lia|].
        cbn [inserted String.concat]. rewrite !append_nil_r. reflexivity.
      * cbn [List.length] in Hn.
        destruct (Z.ltb_spec (Z.of_nat k) (n - 1)); [|lia].
        change (String.concat " " (wd :: w2' :: ws'))
          with (wd ++ " " ++ String.concat " " (w2' :: ws'))%string.
        cbn [inserted]. rewrite append_assoc. reflexivity.
Qed.

Lemma quiet_call_err (c : Call) :
  (forall r, is_keystroke (c, r) = false) -> quiet (call_err c).
Proof.
  intros H. unfold call_err. apply quiet_bind; [apply quiet_call, H|].
  intros r. apply quiet_ret.
Qed.

Lemma quiet_firstElement (sels : list string) :
  forall init, quiet (firstElement init sels).
Proof.
  induction sels as [|s l IH]; intros init; cbn [firstElement].
  - apply quiet_ret.
  - apply quiet_bind; [apply quiet_call_err; reflexivity|].
    intros [e|]; [apply IH|apply quiet_ret].
Qed.

(** messaging.typeMessage: for a message of ASCII characters the
    routine always returns.  When it returns nil, the text inserted by its
    keystrokes, read in order, is exactly the message (the words and the
    single spaces between them), and every keystroke goes into the one
    message field that was found; when it returns an error, nothing was
    typed. *)
Theorem typeMessage_types_message (message : string) (w : World) :
  ascii_only message = true ->
  exists r evs w',
    messaging.typeMessage message w = (Val r, w')
    /\ steps w evs w'
    /\ (r = None ->
        inserted (keystrokes evs) = message
        /\ exists el, typed_into el (keystrokes evs))
    /\ (r <> None -> keystrokes evs = []).
Proof.
  intros Hascii. unfold messaging.typeMessage. cbv zeta.
  set (sels := [_; _; _]).
  rewrite bind_run.
  destruct (quiet_firstElement sels (None, None) w) as ([el e] & evs0 & E0 & S0 & K0).
  destruct (firstElement_run sels (None, None) w)
    as (el' & e' & evs0' & E0' & _ & Hcase).
  rewrite E0 in E0'. inversion E0'; subst el' e'; clear E0'.
  rewrite E0. cbv iota beta.
  set (w0 := snd (firstElement (None, None) sels w)) in *. clearbody w0.
  unfold orFail at 1. rewrite bind_run. unfold ret at 1. cbv iota beta.
  destruct Hcase as [(_ & Hnil)|[(sel & _ & -> & -> & _)|(-> & x & ->)]].
  - discriminate Hnil.
  - rewrite bind_run. cbn [deref]. unfold ret at 1. cbv iota beta.
    unfold orWrap at 1. rewrite bind_run, call_err_run.
    pose proof (steps_after w0 (Click sel)) as S1.
    destruct (env w0 (trace w0) (Click sel)) eqn:E1;
      try (eexists _, _, _; split; [reflexivity|]; split;
           [eapply steps_trans; [exact S0|exact S1]|];
           split; [intros H; discriminate H|intros _];
           rewrite keystrokes_app, K0; reflexivity).
    set (w1 := after w0 (Click sel)) in *. clearbody w1. cbv iota beta.
    run_quiet quiet_ShortDelay.
    match goal with
    | |- context [bind (sleep ?d) _ _] => run_quiet (quiet_sleep d)
    end.
    rewrite bind_run.
    destruct (split_space_cons message) as (wd & ws & Esp).
    destruct (words_loop sel (Z.of_nat (List.length (split_space message)))
                         (split_space message) 0 w3
                         (split_space_ascii message Hascii) ltac:(lia))
      as (evs3 & w4 & E3 & S3 & T3 & I3).
    unfold upto. rewrite Nat2Z.id, E3. unfold ret.
    exists None, (evs0 ++ [(Click sel, ROk)] ++ evs ++ evs1 ++ evs3), w4.
    split; [reflexivity|]. split.
    { eapply steps_trans; [exact S0|]. eapply steps_trans; [exact S1|].
      eapply steps_trans; [exact S|]. eapply steps_trans; [exact S2|exact S3]. }
    assert (Hk : keystrokes (evs0 ++ [(Click sel, ROk)] ++ evs ++ evs1 ++ evs3)
                 = keystrokes evs3).
    { rewrite !keystrokes_app, K0, K, K1. reflexivity. }
    rewrite Hk. split; [|intros H; contradiction H; reflexivity].
    intros _. split; [rewrite I3; apply concat_split_space|].
    exists sel. exact T3.
  - unfold ret.
    exists (Some (Err "message field not found")), evs0, w0.
    split; [reflexivity|]. split; [exact S0|].
    split; [discriminate|intros _; exact K0].
Qed.

Lemma typeMessage_types_message_witness :
  ascii_only "Thanks for connecting, there!" = true
  /\ exists r evs w',
       messaging.typeMessage "Thanks for connecting, there!" world0 = (Val r, w')
       /\ steps world0 evs w'
       /\ (r = None ->
           inserted (keystrokes evs) = "Thanks for connecting, there!"
           /\ exists el, typed_into el (keystrokes evs))
       /\ (r <> None -> keystrokes evs = []).
Proof.
  split; [reflexivity|].
  apply (typeMessage_types_message "Thanks for connecting, there!" world0).
  reflexivity.
Defined.

Lemma readings_app (a b : list Event) : readings (a ++ b) = readings a ++ readings b.
Proof.
  induction a as [|[c r] a IH]; [reflexivity|].
  cbn [app readings]. destruct c; try exact IH.
  destruct r; cbn [app]; rewrite IH; reflexivity.
Qed.

Lemma time_Since_run (t : Z) (w : World) :
  exists d, time_Since t w = (Val d, after w Now)
            /\ readings [(Now, env w (trace w) Now)] = [reading w]
            /\ (24 * Hour <= d -> t + 86400 <= reading w).
Proof.
  unfold time_Since. rewrite bind_run, time_Now_run. cbv iota beta zeta.
  eexists. split; [reflexivity|]. split.
  - unfold reading. cbn [readings]. destruct (env w (trace w) Now); reflexivity.
  - assert (Hc : 24 * Hour = 86400 * 1000000000) by reflexivity.
    assert (Hs : Second = 1000000000) by reflexivity.
    rewrite Hc, Hs. unfold min_int64, max_int64. pow2.
    match goal with
    | |- context [if ?x <? ?y then _ else _] => destruct (Z.ltb_spec x y); [lia|]
    end.
    match goal with
    | |- context [if ?x <? ?y then _ else _] => destruct (Z.ltb_spec x y); lia
    end.
Qed.

Lemma oldEnough_run (pend : list ConnectionRequest) (w : World) :
  exists l evs w',
    messaging.oldEnough pend w = (Val l, w')
    /\ steps w evs w'
    /\ (forall r, In r l ->
                  In r pend
                  /\ exists now, In now (readings evs) /\ cr_SentAt r + 86400 <= now).
Proof.
  revert w. induction pend as [|r pend IH]; intros w.
  - exists [], [], w. split; [reflexivity|]. split; [apply steps_refl|].
    intros r [].
  - cbn [messaging.oldEnough]. rewrite bind_run.
    destruct (time_Since_run (cr_SentAt r) w) as (d & -> & Hr & Hd).
    destruct (IH (after w Now)) as (l & evs & w' & E & S & Hl).
    destruct (Z.ltb_spec d (24 * Hour)).
    + exists l, ([(Now, env w (trace w) Now)] ++ evs), w'.
      split; [exact E|]. split; [eapply steps_trans; [apply steps_after|exact S]|].
      intros x Hx. destruct (Hl x Hx) as (Hin & now & Hnow & Hle).
      split; [right; exact Hin|]. exists now. split; [|exact Hle].
      rewrite readings_app. apply in_or_app. right. exact Hnow.
    + rewrite bind_run, E. unfold ret.
      exists (r :: l), ([(Now, env w (trace w) Now)] ++ evs), w'.
      split; [reflexivity|].
      split; [eapply steps_trans; [apply steps_after|exact S]|].
      intros x [<-|Hx].
      * split; [left; reflexivity|]. exists (reading w). split; [|apply Hd; lia].
        rewrite readings_app, Hr. left. reflexivity.
      * destruct (Hl x Hx) as (Hin & now & Hnow & Hle).
        split; [right; exact Hin|]. exists now. split; [|exact Hle].
        rewrite readings_app. apply in_or_app. right. exact Hnow.
Qed.

Lemma CheckNewConnections_run (w : World) :
  exists l e evs w',
    messaging.CheckNewConnections w = (Val (l, e), w')
    /\ steps w evs w'
    /\ (forall r, In r l ->
                  In r (pending (db w))
                  /\ exists now, In now (readings evs) /\ cr_SentAt r + 86400 <= now)
    /\ (e <> None -> l = [])
    /\ (pending (db w) = [] ->
        l = []
        /\ evs = [(Sql "GetPendingRequests", env w (trace w) (Sql "GetPendingRequests"))]).
Proof.
  unfold messaging.CheckNewConnections, storage.GetPendingRequests.
  rewrite !bind_run.
  pose proof (steps_after w (Sql "GetPendingRequests")) as S0.
  destruct (statement_cases "GetPendingRequests" w) as [->|(x & ->)];
    cbv iota beta.
  2: { unfold ret, Errorf_w. cbv iota beta.
       eexists [], _, _, _. split; [reflexivity|]. split; [exact S0|].
       split; [intros r []|]. split; [reflexivity|]. intros _. split; reflexivity. }
  set (w0 := after w (Sql "GetPendingRequests")) in *.
  unfold get_db, ret at 1. rewrite bind_run. cbv iota beta.
  change (db w0) with (db w).
  set (sorted := fold_right storage.insert_desc [] _).
  assert (Hperm : Permutation sorted (pending (db w))) by apply sort_desc_perm.
  destruct sorted as [|r0 rest] eqn:Es.
  - cbn [List.length Z.of_nat Z.eqb]. unfold ret.
    eexists [], None, _, _. split; [reflexivity|]. split; [exact S0|].
    split; [intros r []|]. split; [reflexivity|]. intros _. split; reflexivity.
  - assert (Hne : pending (db w) <> []).
    { intros E. rewrite E in Hperm. apply Permutation_sym, Permutation_nil in Hperm.
      discriminate. }
    destruct (Z.eqb_spec (Z.of_nat (List.length (r0 :: rest))) 0) as [Hz|_];
      [cbn [List.length] in Hz; lia|].
    rewrite bind_run, call_err_run.
    pose proof (steps_after w0 (Navigate "https://www.linkedin.com/mynetwork/")) as S1.
    destruct (env w0 (trace w0) (Navigate "https://www.linkedin.com/mynetwork/"));
      try (unfold ret, Errorf_w; cbv iota beta;
           eexists [], _, _, _; split; [reflexivity|]; split;
           [eapply steps_trans; [exact S0|exact S1]|];
           split; [intros r []|]; split; [reflexivity|]; intros E; contradiction).
    cbv iota beta.
    set (w1 := after w0 (Navigate "https://www.linkedin.com/mynetwork/")) in *.
    rewrite bind_run, call_err_run.
    pose proof (steps_after w1 WaitLoad) as S2.
    destruct (env w1 (trace w1) WaitLoad);
      try (unfold ret, Errorf_w; cbv iota beta;
           eexists [], _, _, _; split; [reflexivity|]; split;
           [eapply steps_trans; [exact S0|]; eapply steps_trans; [exact S1|exact S2]|];
           split; [intros r []|]; split; [reflexivity|]; intros E; contradiction).
    cbv iota beta. set (w2 := after w1 WaitLoad) in *.
    rewrite bind_run.
    destruct (RandomDelay_run w2 (2 * Second) (4 * Second)
                ltac:(zcmp) ltac:(zcmp) ltac:(zcmp) ltac:(zcmp)) as (d & -> & _).
    rewrite bind_run, sleep_steps. cbv iota beta. rewrite bind_run.
    set (w4 := after (after w2 RngInt63) (Sleep d)).
    destruct (oldEnough_run (r0 :: rest) w4) as (l & evs & w5 & -> & S5 & Hl).
    unfold ret.
    eexists l, None, _, w5. split; [reflexivity|]. split.
    { eapply steps_trans; [exact S0|]. eapply steps_trans; [exact S1|].
      eapply steps_trans; [exact S2|].
      eapply steps_trans; [apply (steps_after w2)|].
      eapply steps_trans; [apply (steps_after (after w2 RngInt63))|]. exact S5. }
    split.
    { intros r Hr. destruct (Hl r Hr) as (Hin & now & Hnow & Hle).
      split; [eapply Permutation_in; [exact Hperm|exact Hin]|].
      exists now. split; [|exact Hle].
      rewrite !readings_app. repeat (apply in_or_app; right). exact Hnow. }
    split; [intros H; contradiction H; reflexivity|].
    intros E. contradiction.
Qed.

(** messaging.CheckNewConnections: the routine always returns.  Every
    request it reports is one of the pending requests of the store and was
    sent at least 24 hours before a reading of the clock made during the
    run; a returned error comes with no request; with no pending request
    the only call made is the query of the pending requests. *)
Theorem CheckNewConnections_old_pending (w : World) :
  exists l e evs w',
    messaging.CheckNewConnections w = (Val (l, e), w')
    /\ steps w evs w'
    /\ (forall r, In r l ->
                  In r (pending (db w))
                  /\ exists now, In now (readings evs) /\ cr_SentAt r + 86400 <= now)
    /\ (e <> None -> l = [])
    /\ (pending (db w) = [] ->
        l = []
        /\ evs = [(Sql "GetPendingRequests", env w (trace w) (Sql "GetPendingRequests"))]).
Proof. exact (CheckNewConnections_run w). Qed.

Lemma message_post_stable (url message : string) :
  stable (message_post url message).
Proof.
  split.
  - intros w evs w1 r w2 S [D | (Hr & (evs2 & sel & G & Hin & Hev) & Hc & Hm)].
    + left. rewrite D. destruct S as (_ & _ & D1 & _). exact D1.
    + right. pose proof S as (_ & _ & D1 & _). rewrite D1 in Hc, Hm.
      split; [exact Hr|]. split; [|split; assumption].
      exists (evs ++ evs2), sel. split; [|split].
      * eapply grows_trans; [apply steps_grows; exact S|exact G].
      * exact Hin.
      * apply in_or_app. right. exact Hev.
  - intros w evs w1 msg S. left. destruct S as (_ & _ & D & _). exact D.
Qed.

Lemma messaging_clickSendMessageButton_click :
  sat messaging.clickSendMessageButton (click_post messaging.sendSelectors).
Proof.
  intros w. unfold messaging.clickSendMessageButton.
  rewrite bind_run.
  destruct (firstElement_run messaging.sendSelectors (None, None) w)
    as (el & e & evs & Hrun & S & Hcase).
  rewrite Hrun. clear Hrun.
  set (w1 := snd (firstElement (None, None) messaging.sendSelectors w)) in *.
  clearbody w1.
  destruct Hcase as [(_ & Hnil) | [(sel & Hin & -> & -> & _) | (-> & x & ->)]].
  - discriminate Hnil.
  - unfold orFail at 1. rewrite bind_run. unfold ret at 1. cbv iota beta.
    rewrite bind_run. unfold deref at 1, ret at 1. cbv iota beta.
    destruct (click_found sel messaging.sendSelectors
                (500 * Millisecond) (1500 * Millisecond)
                (1 * Second) (2 * Second) "failed to click send button" w1 Hin)
      as (evs2 & S2 & Hc).
    exists (evs ++ evs2). split; [eapply steps_trans; eassumption|].
    intros Hr. destruct (Hc Hr) as (s & Hs & Hev).
    exists s. split; [exact Hs|]. apply in_or_app. right. exact Hev.
  - simpl. exists evs. split; [exact S|]. intros H. discriminate H.
Qed.

(** The statements that follow the send: they return nil whatever the
    database answers, and store at most the message. *)
Lemma message_tail (url message : string) (w : World) :
  let tail :=
    now <- time_Now ;;
    _ <- storage.RecordMessage
           {| m_ProfileURL := url; m_Message := message; m_SentAt := now |} ;;
    _ <- storage.RecordAction "message_sent" ;;
    ret None in
  exists evs,
    tail w = (Val (@None err), snd (tail w))
    /\ grows w evs (snd (tail w))
    /\ connection_requests (db (snd (tail w))) = connection_requests (db w)
    /\ (forall m, In m (messages (db (snd (tail w)))) ->
                  In m (messages (db w))
                  \/ (m_ProfileURL m = url /\ m_Message m = message)).
Proof.
  intros tail. unfold tail.
  rewrite bind_run, time_Now_run. cbv iota beta.
  unfold storage.RecordMessage, storage.RecordAction, orWrap.
  rewrite !bind_run, call_err_run.
  destruct (env (after w Now) (trace (after w Now)) (Sql "RecordMessage")) eqn:E1;
    cbn -[after]; rewrite ?bind_run, ?call_err_run;
    match goal with
    | |- context [env ?w' ?tr (Sql "RecordAction")] =>
        destruct (env w' tr (Sql "RecordAction")) eqn:E2
    end; cbn;
    (eexists; split; [reflexivity|]; split;
     [unfold grows; cbn; repeat split; rewrite <- ?app_assoc; reflexivity|];
     split; [reflexivity|];
     intros m Hm;
     first [ left; exact Hm
           | apply in_app_or in Hm; destruct Hm as [Hm|[<-|[]]];
             [left; exact Hm|right; split; reflexivity] ]).
Qed.

Lemma sat_send_then_store (url message : string) (click rest : M error) :
  sat click (click_post messaging.sendSelectors) ->
  (forall w, exists evs,
      rest w = (Val None, snd (rest w))
      /\ grows w evs (snd (rest w))
      /\ connection_requests (db (snd (rest w))) = connection_requests (db w)
      /\ (forall m, In m (messages (db (snd (rest w)))) ->
                    In m (messages (db w))
                    \/ (m_ProfileURL m = url /\ m_Message m = message))) ->
  sat (orWrap "failed to send message" click rest) (message_post url message).
Proof.
  intros Hclick Hrest w. unfold orWrap. rewrite bind_run.
  destruct (Hclick w) as (evs & S & Hc).
  destruct (click w) as [[[e|]|msg] w1]; simpl in S, Hc.
  - simpl. left. destruct S as (_ & _ & D & _). exact D.
  - destruct (Hc eq_refl) as (sel & Hin & Hev).
    destruct (Hrest w1) as (evs2 & Hr & G & Hcr & Hm).
    rewrite Hr. cbn [fst snd]. right.
    pose proof S as (_ & _ & D & _). rewrite D in Hcr, Hm.
    split; [reflexivity|]. split; [|split; assumption].
    exists (evs ++ evs2), sel. split; [|split].
    + eapply grows_trans; [apply steps_grows; exact S|exact G].
    + exact Hin.
    + apply in_or_app. left. exact Hev.
  - simpl. left. destruct S as (_ & _ & D & _). exact D.
Qed.

Ltac message_chain :=
  repeat first
    [ lazymatch goal with
      | |- sat (orWrap "failed to send message" _ _) _ => fail 1
      | |- sat (orWrap _ _ _) _ =>
          apply sat_orWrap;
          [apply message_post_stable | solve [io_tac]
          |intros; left; reflexivity | ]
      | |- sat (bind _ _) _ =>
          apply sat_bind_io;
          [apply message_post_stable | solve [io_tac] | intro ]
      | |- sat (match ?x with _ => _ end) _ => destruct x
      | |- sat (ret _) _ => apply sat_ret; intros; left; reflexivity
      end ].

Lemma SendMessage_sat (url message : string) (cfg : config.Config) :
  sat (messaging.SendMessage url message cfg) (message_post url message).
Proof.
  unfold messaging.SendMessage.
  message_chain.
  apply sat_send_then_store; [apply messaging_clickSendMessageButton_click|].
  intros w. apply (message_tail url message w).
Qed.

(** messaging.SendMessage stores only after the send.  A run that does not
    return nil leaves the database as it was.  A run that changes the
    database returned nil and contains a successful click on a send button
    of the message form.  No run touches the connection requests, and the
    only message a run can add is the given message for the given profile. *)
Theorem SendMessage_stores_only_after_send
        (url message : string) (cfg : config.Config) (w : World) :
  let r := fst (messaging.SendMessage url message cfg w) in
  let w' := snd (messaging.SendMessage url message cfg w) in
  (r <> Val None -> db w' = db w)
  /\ (db w' <> db w ->
      r = Val None
      /\ exists evs sel,
           grows w evs w' /\ In sel messaging.sendSelectors
           /\ In (Click sel, ROk) evs)
  /\ connection_requests (db w') = connection_requests (db w)
  /\ (forall m, In m (messages (db w')) ->
                In m (messages (db w))
                \/ (m_ProfileURL m = url /\ m_Message m = message)).
Proof.
  cbv zeta.
  destruct (SendMessage_sat url message cfg w)
    as [D | (Hr & Hclick & Hcr & Hm)].
  - split; [intros _; exact D|]. split; [intros H; contradiction|].
    rewrite D. split; [reflexivity|]. intros m Hm. left. exact Hm.
  - split; [intros H; contradiction|]. split; [intros _; split; assumption|].
    split; assumption.
Qed.

Lemma follow_up_only_refl (message : string) (urls : list string) (d : DB) :
  follow_up_only message urls d d.
Proof.
  split; [reflexivity|]. split; [intros r Hr _; exact Hr|].
  intros m Hm. left. exact Hm.
Qed.

Lemma follow_up_only_trans (message : string) (urls : list string)
                           (d1 d2 d3 : DB) :
  follow_up_only message urls d1 d2 -> follow_up_only message urls d2 d3 ->
  follow_up_only message urls d1 d3.
Proof.
  intros (U1 & P1 & M1) (U2 & P2 & M2). split; [|split].
  - rewrite U2. exact U1.
  - intros r Hr Hn. apply P2; [apply P1; assumption|exact Hn].
  - intros m Hm. destruct (M2 m Hm) as [H|H]; [apply M1; exact H|right; exact H].
Qed.

Lemma follow_up_only_incl (message : string) (urls urls' : list string)
                          (d d' : DB) :
  incl urls urls' ->
  follow_up_only message urls d d' -> follow_up_only message urls' d d'.
Proof.
  intros Hi (U & P & Mm). split; [exact U|]. split.
  - intros r Hr Hn. apply P; [exact Hr|]. intros H. apply Hn, Hi, H.
  - intros m Hm. destruct (Mm m Hm) as [H|(H1 & H2)]; [left; exact H|].
    right. split; [exact H1|apply Hi, H2].
Qed.

Lemma message_post_follow (url message : string) (w : World) (r : Res error)
                          (w' : World) :
  message_post url message w r w' ->
  follow_up_only message [url] (db w) (db w').
Proof.
  intros [D | (_ & _ & Hcr & Hm)].
  - rewrite D. apply follow_up_only_refl.
  - split; [rewrite Hcr; reflexivity|]. split.
    + intros q Hq _. unfold pending in *. rewrite Hcr. exact Hq.
    + intros m Hin. destruct (Hm m Hin) as [H|(H1 & H2)]; [left; exact H|].
      right. split; [exact H2|left; symmetry; exact H1].
Qed.

Lemma MarkRequestAccepted_follow (url message : string) (w : World) :
  follow_up_only message [url] (db w)
                 (db (snd (storage.MarkRequestAccepted url w))).
Proof.
  destruct (MarkRequestAccepted_run url w) as [(e & ->) | ->].
  - apply follow_up_only_refl.
  - cbn [snd db]. split; [|split].
    + cbn [connection_requests]. rewrite map_map. apply map_ext.
      intros r. destruct (_ && _); reflexivity.
    + intros r Hr Hn. unfold pending in *. cbn [connection_requests].
      apply filter_In in Hr. destruct Hr as (Hin & Hacc).
      apply filter_In. split; [|exact Hacc].
      apply in_map_iff. exists r. split; [|exact Hin].
      destruct (String.eqb_spec (cr_ProfileURL r) url) as [E|_]; [|reflexivity].
      exfalso. apply Hn. left. symmetry. exact E.
    + intros m Hm. left. exact Hm.
Qed.

Lemma followUp_follow (cfg : config.Config) (conn : ConnectionRequest)
                      (w : World) :
  follow_up_only
    (messaging.RenderTemplate (config.FollowUpTemplate (config.Messaging cfg))
                              [("name", "there")])
    [cr_ProfileURL conn] (db w) (db (snd (messaging.followUp cfg conn w))).
Proof.
  unfold messaging.followUp. cbv zeta. rewrite bind_run.
  destruct (time_Since_run (cr_SentAt conn) w) as (d & -> & _). cbv iota beta.
  destruct (d <? _); [apply follow_up_only_refl|].
  rewrite bind_run.
  set (message := messaging.RenderTemplate _ _).
  pose proof (SendMessage_sat (cr_ProfileURL conn) message cfg (after w Now)) as Hs.
  apply message_post_follow in Hs. change (db (after w Now)) with (db w) in Hs.
  destruct (messaging.SendMessage _ _ _ _) as [[[e|]|msg] w1];
    cbn [fst snd] in Hs; cbv iota beta; try exact Hs.
  eapply follow_up_only_trans; [exact Hs|].
  rewrite bind_run.
  pose proof (MarkRequestAccepted_follow (cr_ProfileURL conn) message w1) as Hm.
  destruct (storage.MarkRequestAccepted _ w1) as [[a|msg] w2];
    cbn [fst snd] in Hm; cbv iota beta; try exact Hm.
  eapply follow_up_only_trans; [exact Hm|].
  match goal with
  | |- context [snd (?c w2)] =>
      assert (Hio : io c) by io_tac; destruct (Hio w2) as (evs & (_ & _ & D & _))
  end.
  rewrite D. apply follow_up_only_refl.
Qed.

Lemma forM_followUp (cfg : config.Config) (l : list ConnectionRequest) :
  forall w,
    follow_up_only
      (messaging.RenderTemplate (config.FollowUpTemplate (config.Messaging cfg))
                                [("name", "there")])
      (map cr_ProfileURL l) (db w)
      (db (snd (forM l (messaging.followUp cfg) w))).
Proof.
  induction l as [|conn l IH]; intros w.
  - apply follow_up_only_refl.
  - cbn [forM map]. rewrite bind_run.
    pose proof (followUp_follow cfg conn w) as H1.
    destruct (messaging.followUp cfg conn w) as [[[]|msg] w1]; cbn [snd] in H1;
      cbv iota beta.
    + eapply follow_up_only_trans.
      * eapply follow_up_only_incl; [|exact H1].
        intros x [<-|[]]. left. reflexivity.
      * eapply follow_up_only_incl; [|apply IH].
        intros x Hx. right. exact Hx.
    + eapply follow_up_only_incl; [|exact H1].
      intros x [<-|[]]. left. reflexivity.
Qed.

Lemma ProcessNewConnections_run (cfg : config.Config) (w : World) :
  let r := fst (messaging.ProcessNewConnections cfg w) in
  let w' := snd (messaging.ProcessNewConnections cfg w) in
  exists l e0 evs0 w1,
    messaging.CheckNewConnections w = (Val (l, e0), w1)
    /\ steps w evs0 w1
    /\ (forall q, In q l ->
                  In q (pending (db w))
                  /\ exists now, In now (readings evs0)
                                 /\ cr_SentAt q + 86400 <= now)
    /\ (forall e, r = Val (Some e) ->
                  db w' = db w
                  /\ exists cause,
                       e0 = Some cause
                       /\ e = Wrap "failed to check new connections" cause)
    /\ follow_up_only
         (messaging.RenderTemplate
            (config.FollowUpTemplate (config.Messaging cfg)) [("name", "there")])
         (map cr_ProfileURL l) (db w) (db w').
Proof.
  cbv zeta. unfold messaging.ProcessNewConnections. rewrite bind_run.
  destruct (CheckNewConnections_run w)
    as (l & e & evs & w1 & E & St & Hl & _).
  exists l, e, evs, w1. split; [exact E|]. split; [exact St|].
  split; [exact Hl|]. rewrite E. destruct St as (_ & _ & D & _).
  cbv iota beta. unfold orWrap. rewrite bind_run. unfold ret. cbv iota beta.
  destruct e as [x|].
  - cbn [fst snd]. split.
    + intros e E0. inversion E0. split; [exact D|]. eexists.
      split; reflexivity.
    + rewrite D. apply follow_up_only_refl.
  - destruct (Z.of_nat (List.length l) =? 0).
    + cbn [fst snd]. split; [intros e E0; discriminate E0|].
      rewrite D. apply follow_up_only_refl.
    + rewrite bind_run.
      pose proof (forM_followUp cfg l w1) as Hf. rewrite D in Hf.
      destruct (forM l (messaging.followUp cfg) w1) as [[[]|msg] w2];
        cbn [fst snd] in *; (split; [intros e E0; discriminate E0|exact Hf]).
Qed.

(** messaging.ProcessNewConnections begins with CheckNewConnections, which
    reports pending requests sent at least 24 hours before a reading of the
    clock it made.  The only error ProcessNewConnections returns is the
    failure of that check, wrapped, and then the database is as it was: a
    follow-up that fails for one connection is skipped and the loop goes on.
    Whatever the run does, no request is added or removed, a pending request
    whose profile is not one of those reported stays pending, and every
    message added is the rendered follow-up template, for one of the
    profiles reported. *)
Theorem ProcessNewConnections_follow_ups (cfg : config.Config) (w : World) :
  let r := fst (messaging.ProcessNewConnections cfg w) in
  let w' := snd (messaging.ProcessNewConnections cfg w) in
  exists l e0 evs0 w1,
    messaging.CheckNewConnections w = (Val (l, e0), w1)
    /\ steps w evs0 w1
    /\ (forall q, In q l ->
                  In q (pending (db w))
                  /\ exists now, In now (readings evs0)
                                 /\ cr_SentAt q + 86400 <= now)
    /\ (forall e, r = Val (Some e) ->
                  db w' = db w
                  /\ exists cause,
                       e0 = Some cause
                       /\ e = Wrap "failed to check new connections" cause)
    /\ follow_up_only
         (messaging.RenderTemplate
            (config.FollowUpTemplate (config.Messaging cfg)) [("name", "there")])
         (map cr_ProfileURL l) (db w) (db w').
Proof. exact (ProcessNewConnections_run cfg w). Qed.

(* ------------------------------------------------------------------ *)
(** ** auth: the string helpers *)

Lemma substring_occurrence (pre sub post : string) :
  substring (String.length pre) (String.length sub) (pre ++ sub ++ post) = sub.
Proof.
  induction pre as [|x pre IH]; [|exact IH].
  cbn [String.length append]. induction sub as [|y sub IH].
  - destruct post; reflexivity.
  - cbn. rewrite IH. reflexivity.
Qed.

Lemma substring_split (s : string) :
  forall i n, (i + n <= String.length s)%nat ->
  exists pre post,
    s = (pre ++ substring i n s ++ post)%string /\ String.length pre = i.
Proof.
  induction s as [|x s IH]; intros i n H.
  - cbn in H. assert (i = 0%nat) by lia. assert (n = 0%nat) by lia. subst.
    exists EmptyString, EmptyString. split; reflexivity.
  - destruct i as [|i].
    + destruct n as [|n].
      * exists EmptyString, (String x s). split; reflexivity.
      * cbn in H. destruct (IH 0%nat n ltac:(lia)) as (pre & post & E & Hl).
        destruct pre; [|discriminate Hl]. cbn [append] in E.
        exists EmptyString, post. split; [|reflexivity].
        cbn [substring append]. f_equal. exact E.
    + cbn in H. destruct (IH i n ltac:(lia)) as (pre & post & E & Hl).
      exists (String x pre), post. split; [|cbn; rewrite Hl; reflexivity].
      cbn [substring append]. f_equal. exact E.
Qed.

Lemma slice_occurs (s sub : string) (i : Z) :
  0 <= i <= len s - len sub ->
  String.eqb (auth.slice s i (i + len sub)) sub = true ->
  occurs sub s.
Proof.
  intros Hi E. apply String.eqb_eq in E. unfold auth.slice, len in *.
  destruct (substring_split s (Z.to_nat i) (Z.to_nat (i + Z.of_nat (String.length sub) - i))
              ltac:(lia)) as (pre & post & Es & _).
  rewrite E in Es. exists pre, post. exact Es.
Qed.

Lemma In_upto (i n : Z) : In i (upto n) <-> 0 <= i < n.
Proof.
  unfold upto. rewrite in_map_iff. split.
  - intros (k & <- & Hk). apply in_seq in Hk. lia.
  - intros H. exists (Z.to_nat i). split; [lia|]. apply in_seq. lia.
Qed.

Lemma containsHelper_occurs (s sub : string) :
  auth.containsHelper s sub = true <-> occurs sub s.
Proof.
  unfold auth.containsHelper. rewrite existsb_exists. split.
  - intros (i & Hi & E). apply In_upto in Hi.
    apply (slice_occurs s sub i); [lia|exact E].
  - intros (pre & post & ->). exists (len pre). split.
    + apply In_upto. unfold len. rewrite !length_append. lia.
    + apply String.eqb_eq. unfold auth.slice, len.
      replace (Z.to_nat (Z.of_nat (String.length pre) + Z.of_nat (String.length sub)
                         - Z.of_nat (String.length pre)))
        with (String.length sub) by lia.
      rewrite Nat2Z.id. apply substring_occurrence.
Qed.

Lemma occurs_same_length (s sub : string) :
  occurs sub s -> len s = len sub -> s = sub.
Proof.
  intros (pre & post & ->) H. unfold len in H. rewrite !length_append in H.
  destruct pre; [|cbn in H; lia]. destruct post; [|cbn in H; lia].
  cbn [append]. apply append_nil_r.
Qed.

Lemma contains_run (s substr : string) :
  auth.contains s substr = true
  <-> occurs (auth.toLower substr) (auth.toLower s).
Proof.
  unfold auth.contains. cbv zeta.
  set (a := auth.toLower s). set (b := auth.toLower substr).
  split.
  - intros H. apply andb_true_iff in H. destruct H as (Hge & H).
    apply Z.geb_le in Hge.
    apply orb_true_iff in H. destruct H as [H|H].
    { apply String.eqb_eq in H. rewrite H.
      exists EmptyString, EmptyString. cbn [append]. symmetry. apply append_nil_r. }
    apply andb_true_iff in H. destruct H as (Hgt & H).
    apply Z.gtb_lt in Hgt.
    assert (H0 : 0 <= len b) by (unfold len; lia).
    apply orb_true_iff in H. destruct H as [H|H];
      [apply orb_true_iff in H; destruct H as [H|H]|].
    + apply (slice_occurs a b 0); [lia|exact H].
    + apply (slice_occurs a b (len a - len b)); [lia|].
      replace (len a - len b + len b) with (len a) by lia. exact H.
    + apply containsHelper_occurs. exact H.
  - intros H. pose proof H as (pre & post & E).
    assert (Hle : len b <= len a).
    { rewrite E. unfold len. rewrite !length_append. lia. }
    apply andb_true_iff. split; [apply Z.geb_le; exact Hle|].
    apply orb_true_iff.
    destruct (Z.eq_dec (len a) (len b)) as [Heq|Hne].
    + left. apply String.eqb_eq. apply occurs_same_length; assumption.
    + right. apply andb_true_iff. split; [apply Z.gtb_lt; lia|].
      apply orb_true_iff. right. apply containsHelper_occurs. exact H.
Qed.

Lemma toLower_from (s : string) :
  forall (i : Z) (acc : string),
    ascii_only s = true ->
    fold_left (fun result r =>
                 if (65 <=? r) && (r <=? 90)
                 then (result ++ string_of_rune (r + 32))%string
                 else (result ++ string_of_rune r)%string)
              (map snd (range_from i s)) acc
    = (acc ++ lower_ascii s)%string.
Proof.
  induction s as [|a s IH]; intros i acc H.
  - cbn. symmetry. apply append_nil_r.
  - cbn [ascii_only] in H. apply andb_true_iff in H. destruct H as [Ha Hs].
    cbn [range_from]. rewrite Ha. cbn [map snd fold_left lower_ascii].
    rewrite IH by exact Hs. apply Z.ltb_lt in Ha.
    assert (H0 : 0 <= byte_of a) by (unfold byte_of; lia).
    unfold lower_byte.
    destruct ((65 <=? byte_of a) && (byte_of a <=? 90)) eqn:Eu.
    + apply andb_true_iff in Eu. destruct Eu as (E1 & E2).
      apply Z.leb_le in E1, E2. rewrite append_assoc. f_equal.
      unfold string_of_rune.
      destruct (Z.leb_spec 0 (byte_of a + 32)); [|lia].
      destruct (Z.ltb_spec (byte_of a + 32) 128); [|lia]. reflexivity.
    + rewrite append_assoc. f_equal. unfold string_of_rune.
      destruct (Z.leb_spec 0 (byte_of a)); [|lia].
      destruct (Z.ltb_spec (byte_of a) 128); [|lia].
      cbn [andb bytes_string fold_right].
      unfold ascii_of, byte_of. rewrite N2Z.id, ascii_N_embedding. reflexivity.
Qed.

Lemma length_lower_ascii (s : string) :
  String.length (lower_ascii s) = String.length s.
Proof. induction s as [|a s IH]; [reflexivity|]. cbn. rewrite IH. reflexivity. Qed.

Lemma toLower_run (s : string) :
  ascii_only s = true -> auth.toLower s = lower_ascii s.
Proof.
  intros H. unfold auth.toLower, runes, range.
  rewrite (toLower_from s 0 EmptyString H). reflexivity.
Qed.

(** auth.contains is the substring test on the lower-cased strings: it
    answers true exactly when the lower-cased substring occurs somewhere in
    the lower-cased string.  (The comparisons of lengths, of the whole
    string, of its prefix and of its suffix made before the search change
    nothing, and no slice is taken out of range.) *)
Theorem contains_is_substring_test (s substr : string) :
  auth.contains s substr = true
  <-> occurs (auth.toLower substr) (auth.toLower s).
Proof. exact (contains_run s substr). Qed.

(** auth.toLower on text of ASCII characters lowers the letters A to Z
    and keeps every other byte, so the length is kept; and on such text
    auth.contains is the substring test that ignores the case of letters. *)
Theorem toLower_ascii (s : string) :
  ascii_only s = true ->
  auth.toLower s = lower_ascii s
  /\ len (auth.toLower s) = len s
  /\ (forall substr, ascii_only substr = true ->
        (auth.contains s substr = true
         <-> occurs (lower_ascii substr) (lower_ascii s))).
Proof.
  intros H. rewrite (toLower_run s H). split; [reflexivity|]. split.
  - unfold len. rewrite length_lower_ascii. reflexivity.
  - intros substr Hs. rewrite contains_run, (toLower_run s H), (toLower_run substr Hs).
    reflexivity.
Qed.

Lemma toLower_ascii_witness :
  ascii_only "https://www.LinkedIn.com/Feed/" = true
  /\ auth.toLower "https://www.LinkedIn.com/Feed/"
     = lower_ascii "https://www.LinkedIn.com/Feed/".
Proof.
  split; [reflexivity|].
  apply (toLower_ascii "https://www.LinkedIn.com/Feed/"). reflexivity.
Defined.

(* ------------------------------------------------------------------ *)
(** ** config: validation and business hours *)

(** What an accepted configuration satisfies. *)
Lemma Validate_nil (s : config.Settings) (c : config.Config) :
  config.Validate s c = None ->
  config.Email (config.LinkedIn s) <> EmptyString
  /\ config.Password (config.LinkedIn s) <> EmptyString
  /\ 0 < config.MaxResults (config.Search s)
  /\ 0 < config.MaxPages (config.Search s)
  /\ 0 < config.DailyLimit (config.Connection c)
  /\ 0 <= config.MinDelaySeconds (config.Connection c)
          <= config.MaxDelaySeconds (config.Connection c)
  /\ 0 <= config.Start (config.StealthBusinessHours (config.Stealth s)) <= 23
  /\ 0 <= config.End_ (config.StealthBusinessHours (config.Stealth s)) <= 23
  /\ config.validLevels (config.Level (config.Logging s)) = true.
Proof.
  unfold config.Validate. intros H.
  destruct (String.eqb_spec (config.Email (config.LinkedIn s)) EmptyString);
    [discriminate H|].
  destruct (String.eqb_spec (config.Password (config.LinkedIn s)) EmptyString);
    [discriminate H|].
  destruct (Z.leb_spec (config.MaxResults (config.Search s)) 0); [discriminate H|].
  destruct (Z.leb_spec (config.MaxPages (config.Search s)) 0); [discriminate H|].
  destruct (Z.leb_spec (config.DailyLimit (config.Connection c)) 0);
    [discriminate H|].
  destruct (Z.ltb_spec (config.MinDelaySeconds (config.Connection c)) 0);
    [discriminate H|].
  destruct (Z.ltb_spec (config.MaxDelaySeconds (config.Connection c))
                       (config.MinDelaySeconds (config.Connection c)));
    [discriminate H|].
  destruct (Z.ltb_spec (config.Start (config.StealthBusinessHours (config.Stealth s))) 0);
    [discriminate H|].
  destruct (Z.gtb_spec (config.Start (config.StealthBusinessHours (config.Stealth s))) 23);
    [discriminate H|].
  destruct (Z.ltb_spec (config.End_ (config.StealthBusinessHours (config.Stealth s))) 0);
    [discriminate H|].
  destruct (Z.gtb_spec (config.End_ (config.StealthBusinessHours (config.Stealth s))) 23);
    [discriminate H|].
  cbn [orb] in H.
  destruct (config.validLevels (config.Level (config.Logging s)));
    [|discriminate H].
  repeat split; try assumption; lia.
Qed.

Lemma Validate_delays (s : config.Settings) (c : config.Config) (w : World) :
  config.Validate s c = None ->
  config.MaxDelaySeconds (config.Connection c) <= 9223372036 ->
  config.GetMinDelay c = config.MinDelaySeconds (config.Connection c) * Second
  /\ config.GetMaxDelay c = config.MaxDelaySeconds (config.Connection c) * Second
  /\ exists d w',
       stealth.RandomDelay (config.GetMinDelay c) (config.GetMaxDelay c) w
       = (Val d, w')
       /\ 0 <= config.GetMinDelay c <= d /\ d <= config.GetMaxDelay c.
Proof.
  intros Hv Hmax.
  destruct (Validate_nil s c Hv) as (_ & _ & _ & _ & _ & Hd & _).
  assert (Hs : Second = 1000000000) by reflexivity.
  assert (E1 : config.GetMinDelay c
               = config.MinDelaySeconds (config.Connection c) * Second).
  { unfold config.GetMinDelay. apply wrap64_id.
    unfold int64, min_int64, max_int64. rewrite Hs. pow2. lia. }
  assert (E2 : config.GetMaxDelay c
               = config.MaxDelaySeconds (config.Connection c) * Second).
  { unfold config.GetMaxDelay. apply wrap64_id.
    unfold int64, min_int64, max_int64. rewrite Hs. pow2. lia. }
  split; [exact E1|]. split; [exact E2|].
  rewrite E1, E2, Hs.
  set (a := config.MinDelaySeconds (config.Connection c)) in *.
  set (b := config.MaxDelaySeconds (config.Connection c)) in *.
  destruct (Z.eq_dec a b) as [Eab|Hne].
  - exists (a * 1000000000), w. rewrite <- Eab.
    rewrite RandomDelay_degenerate by lia. split; [reflexivity|lia].
  - destruct (RandomDelay_run w (a * 1000000000) (b * 1000000000))
      as (d & Hrun & Hr).
    + unfold int64, min_int64, max_int64. pow2. lia.
    + unfold int64, min_int64, max_int64. pow2. lia.
    + lia.
    + unfold max_int64. pow2. lia.
    + exists d, (after w RngInt63). split; [exact Hrun|lia].
Qed.

Lemma config_IsBusinessHours_run (s : config.Settings) (w : World) :
  config.BusinessHoursOnly (config.Stealth s) = true ->
  config.IsBusinessHours s w
  = (Val (inBusinessHours
            (config.Start (config.StealthBusinessHours (config.Stealth s)))
            (config.End_ (config.StealthBusinessHours (config.Stealth s)))
            (config.WorkDays (config.Stealth s)) (reading w)),
     after w Now).
Proof.
  intros H. unfold config.IsBusinessHours. rewrite H. cbn [negb].
  rewrite bind_run, time_Now_run. cbv iota beta zeta.
  unfold inBusinessHours, stealth.isWorkDay.
  destruct (existsb _ (config.WorkDays (config.Stealth s))); reflexivity.
Qed.

Lemma Validate_hours (s : config.Settings) (c : config.Config) (a b : Z) :
  config.Validate s c = None -> 0 <= a <= 23 -> 0 <= b <= 23 ->
  config.Validate (with_hours s a b) c = None.
Proof.
  intros H Ha Hb.
  destruct (Validate_nil s c H) as (H1 & H2 & H3 & H4 & H5 & H6 & _ & _ & H9).
  unfold config.Validate, with_hours.
  cbn [config.LinkedIn config.Search config.Stealth config.Logging
       config.StealthBusinessHours config.Start config.End_].
  destruct (String.eqb_spec (config.Email (config.LinkedIn s)) EmptyString);
    [contradiction|].
  destruct (String.eqb_spec (config.Password (config.LinkedIn s)) EmptyString);
    [contradiction|].
  destruct (Z.leb_spec (config.MaxResults (config.Search s)) 0); [lia|].
  destruct (Z.leb_spec (config.MaxPages (config.Search s)) 0); [lia|].
  destruct (Z.leb_spec (config.DailyLimit (config.Connection c)) 0); [lia|].
  destruct (Z.ltb_spec (config.MinDelaySeconds (config.Connection c)) 0); [lia|].
  destruct (Z.ltb_spec (config.MaxDelaySeconds (config.Connection c))
                       (config.MinDelaySeconds (config.Connection c))); [lia|].
  destruct (Z.ltb_spec a 0); [lia|]. destruct (Z.gtb_spec a 23); [lia|].
  destruct (Z.ltb_spec b 0); [lia|]. destruct (Z.gtb_spec b 23); [lia|].
  cbn [orb]. rewrite H9. reflexivity.
Qed.

(** An accepted configuration gives usable delays.  When Validate returns
    nil and the maximal delay is at most 9223372036 seconds (the largest
    number of seconds a Duration holds), GetMinDelay and GetMaxDelay are
    these numbers of seconds, and the delay between two requests,
    RandomDelay(GetMinDelay, GetMaxDelay), is drawn without a panic, is not
    negative and lies between the two. *)
Theorem Validate_gives_usable_delays
        (s : config.Settings) (c : config.Config) (w : World) :
  config.Validate s c = None ->
  config.MaxDelaySeconds (config.Connection c) <= 9223372036 ->
  config.GetMinDelay c = config.MinDelaySeconds (config.Connection c) * Second
  /\ config.GetMaxDelay c = config.MaxDelaySeconds (config.Connection c) * Second
  /\ exists d w',
       stealth.RandomDelay (config.GetMinDelay c) (config.GetMaxDelay c) w
       = (Val d, w')
       /\ 0 <= config.GetMinDelay c <= d /\ d <= config.GetMaxDelay c.
Proof. exact (Validate_delays s c w). Qed.

(** The two tests of business hours.  When the restriction to business
    hours is switched off, the method of the configuration answers true
    without reading the clock; when it is on, it is the function of the
    stealth package at the configured hours and work days.  Validate checks
    each bound of the business hours alone: it accepts hours whose end is
    not after their start, and with such hours the answer is false at every
    time. *)
Theorem config_IsBusinessHours_agrees (s : config.Settings) (w : World) :
  let start := config.Start (config.StealthBusinessHours (config.Stealth s)) in
  let end_ := config.End_ (config.StealthBusinessHours (config.Stealth s)) in
  (config.BusinessHoursOnly (config.Stealth s) = false ->
   config.IsBusinessHours s w = (Val true, w))
  /\ (config.BusinessHoursOnly (config.Stealth s) = true ->
      config.IsBusinessHours s w
      = stealth.IsBusinessHours start end_ (config.WorkDays (config.Stealth s)) w)
  /\ (config.BusinessHoursOnly (config.Stealth s) = true -> end_ <= start ->
      config.IsBusinessHours s w = (Val false, after w Now))
  /\ (forall c a b, config.Validate s c = None ->
                    0 <= a <= 23 -> 0 <= b <= 23 ->
                    config.Validate (with_hours s a b) c = None).
Proof.
  cbv zeta. split; [|split; [|split]].
  - intros H. unfold config.IsBusinessHours. rewrite H. reflexivity.
  - intros H. rewrite config_IsBusinessHours_run by exact H.
    rewrite IsBusinessHours_run. reflexivity.
  - intros H Hle. rewrite config_IsBusinessHours_run by exact H.
    unfold inBusinessHours.
    destruct (Z.geb_spec (HourOf (reading w))
                (config.Start (config.StealthBusinessHours (config.Stealth s))));
      destruct (Z.ltb_spec (HourOf (reading w))
                  (config.End_ (config.StealthBusinessHours (config.Stealth s))));
      try lia; rewrite ?andb_false_r; reflexivity.
  - intros c a b. apply Validate_hours.
Qed.

Lemma Validate_gives_usable_delays_witness :
  config.Validate office_settings limit5 = None
  /\ config.GetMaxDelay limit5 = 60 * Second.
Proof.
  split; [reflexivity|].
  apply (Validate_gives_usable_delays office_settings limit5 world0);
    [reflexivity|vm_compute; discriminate].
Defined.

(* ------------------------------------------------------------------ *)
(** ** cmd: the automation cycle *)

Lemma bind_no_error {A} (c : M A) (k : A -> M error) :
  (forall a w e w', k a w <> (Val (Some e), w')) ->
  forall w e w', bind c k w <> (Val (Some e), w').
Proof.
  intros Hk w e w'. rewrite bind_run.
  destruct (c w) as [[a|msg] w1]; [apply Hk|discriminate].
Qed.

Lemma SearchAndCollect_run (w : World) :
  (exists l,
      env w (trace w) SearchAndCollect = RProfiles l
      /\ main.SearchAndCollect w
         = (Val (map (fun p => {| main.Name := fst p; main.URL := snd p |}) l, None),
            after w SearchAndCollect))
  \/ ((forall l, env w (trace w) SearchAndCollect <> RProfiles l)
      /\ exists x, main.SearchAndCollect w
                   = (Val ([], Some x), after w SearchAndCollect)).
Proof.
  unfold main.SearchAndCollect. rewrite bind_run. unfold call, ret.
  destruct (env w (trace w) SearchAndCollect) as [| | | | | |l] eqn:E;
    try (right; split;
         [intros l0 H; discriminate H
         |eexists; unfold after; rewrite E; reflexivity]).
  left. exists l. split; [reflexivity|]. unfold after. rewrite E. reflexivity.
Qed.

Lemma runAutomationCycle_run
    (Send : string -> string -> config.Config -> M error)
    (CheckLimit : config.Config -> M (bool * Z * error))
    (Should : config.Config -> M bool)
    (Generate : string -> string -> string -> string)
    (cfg : config.Config) (w : World) :
  let run := main.runAutomationCycle Send CheckLimit Should Generate cfg w in
  (forall e w', run = (Val (Some e), w') ->
                w' = after w SearchAndCollect
                /\ (exists cause, e = Wrap "profile search failed" cause)
                /\ forall l, env w (trace w) SearchAndCollect <> RProfiles l)
  /\ ((forall l, env w (trace w) SearchAndCollect <> RProfiles l) ->
      exists cause,
        run = (Val (Some (Wrap "profile search failed" cause)),
               after w SearchAndCollect)).
Proof.
  cbv zeta. unfold main.runAutomationCycle. rewrite bind_run.
  destruct (SearchAndCollect_run w) as [(l & E & ->) | (Hn & x & ->)];
    cbv iota beta; unfold orWrap; rewrite bind_run; unfold ret at 1;
    cbv iota beta.
  - split.
    + intros e w' H. exfalso. revert H.
      repeat (apply bind_no_error; intros).
      unfold ret. discriminate.
    + intros H. exfalso. apply (H l). exact E.
  - unfold ret. split.
    + intros e w' H. inversion H. split; [reflexivity|].
      split; [eexists; reflexivity|exact Hn].
    + intros _. eexists. reflexivity.
Qed.

Lemma sendRequests_bound
    (Send : string -> string -> config.Config -> M error)
    (CheckLimit : config.Config -> M (bool * Z * error))
    (Should : config.Config -> M bool)
    (Generate : string -> string -> string -> string)
    (cfg : config.Config) (profiles : list main.Profile) :
  forall (n : Z) (w : World) (r : Z),
    0 <= n -> n + Z.of_nat (List.length profiles) <= max_int64 ->
    fst (main.sendRequests Send CheckLimit Should Generate cfg profiles n w) = Val r ->
    n <= r <= n + Z.of_nat (List.length profiles).
Proof.
  induction profiles as [|p rest IH]; intros n w r Hn Hmax H.
  - cbn in H. inversion H. cbn [List.length]. lia.
  - cbn [main.sendRequests] in H. cbn [List.length] in *.
    rewrite bind_run in H.
    destruct (CheckLimit cfg w) as [[[[allowed remaining] e]|msg] w1];
      [|discriminate H].
    cbv iota beta in H.
    destruct (negb (is_nil e)); [inversion H; lia|].
    destruct (negb allowed); [inversion H; lia|].
    rewrite bind_run in H.
    destruct (Should cfg w1) as [[add|msg] w2]; [|discriminate H].
    cbv iota beta zeta in H. rewrite bind_run in H.
    destruct (main.retryWithBackoff _ 3 w2) as [[[x|]|msg] w3];
      [| |discriminate H]; cbv iota beta in H.
    + apply IH in H; lia.
    + assert (Hw : wrap64 (n + 1) = n + 1).
      { apply wrap64_id. unfold int64, min_int64, max_int64 in *. pow2. lia. }
      rewrite Hw in H.
      repeat (rewrite bind_run in H;
              match type of H with
              | context [match ?c ?w with _ => _ end] =>
                  destruct (c w) as [[?a|?msg] ?w]; [|discriminate H]
              end; cbv iota beta in H).
      apply IH in H; lia.
Qed.

(** main.runAutomationCycle fails only on the search.  Whatever the
    functions of package connection do, the cycle returns an error only when
    the search did not return profiles: the error is then the failure of the
    search, wrapped as "profile search failed", and the search is the only
    call made.  When the search returns profiles, no failure of the later
    phases (daily limit, sends, follow-up messages) is returned. *)
Theorem runAutomationCycle_fails_only_on_search
    (Send : string -> string -> config.Config -> M error)
    (CheckLimit : config.Config -> M (bool * Z * error))
    (Should : config.Config -> M bool)
    (Generate : string -> string -> string -> string)
    (cfg : config.Config) (w : World) :
  let run := main.runAutomationCycle Send CheckLimit Should Generate cfg w in
  (forall e w', run = (Val (Some e), w') ->
                w' = after w SearchAndCollect
                /\ (exists cause, e = Wrap "profile search failed" cause)
                /\ forall l, env w (trace w) SearchAndCollect <> RProfiles l)
  /\ ((forall l, env w (trace w) SearchAndCollect <> RProfiles l) ->
      exists cause,
        run = (Val (Some (Wrap "profile search failed" cause)),
               after w SearchAndCollect)).
Proof. exact (runAutomationCycle_run Send CheckLimit Should Generate cfg w). Qed.

(** The count of requests sent in phase 2 of the cycle.  Whatever the
    functions of package connection do, when the loop over the profiles
    returns, the count it returns is at least the count on entry and exceeds
    it by at most the number of profiles: a profile counts at most once, and
    a failed send does not count. *)
Theorem sendRequests_counts_each_profile_once
    (Send : string -> string -> config.Config -> M error)
    (CheckLimit : config.Config -> M (bool * Z * error))
    (Should : config.Config -> M bool)
    (Generate : string -> string -> string -> string)
    (cfg : config.Config) (profiles : list main.Profile)
    (n : Z) (w : World) (r : Z) :
  0 <= n -> n + Z.of_nat (List.length profiles) <= max_int64 ->
  fst (main.sendRequests Send CheckLimit Should Generate cfg profiles n w) = Val r ->
  n <= r <= n + Z.of_nat (List.length profiles).
Proof. apply sendRequests_bound. Qed.

Lemma sendRequests_counts_each_profile_once_witness :
  fst (main.sendRequests connection.SendConnectionRequest
         connection.CheckDailyLimit connection.ShouldAddNote
         connection.GeneratePersonalizedNote limit5 two_profiles 0 world0)
  = Val 2
  /\ 0 <= 2 <= 0 + Z.of_nat (List.length two_profiles).
Proof.
  split; [vm_compute; reflexivity|].
  apply (sendRequests_counts_each_profile_once
           connection.SendConnectionRequest connection.CheckDailyLimit
           connection.ShouldAddNote connection.GeneratePersonalizedNote
           limit5 two_profiles 0 world0 2).
  - lia.
  - vm_compute. discriminate.
  - vm_compute. reflexivity.
Defined.

(* ------------------------------------------------------------------ *)
(** ** Templates of notes and messages *)

Lemma prefix_append (old t : string) : String.prefix old (old ++ t) = true.
Proof.
  induction old as [|x old IH]; [destruct t; reflexivity|].
  cbn [append String.prefix]. destruct (ascii_dec x x); [exact IH|contradiction].
Qed.

Lemma prefix_brace (old' s : string) (a : ascii) :
  Ascii.eqb a "{" = false -> String.prefix (String "{" old') (String a s) = false.
Proof.
  intros H. cbn [String.prefix]. destruct (ascii_dec "{" a) as [<-|_]; [|reflexivity].
  discriminate H.
Qed.

Lemma replace_skip (old new : string) (u t : string) :
  replace_from (String.length u) old new (u ++ t) = replace_from 0 old new t.
Proof.
  induction u as [|x u IH]; [destruct t; reflexivity|]. exact IH.
Qed.

Lemma replace_hit (old' new t : string) (x : ascii) :
  replace_from 0 (String x old') new (String x old' ++ t)
  = (new ++ replace_from 0 (String x old') new t)%string.
Proof.
  cbn [append replace_from].
  change (String x (old' ++ t)) with (String x old' ++ t)%string.
  rewrite prefix_append.
  replace (String.length (String x old') - 1)%nat with (String.length old')
    by (cbn [String.length]; lia).
  rewrite replace_skip. reflexivity.
Qed.

Lemma replace_free_app (old' new a t : string) :
  brace_free a = true ->
  replace_from 0 (String "{" old') new (a ++ t)
  = (a ++ replace_from 0 (String "{" old') new t)%string.
Proof.
  induction a as [|x a IH]; intros H; [reflexivity|].
  cbn [brace_free] in H. apply andb_true_iff in H. destruct H as (Hx & Ha).
  apply negb_true_iff in Hx.
  cbn [append replace_from]. rewrite (prefix_brace old' (a ++ t) x Hx).
  rewrite IH by exact Ha. reflexivity.
Qed.

Lemma replace_free (old' new a : string) :
  brace_free a = true -> ReplaceAll a (String "{" old') new = a.
Proof.
  intros H. unfold ReplaceAll.
  rewrite <- (append_nil_r a) at 1. rewrite replace_free_app by exact H.
  cbn [replace_from]. apply append_nil_r.
Qed.

Lemma brace_free_app (a b : string) :
  brace_free (a ++ b) = brace_free a && brace_free b.
Proof.
  induction a as [|x a IH]; [reflexivity|]. cbn [append brace_free].
  rewrite IH. apply andb_assoc.
Qed.

Lemma replace_name_once (a b name : string) :
  brace_free a = true -> brace_free b = true ->
  ReplaceAll (a ++ "{{name}}" ++ b) "{{name}}" name = (a ++ name ++ b)%string.
Proof.
  intros Ha Hb. unfold ReplaceAll.
  rewrite replace_free_app by exact Ha. rewrite replace_hit.
  fold (ReplaceAll b "{{name}}" name). rewrite replace_free by exact Hb.
  reflexivity.
Qed.

Lemma fill_both (a b c name interest : string) :
  brace_free a = true -> brace_free b = true -> brace_free c = true ->
  brace_free name = true ->
  ReplaceAll (ReplaceAll (a ++ "{{name}}" ++ b ++ "{{interest}}" ++ c)
                         "{{name}}" name)
             "{{interest}}" interest
  = (a ++ name ++ b ++ interest ++ c)%string.
Proof.
  intros Ha Hb Hc Hn.
  assert (E1 : ReplaceAll (a ++ "{{name}}" ++ b ++ "{{interest}}" ++ c)
                          "{{name}}" name
               = (a ++ name ++ b ++ "{{interest}}" ++ c)%string).
  { unfold ReplaceAll. rewrite replace_free_app by exact Ha. rewrite replace_hit.
    rewrite replace_free_app by exact Hb.
    do 3 f_equal.
    change (replace_from 0 "{{name}}" name ("{{interest}}" ++ c))
      with ("{{interest}}" ++ replace_from 0 "{{name}}" name c)%string.
    f_equal. apply replace_free, Hc. }
  rewrite E1. unfold ReplaceAll.
  rewrite <- !append_assoc.
  rewrite (append_assoc ((a ++ name) ++ b) "{{interest}}" c).
  rewrite replace_free_app.
  - rewrite replace_hit. fold (ReplaceAll c "{{interest}}" interest).
    rewrite replace_free by exact Hc. rewrite !append_assoc. reflexivity.
  - rewrite !brace_free_app, Ha, Hn, Hb. reflexivity.
Qed.

(** Filling in a template.  For a template made of text without braces
    around one placeholder for the name and one for the interest, and a name
    without braces, GeneratePersonalizedNote (in both versions of package
    connection) returns the text with the name and the interest in the place
    of their placeholders; a template without braces is returned as it is;
    and RenderTemplate with the one variable "name" fills in the name in the
    same way. *)
Theorem GeneratePersonalizedNote_fills_placeholders
        (a b c name interest : string) :
  brace_free a = true -> brace_free b = true -> brace_free c = true ->
  brace_free name = true ->
  let template := (a ++ "{{name}}" ++ b ++ "{{interest}}" ++ c)%string in
  connection.GeneratePersonalizedNote template name interest
  = (a ++ name ++ b ++ interest ++ c)%string
  /\ connection_rev.GeneratePersonalizedNote template name interest
     = (a ++ name ++ b ++ interest ++ c)%string
  /\ connection.GeneratePersonalizedNote a name interest = a
  /\ connection_rev.GeneratePersonalizedNote a name interest = a
  /\ messaging.RenderTemplate (a ++ "{{name}}" ++ b) [("name", name)]
     = (a ++ name ++ b)%string.
Proof.
  intros Ha Hb Hc Hn. cbv zeta.
  unfold connection.GeneratePersonalizedNote,
    connection_rev.GeneratePersonalizedNote, messaging.RenderTemplate.
  cbv zeta. cbn [fold_left fst snd].
  change ("{{" ++ "name" ++ "}}")%string with "{{name}}".
  rewrite (fill_both a b c name interest Ha Hb Hc Hn).
  rewrite !(replace_free _ _ a Ha).
  rewrite (replace_name_once a b name Ha Hb).
  repeat split; reflexivity.
Qed.

Lemma GeneratePersonalizedNote_fills_placeholders_witness :
  connection.GeneratePersonalizedNote
    ("Hi " ++ "{{name}}" ++ ", I saw your work in " ++ "{{interest}}" ++ ".")
    "Ada" "technology"
  = ("Hi " ++ "Ada" ++ ", I saw your work in " ++ "technology" ++ ".")%string.
Proof.
  apply (GeneratePersonalizedNote_fills_placeholders
           "Hi " ", I saw your work in " "." "Ada" "technology");
    reflexivity.
Defined.

(* ------------------------------------------------------------------ *)
(** ** stealth: scrolling through a feed *)

Lemma ScrollPage_bounded (direction : string) (w : World) :
  exists r evs w',
    stealth.ScrollPage direction w = (Val r, w')
    /\ steps w evs w'
    /\ Forall (fun x => -199 <= x <= 199) (scrolls evs)
    /\ (String.eqb direction "up" = false ->
        exists x rest, scrolls evs = x :: rest /\ 16 <= x)
    /\ (forall e, r = Some e -> exists cause, e = Wrap "failed to scroll" cause).
Proof.
  destruct (ScrollPage_run direction w)
    as (r & evs & w' & amount & k & corr & E & St & Hs & Ha & Hk & Hr & He).
  exists r, evs, w'. split; [exact E|]. split; [exact St|]. split; [|split].
  - rewrite Hs. apply Forall_app. split.
    + apply Forall_forall. intros x Hx. apply repeat_spec in Hx. subst x.
      destruct (String.eqb direction "up"); lia.
    + destruct r as [e|].
      * destruct (He e eq_refl) as (-> & _). constructor.
      * destruct (Hr eq_refl) as (_ & [-> | (c & -> & Hc)]);
          [constructor|]. constructor; [lia|constructor].
  - intros Hd. rewrite Hs, Hd. destruct k as [|k]; [lia|].
    cbn [repeat app]. eexists _, _. split; [reflexivity|]. lia.
  - intros e Hr'. apply He. exact Hr'.
Qed.

Lemma feed_loop (l : list Z) :
  forall w,
  exists r evs w',
    forE l (fun _ =>
      e <- stealth.ScrollPage "down" ;;
      match e with
      | Some _ => ret e
      | None =>
          readDelay <- stealth.RandomDelay (1 * Second) (4 * Second) ;;
          sleep readDelay ;;
          f <- rand.Float64 ;;
          (if fltb f (fconst 0.2) then
             _ <- stealth.ScrollPage "up" ;;
             d <- stealth.ShortDelay ;;
             sleep d
           else ret tt) ;;
          ret None
      end) w = (Val r, w')
    /\ steps w evs w'
    /\ Forall (fun x => -199 <= x <= 199) (scrolls evs)
    /\ (l = [] -> r = None /\ evs = [])
    /\ (l <> [] -> exists x rest, scrolls evs = x :: rest /\ 16 <= x)
    /\ (forall e, r = Some e -> exists cause, e = Wrap "failed to scroll" cause).
Proof.
  induction l as [|i l IH]; intros w.
  - exists None, [], w. split; [reflexivity|]. split; [apply steps_refl|].
    split; [constructor|]. split; [split; reflexivity|].
    split; [congruence|discriminate].
  - cbn [forE].
    match goal with
    | |- context [forE l ?b] => set (loop := forE l b) in *
    end.
    rewrite bind_run, bind_run.
    destruct (ScrollPage_bounded "down" w)
      as (r1 & evs1 & w1 & -> & S1 & B1 & F1 & He1).
    specialize (F1 eq_refl). destruct F1 as (x & rest & Hx & Hx16).
    cbv iota beta.
    destruct r1 as [e1|].
    + unfold ret. exists (Some e1), evs1, w1.
      split; [reflexivity|]. split; [exact S1|]. split; [exact B1|].
      split; [discriminate|]. split; [intros _; exists x, rest; auto|].
      intros e E. inversion E; subst. apply He1. reflexivity.
    + rewrite bind_run.
      destruct (RandomDelay_run w1 (1 * Second) (4 * Second)
                  ltac:(zcmp) ltac:(zcmp) ltac:(zcmp) ltac:(zcmp)) as (d & -> & _).
      rewrite bind_run, sleep_steps. cbv iota beta.
      set (w2 := after w1 RngInt63). set (w3 := after w2 (Sleep d)).
      rewrite bind_run. destruct (Float64_run w3) as (f & ->).
      set (w4 := after w3 RngInt63). cbv iota beta.
      assert (S4 : steps w (evs1 ++ [(RngInt63, env w1 (trace w1) RngInt63)]
                              ++ [(Sleep d, env w2 (trace w2) (Sleep d))]
                              ++ [(RngInt63, env w3 (trace w3) RngInt63)]) w4).
      { eapply steps_trans; [exact S1|].
        eapply steps_trans; [apply (steps_after w1)|].
        eapply steps_trans; [apply (steps_after w2)|].
        apply (steps_after w3). }
      match type of S4 with steps _ ?e _ => set (evs4 := e) in S4 end.
      assert (M4 : scrolls evs4 = scrolls evs1).
      { unfold evs4. rewrite scrolls_app. cbn [app scrolls]. apply app_nil_r. }
      clearbody evs4.
      rewrite bind_run.
      destruct (fltb (Some f) (fconst 0.2)).
      * rewrite bind_run.
        destruct (ScrollPage_bounded "up" w4)
          as (r5 & evs5 & w5 & -> & S5 & B5 & _ & _).
        cbv iota beta. rewrite bind_run. unfold stealth.ShortDelay.
        destruct (RandomDelay_run w5 (100 * Millisecond) (500 * Millisecond)
                    ltac:(zcmp) ltac:(zcmp) ltac:(zcmp) ltac:(zcmp)) as (d' & -> & _).
        rewrite sleep_steps. cbv iota beta. unfold ret at 1. cbv iota beta.
        set (w6 := after w5 RngInt63). set (w7 := after w6 (Sleep d')).
        destruct (IH w7) as (r & evs & w' & -> & St & B & _ & _ & He).
        exists r, ((evs4 ++ evs5) ++ [(RngInt63, env w5 (trace w5) RngInt63)]
                     ++ [(Sleep d', env w6 (trace w6) (Sleep d'))] ++ evs), w'.
        split; [reflexivity|]. split.
        { eapply steps_trans; [eapply steps_trans; [exact S4|exact S5]|].
          eapply steps_trans; [apply (steps_after w5)|].
          eapply steps_trans; [apply (steps_after w6)|]. exact St. }
        split.
        { rewrite !scrolls_app, M4. cbn [app scrolls].
          repeat (apply Forall_app; split); assumption. }
        split; [discriminate|]. split; [|exact He].
        intros _. rewrite !scrolls_app, M4, Hx. cbn [app].
        eexists _, _. split; [reflexivity|exact Hx16].
      * unfold ret at 1. cbv iota beta. unfold ret at 1. cbv iota beta.
        destruct (IH w4) as (r & evs & w' & -> & St & B & _ & _ & He).
        exists r, (evs4 ++ evs), w'.
        split; [reflexivity|]. split; [eapply steps_trans; [exact S4|exact St]|].
        split.
        { rewrite scrolls_app, M4. apply Forall_app. split; assumption. }
        split; [discriminate|]. split; [|exact He].
        intros _. rewrite scrolls_app, M4, Hx. cbn [app].
        eexists _, _. split; [reflexivity|exact Hx16].
Qed.

(** ScrollFeed always returns.  Every scroll it makes is of at most 199
    pixels, up or down.  With a count of zero or less it makes no call and
    returns nil; with a positive count its first scroll is downwards, by at
    least 16 pixels.  The only error it returns is the failure of a step of
    a downward scroll, "failed to scroll": the result of the occasional
    upward scroll is dropped. *)
Theorem ScrollFeed_scrolls (scrollCount : Z) (w : World) :
  exists r evs w',
    stealth.ScrollFeed scrollCount w = (Val r, w')
    /\ steps w evs w'
    /\ Forall (fun x => -199 <= x <= 199) (scrolls evs)
    /\ (scrollCount <= 0 -> r = None /\ evs = [])
    /\ (0 < scrollCount -> exists x rest, scrolls evs = x :: rest /\ 16 <= x)
    /\ (forall e, r = Some e -> exists cause, e = Wrap "failed to scroll" cause).
Proof.
  unfold stealth.ScrollFeed.
  destruct (feed_loop (upto scrollCount) w)
    as (r & evs & w' & E & St & B & Hnil & Hne & He).
  exists r, evs, w'. split; [exact E|]. split; [exact St|]. split; [exact B|].
  split; [|split; [|exact He]].
  - intros H. apply Hnil. unfold upto.
    replace (Z.to_nat scrollCount) with 0%nat by lia. reflexivity.
  - intros H. apply Hne. intros E0.
    apply (f_equal (@List.length Z)) in E0. rewrite upto_length in E0.
    cbn [List.length] in E0. lia.
Qed.
